(** * The Stack layout of qtile ([libqtile/layout/stack.py])

    A shallow embedding of the [Stack] layout and of its helper class
    [_WinStack], with the properties of the layout's specification.

    The layout is a Python object mutated in place; here every method is
    a function from the state before the call to the state after it.
    What a method asks of its collaborators (the group, the client
    windows) is returned as a list of [event]s, in call order.  What it
    reads from them (the group's current window, a client's focus flag)
    is an argument. *)

From Stdlib Require Import ZArith String.
From stdpp Require Import base list.

Local Open Scope nat_scope.

(** ** Values shared with the collaborators *)

(** A client is a window object.  The layout only compares clients and
    tests membership; every window object is truthy. *)
Definition client := nat.

(** A border colour setting, "Border colour(s)": one colour string or a
    list of them. *)
Inductive colour :=
| ColourStr (c : string)
| ColourList (cs : list string).

(** The [margin] setting, "int or list of ints [N E S W]". *)
Inductive margin_t :=
| MarginInt (m : Z)
| MarginList (ms : list Z).

Record ScreenRect := {
  x : Z;
  y : Z;
  width : Z;
  height : Z
}.

(** The calls the layout makes on the group and on client windows. *)
Inductive event :=
| Focus (c : option client) (warp : bool)
| LayoutAll
| Place (c : client) (px py w h bw : Z) (bordercolor : option colour) (margin : margin_t)
| Hide (c : client)
| Unhide (c : client).

(** Exceptions a method can end with. *)
Inductive exn :=
| ValueError (msg : string)
| IndexError
| ZeroDivisionError
| OverflowError.

Inductive result (A : Type) :=
| Ok (a : A)
| Raise (e : exn).
Arguments Ok {A} a.
Arguments Raise {A} e.

#[global] Instance result_ret : MRet result := fun A a => Ok a.

#[global] Instance result_bind : MBind result := fun A B k r =>
  match r with
  | Ok a => k a
  | Raise e => Raise e
  end.

(** ** [_WinStack]: a client list with a split flag *)

(** [_WinStack(_ClientList)]; [split] is its own attribute.
    Modelled from the spec: the two attributes it inherits from
    [_ClientList], a class of [libqtile/layout/base.py], which is not
    among the source files: the "members" and the "current_index" of
    section 3 of the specification. *)
Record _WinStack := {
  clients : list client;
  current_index : nat;
  split : bool
}.

(** [_WinStack(autosplit=...)]; a client list is "created empty". *)
Definition new_WinStack (autosplit : bool) : _WinStack :=
  {| clients := []; current_index := 0; split := autosplit |}.

(** [_WinStack.toggle_split] *)
Definition toggle_split (s : _WinStack) : _WinStack :=
  {| clients := clients s;
     current_index := current_index s;
     split := if split s then false else true |}.

(** Position of the first occurrence, [list.index]. *)
Definition index_of (c : client) (l : list client) : option nat :=
  fst <$> list_find (fun d => d = c) l.

(** ** [_ClientList]

    The methods of [_ClientList] that [Stack] calls on its stacks, after
    section 3 and section 4.1 of the specification. *)
Module ClientList.

(** Modelled from the spec: [__len__], "length ... standard
    sequence semantics". *)
Definition len (s : _WinStack) : nat := length (clients s).

(** Modelled from the spec: truth value of a client list, through its
    length: a list is true when it has a member. *)
Definition truthy (s : _WinStack) : bool :=
  match clients s with
  | [] => false
  | _ :: _ => true
  end.

(** Modelled from the spec: [current_index] is "always taken modulo
    len(members) on read so it self-wraps". *)
Definition position (s : _WinStack) : nat :=
  current_index s `mod` length (clients s).

(** Modelled from the spec: "current_client accessor returns None/absent
    when empty"; otherwise the member at the current index. *)
Definition current_client (s : _WinStack) : option client :=
  match clients s with
  | [] => None
  | _ :: _ => clients s !! position s
  end.

(** Modelled from the spec: "focus(client): sets current_index to that
    client's position if present; no-op otherwise". *)
Definition focus (c : client) (s : _WinStack) : _WinStack :=
  match index_of c (clients s) with
  | Some i => {| clients := clients s; current_index := i; split := split s |}
  | None => s
  end.

(** Modelled from the spec: "add(client, offset=None): inserts at given
    position (default: immediately after current ...) and makes it
    current".  [Stack] only uses the default position.  In an empty list
    the client becomes the only member. *)
Definition add_client (c : client) (s : _WinStack) : _WinStack :=
  let pos := match clients s with [] => 0 | _ :: _ => S (position s) end in
  focus c {| clients := take pos (clients s) ++ c :: drop pos (clients s);
             current_index := current_index s;
             split := split s |}.

(** Modelled from the spec: "remove(client): removes if present; if the
    removed element was current, current_index is clamped into the valid
    range of the remaining sequence ... Removing from an empty list, or
    a client not present, is a no-op". *)
Definition remove (c : client) (s : _WinStack) : _WinStack :=
  match index_of c (clients s) with
  | None => s
  | Some i =>
      let rest := delete i (clients s) in
      {| clients := rest;
         current_index :=
           if decide (i = position s)
           then current_index s `min` (length rest - 1)
           else current_index s;
         split := split s |}
  end.

(** Modelled from the spec: "join(other, offset): appends another
    ClientList's members at a given relative position", relative to the
    current item: offset 1 is just after it.  The receiver keeps its
    stored index. *)
Definition join (other : _WinStack) (offset : nat) (s : _WinStack) : _WinStack :=
  let pos := match clients s with [] => 0 | _ :: _ => position s end + offset in
  {| clients := take pos (clients s) ++ clients other ++ drop pos (clients s);
     current_index := current_index s;
     split := split s |}.

(** Modelled from the spec: [__contains__], "contains ... standard
    set/sequence semantics". *)
Definition contains (c : client) (s : _WinStack) : Prop := c ∈ clients s.

#[global] Instance contains_dec c s : Decision (contains c s).
Proof. unfold contains. apply _. Defined.

(** Modelled from the spec: [index], the position of a member in the
    list order, "the client occupies its index-th row". *)
Definition index (c : client) (s : _WinStack) : option nat := index_of c (clients s).

(** Modelled from the spec: "focus_first(): set current to the first
    element; return the element, or None if empty". *)
Definition focus_first (s : _WinStack) : _WinStack * option client :=
  match clients s with
  | [] => (s, None)
  | c :: _ => ({| clients := clients s; current_index := 0; split := split s |}, Some c)
  end.

(** Modelled from the spec: "focus_last(): set current to the last
    element; return the element, or None if empty". *)
Definition focus_last (s : _WinStack) : _WinStack * option client :=
  match last (clients s) with
  | None => (s, None)
  | Some c =>
      ({| clients := clients s;
          current_index := length (clients s) - 1;
          split := split s |}, Some c)
  end.

End ClientList.

(** [cw = _ClientList.current_client], the shortcut of [_WinStack]. *)
Definition cw (s : _WinStack) : option client := ClientList.current_client s.

(** ** Python list slices and [min] *)

(** A slice bound as Python resolves it on a list of length [n]: a
    negative bound counts from the end, and bounds are clipped to
    [0 .. n]. *)
Definition slice_bound (n : nat) (a : Z) : nat :=
  if (a <? 0)%Z then Z.to_nat (Z.max 0 (Z.of_nat n + a))
  else Z.to_nat (Z.min a (Z.of_nat n)).

(** [lst[a:]] *)
Definition slice_from {A} (lst : list A) (a : Z) : list A :=
  drop (slice_bound (length lst) a) lst.

(** [lst[:b]] *)
Definition slice_to {A} (lst : list A) (b : Z) : list A :=
  take (slice_bound (length lst) b) lst.

(** The scan of [min(lst, key=key)] over the items after the first: the
    best item so far is replaced only by one with a strictly smaller key,
    so the first of the smallest is kept.  [i] is the index of the head of
    [lst], [best] and [kbest] the index and key of the best so far. *)
Fixpoint min_scan {A} (key : A -> nat) (lst : list A) (i best kbest : nat) : nat :=
  match lst with
  | [] => best
  | a :: rest =>
      if decide (key a < kbest) then min_scan key rest (S i) i (key a)
      else min_scan key rest (S i) best kbest
  end.

(** Index of the item [min(lst, key=key)] returns; [None] stands for the
    [ValueError] on an empty sequence. *)
Definition min_index {A} (key : A -> nat) (lst : list A) : option nat :=
  match lst with
  | [] => None
  | a :: rest => Some (min_scan key rest 1 0 (key a))
  end.

(** ** The layout *)

(** The attributes of a [Stack] object: the settings of [Stack.defaults]
    and the list of stacks. *)
Record Stack := {
  border_focus : colour;
  border_normal : colour;
  border_focus_stack : option colour;
  border_normal_stack : option colour;
  border_width : Z;
  autosplit : bool;
  num_stacks : Z;
  fair : bool;
  margin : margin_t;
  stacks : list _WinStack
}.

(** The layout [l] with [sts] as its stacks. *)
Definition set_stacks (l : Stack) (sts : list _WinStack) : Stack :=
  {| border_focus := border_focus l;
     border_normal := border_normal l;
     border_focus_stack := border_focus_stack l;
     border_normal_stack := border_normal_stack l;
     border_width := border_width l;
     autosplit := autosplit l;
     num_stacks := num_stacks l;
     fair := fair l;
     margin := margin l;
     stacks := sts |}.

(** Truth value of a colour setting: [None], the empty string and the
    empty list are false. *)
Definition colour_truthy (c : option colour) : bool :=
  match c with
  | None => false
  | Some (ColourStr EmptyString) => false
  | Some (ColourList []) => false
  | Some _ => true
  end.

(** ** [int(a / b)]: true division of integers, then [int]

    [a / b] on two Python integers is the double nearest to the exact
    quotient, ties going to the even mantissa; it raises
    [ZeroDivisionError] for [b = 0] and [OverflowError] when the rounded
    quotient is beyond the largest double.  [int] then drops the
    fraction, towards zero. *)

Section true_division.
Local Open Scope Z_scope.

(** A finite double, as the integer [mantissa] times 2 to the
    [exponent]; the mantissa carries the sign and is at most 2^53 in
    absolute value. *)
Record float := {
  mantissa : Z;
  exponent : Z
}.

(** The integer part of the binary logarithm of [a / b], for positive
    [a] and [b]. *)
Definition quot_log2 (a b : Z) : Z :=
  let d := Z.log2 a - Z.log2 b in
  if a * 2 ^ Z.max 0 (- d) <? b * 2 ^ Z.max 0 d then d - 1 else d.

(** [num / den] rounded to the nearest integer, a tie to the even one. *)
Definition round_half_even (num den : Z) : Z :=
  let q := num / den in
  let r := num mod den in
  if (den <? 2 * r) || ((den =? 2 * r) && Z.odd q) then q + 1 else q.

(** [a / b] on integers.  The quotient is scaled to a mantissa of 53
    bits (fewer below 2^-1022, where the exponent stays at -1074) and
    rounded. *)
Definition true_divide (a b : Z) : result float :=
  if b =? 0 then Raise ZeroDivisionError
  else if a =? 0 then Ok {| mantissa := 0; exponent := 0 |}
  else
    let e := Z.max (quot_log2 (Z.abs a) (Z.abs b) - 52) (-1074) in
    let m := round_half_even (Z.abs a * 2 ^ Z.max 0 (- e)) (Z.abs b * 2 ^ Z.max 0 e) in
    if (0 <=? e) && (2 ^ 1024 <=? m * 2 ^ e) then Raise OverflowError
    else Ok {| mantissa := Z.sgn a * Z.sgn b * m; exponent := e |}.

(** [int(f)] for a finite double. *)
Definition int_of_float (f : float) : Z :=
  if 0 <=? exponent f then mantissa f * 2 ^ exponent f
  else Z.quot (mantissa f) (2 ^ (- exponent f)).

(** [int(a / b)] *)
Definition int_div (a b : Z) : result Z :=
  f ← true_divide a b; Ok (int_of_float f).

End true_division.

Module StackLayout.

(** The settings of [Stack.defaults] that [__init__] reads. *)
Record config := {
  cfg_border_focus : colour;
  cfg_border_normal : colour;
  cfg_border_focus_stack : option colour;
  cfg_border_normal_stack : option colour;
  cfg_border_width : Z;
  cfg_autosplit : bool;
  cfg_num_stacks : Z;
  cfg_fair : bool;
  cfg_margin : margin_t
}.

Definition defaults : config :=
  {| cfg_border_focus := ColourStr "#0000ff";
     cfg_border_normal := ColourStr "#000000";
     cfg_border_focus_stack := None;
     cfg_border_normal_stack := None;
     cfg_border_width := 1;
     cfg_autosplit := false;
     cfg_num_stacks := 2;
     cfg_fair := false;
     cfg_margin := MarginInt 0 |}.

(** [Stack.__init__] *)
Definition __init__ (c : config) : result Stack :=
  if (cfg_num_stacks c <=? 0)%Z then
    Raise (ValueError "num_stacks must be at least 1")
  else
    Ok {| border_focus := cfg_border_focus c;
          border_normal := cfg_border_normal c;
          border_focus_stack := cfg_border_focus_stack c;
          border_normal_stack := cfg_border_normal_stack c;
          border_width := cfg_border_width c;
          autosplit := cfg_autosplit c;
          num_stacks := cfg_num_stacks c;
          fair := cfg_fair c;
          margin := cfg_margin c;
          stacks := (fun _ => new_WinStack (cfg_autosplit c))
                      <$> seq 0 (Z.to_nat (cfg_num_stacks c)) |}.

(** [Stack.current_stack_offset]; [w] is [self.group.current_window]. *)
Definition current_stack_offset (w : option client) (l : Stack) : nat :=
  match w with
  | None => 0
  | Some c =>
      match list_find (ClientList.contains c) (stacks l) with
      | Some (i, _) => i
      | None => 0
      end
  end.

(** [Stack.current_stack] *)
Definition current_stack (w : option client) (l : Stack) : result _WinStack :=
  match stacks l !! current_stack_offset w l with
  | Some s => Ok s
  | None => Raise IndexError
  end.

(** [Stack._find_next] *)
Definition _find_next (lst : list _WinStack) (offset : Z) : option _WinStack :=
  match list_find (fun i => ClientList.truthy i = true) (slice_from lst (offset + 1)) with
  | Some (_, i) => Some i
  | None =>
      match list_find (fun i => ClientList.truthy i = true) (slice_to lst offset) with
      | Some (_, i) => Some i
      | None => None
      end
  end.


(** [Stack.delete_current_stack].  [self.stacks.remove(s)] removes the
    first item equal to [s]; stacks compare by identity and no stack
    object is listed twice, so that is the item at [off]. *)
Definition delete_current_stack (w : option client) (l : Stack)
  : result (Stack * list event) :=
  if decide (1 < length (stacks l)) then
    let off := current_stack_offset w l in
    match stacks l !! off with
    | None => Raise IndexError
    | Some s =>
        let sts := delete off (stacks l) in
        let off := off `min` (length sts - 1) in
        match sts !! off with
        | None => Raise IndexError
        | Some t =>
            let t := ClientList.join s 1 t in
            Ok (set_stacks l (<[off := t]> sts),
                if ClientList.truthy t then [Focus (cw t) false] else [])
        end
    end
  else Ok (l, []).

(** [Stack.next_stack] *)
Definition next_stack (w : option client) (l : Stack) : list event :=
  match _find_next (stacks l) (Z.of_nat (current_stack_offset w l)) with
  | Some n => if ClientList.truthy n then [Focus (cw n) true] else []
  | None => []
  end.

(** [Stack.previous_stack] *)
Definition previous_stack (w : option client) (l : Stack) : list event :=
  match _find_next (reverse (stacks l))
          (Z.of_nat (length (stacks l)) - Z.of_nat (current_stack_offset w l) - 1) with
  | Some n => if ClientList.truthy n then [Focus (cw n) true] else []
  | None => []
  end.

(** [Stack.add_client] *)
Definition add_client (w : option client) (c : client) (l : Stack) : result Stack :=
  match list_find (fun i => ClientList.truthy i = false) (stacks l) with
  | Some (k, _) => Ok (set_stacks l (alter (ClientList.add_client c) k (stacks l)))
  | None =>
      if fair l then
        match min_index ClientList.len (stacks l) with
        | None => Raise (ValueError "min() arg is an empty sequence")
        | Some k => Ok (set_stacks l (alter (ClientList.add_client c) k (stacks l)))
        end
      else
        _ ← current_stack w l;
        Ok (set_stacks l
              (alter (ClientList.add_client c) (current_stack_offset w l) (stacks l)))
  end.

(** [Stack.remove]; the second component is the returned client. *)
Definition remove (w : option client) (c : client) (l : Stack)
  : result (Stack * option client) :=
  let current_offset := current_stack_offset w l in
  let sts :=
    match list_find (ClientList.contains c) (stacks l) with
    | Some (k, _) => alter (ClientList.remove c) k (stacks l)
    | None => stacks l
    end in
  match sts !! current_offset with
  | None => Raise IndexError
  | Some s =>
      match cw s with
      | Some d => Ok (set_stacks l sts, Some d)
      | None =>
          match _find_next (reverse sts)
                  (Z.of_nat (length sts) - Z.of_nat current_offset - 1) with
          | Some n => if ClientList.truthy n then Ok (set_stacks l sts, cw n)
                      else Ok (set_stacks l sts, None)
          | None => Ok (set_stacks l sts, None)
          end
      end
  end.

(** The border colour [px] that [Stack.configure] picks for a client of
    stack [s]. *)
Definition border_colour (has_focus : bool) (s : _WinStack) (l : Stack) : option colour :=
  if has_focus then
    if colour_truthy (border_focus_stack l) then
      if split s then Some (border_focus l) else border_focus_stack l
    else Some (border_focus l)
  else
    if colour_truthy (border_normal_stack l) then
      if split s then Some (border_normal l) else border_normal_stack l
    else Some (border_normal l).

(** [Stack.configure]; [has_focus] is [client.has_focus]. *)
Definition configure (c : client) (has_focus : bool) (screen_rect : ScreenRect)
    (l : Stack) : result (list event) :=
  match list_find (ClientList.contains c) (stacks l) with
  | None => Ok [Hide c]
  | Some (i, s) =>
      let px := border_colour has_focus s l in
      column_width ← int_div (width screen_rect) (Z.of_nat (length (stacks l)));
      let xoffset := (x screen_rect + Z.of_nat i * column_width)%Z in
      let window_width := (column_width - 2 * border_width l)%Z in
      if split s then
        column_height ← int_div (height screen_rect) (Z.of_nat (ClientList.len s));
        let window_height := (column_height - 2 * border_width l)%Z in
        match ClientList.index c s with
        | None => Raise (ValueError "client is not in list")
        | Some k =>
            let yoffset := (y screen_rect + Z.of_nat k * column_height)%Z in
            Ok [Place c xoffset yoffset window_width window_height
                  (border_width l) px (margin l);
                Unhide c]
        end
      else
        if decide (Some c = cw s) then
          Ok [Place c xoffset (y screen_rect) window_width
                (height screen_rect - 2 * border_width l)%Z
                (border_width l) px (margin l);
              Unhide c]
        else Ok [Hide c]
  end.

(** [Stack.add] *)
Definition add (l : Stack) : Stack * list event :=
  let newstack := new_WinStack (autosplit l) in
  let newstack :=
    if autosplit l
    then {| clients := clients newstack;
            current_index := current_index newstack;
            split := true |}
    else newstack in
  (set_stacks l (stacks l ++ [newstack]), [LayoutAll]).

(** [Stack.rotate]: [self.stacks.insert(0, self.stacks.pop())]. *)
Definition rotate (l : Stack) : Stack * list event :=
  match last (stacks l) with
  | Some s => (set_stacks l (s :: take (length (stacks l) - 1) (stacks l)), [LayoutAll])
  | None => (l, [LayoutAll])
  end.

(** [Stack.client_to_stack].  A stack that is not empty has a current
    client, so [win] is never [None]. *)
Definition client_to_stack (w : option client) (n : Z) (l : Stack)
  : result (Stack * list event) :=
  cs ← current_stack w l;
  if negb (ClientList.truthy cs) then Ok (l, [])
  else
    let next := Z.to_nat (n `mod` Z.of_nat (length (stacks l))) in
    match cw cs with
    | None => Ok (l, [])
    | Some win =>
        let sts := alter (ClientList.remove win) (current_stack_offset w l) (stacks l) in
        match sts !! next with
        | None => Raise IndexError
        | Some t =>
            let t := ClientList.focus win (ClientList.add_client win t) in
            Ok (set_stacks l (<[next := t]> sts), [LayoutAll])
        end
    end.

(** [Stack.focus] *)
Definition focus (c : client) (l : Stack) : Stack :=
  set_stacks l
    ((fun i => if decide (ClientList.contains c i) then ClientList.focus c i else i)
       <$> stacks l).

(** [Stack.focus_first]; the second component is the returned client. *)
Definition focus_first (l : Stack) : Stack * option client :=
  match list_find (fun i => ClientList.truthy i = true) (stacks l) with
  | Some (k, i) =>
      let (i', r) := ClientList.focus_first i in
      (set_stacks l (<[k := i']> (stacks l)), r)
  | None => (l, None)
  end.

(** [Stack.focus_last]: the same over [reversed(self.stacks)]; the item
    at index [k] of the reversed list is the stack of index
    [len(stacks) - 1 - k]. *)
Definition focus_last (l : Stack) : Stack * option client :=
  match list_find (fun i => ClientList.truthy i = true) (reverse (stacks l)) with
  | Some (k, i) =>
      let (i', r) := ClientList.focus_last i in
      (set_stacks l (<[length (stacks l) - 1 - k := i']> (stacks l)), r)
  | None => (l, None)
  end.

(** [Stack.toggle_split] *)
Definition toggle_split (w : option client) (l : Stack) : result (Stack * list event) :=
  _ ← current_stack w l;
  Ok (set_stacks l (alter toggle_split (current_stack_offset w l) (stacks l)),
      [LayoutAll]).

(** [Stack.delete] *)
Definition delete (w : option client) (l : Stack) : result (Stack * list event) :=
  delete_current_stack w l.

(** [Stack.next] *)
Definition next (w : option client) (l : Stack) : list event := next_stack w l.

(** [Stack.previous] *)
Definition previous (w : option client) (l : Stack) : list event := previous_stack w l.

(** [Stack.client_to_next] *)
Definition client_to_next (w : option client) (l : Stack) : result (Stack * list event) :=
  client_to_stack w (Z.of_nat (current_stack_offset w l) + 1) l.

(** [Stack.client_to_previous] *)
Definition client_to_previous (w : option client) (l : Stack)
  : result (Stack * list event) :=
  client_to_stack w (Z.of_nat (current_stack_offset w l) - 1) l.

(** [Stack.clients], the aggregate client list. *)
Definition clients (l : Stack) : list client :=
  foldl (fun client_list stack => client_list ++ clients stack) [] (stacks l).

(** [Stack.get_windows] *)
Definition get_windows (l : Stack) : list client := clients l.

End StackLayout.

(** [add_client] called once for each pair of [calls], in order; the first
    component of a pair is the group's current window at that call. *)
Fixpoint add_clients (calls : list (option client * client)) (l : Stack) : result Stack :=
  match calls with
  | [] => Ok l
  | (w, c) :: rest => l' ← StackLayout.add_client w c l; add_clients rest l'
  end.

(** ** Reachable states and auxiliary notions *)

(** The member lists of the stacks, one after the other. *)
Definition members (sts : list _WinStack) : list client :=
  concat (clients <$> sts).

(** The states a layout can be in: built by [__init__], then changed by
    the methods that change membership or the stacks.  [add_client] is
    called with a client the layout does not have yet. *)
Inductive reachable : Stack -> Prop :=
| reach_init cfg l :
    StackLayout.__init__ cfg = Ok l -> reachable l
| reach_add_client w c l l' :
    reachable l -> c ∉ StackLayout.clients l ->
    StackLayout.add_client w c l = Ok l' -> reachable l'
| reach_remove w c l l' r :
    reachable l -> StackLayout.remove w c l = Ok (l', r) -> reachable l'
| reach_delete_current_stack w l l' ev :
    reachable l -> StackLayout.delete_current_stack w l = Ok (l', ev) -> reachable l'
| reach_client_to_stack w n l l' ev :
    reachable l -> StackLayout.client_to_stack w n l = Ok (l', ev) -> reachable l'
| reach_rotate l :
    reachable l -> reachable (StackLayout.rotate l).1
| reach_add l :
    reachable l -> reachable (StackLayout.add l).1.

(** [k] is the index of the first item of [lst] with the smallest key. *)
Definition first_smallest {A} (key : A -> nat) (lst : list A) (k : nat) : Prop :=
  exists a, lst !! k = Some a /\
    (forall j b, lst !! j = Some b -> key a <= key b) /\
    (forall j b, j < k -> lst !! j = Some b -> key a < key b).

(** The members of [s] are [cs], and its current client is the last of
    them. *)
Definition appended (s : _WinStack) (cs : list client) : Prop :=
  clients s = cs /\ (cs = [] \/ ClientList.position s = length cs - 1).

(** The result of [remove] as the specification words it, for the stacks
    [sts] left by the removal and the offset [off] of the stack that held
    the focus: the current client of that stack, or else of the first
    stack with a member among the stacks after [off], then the stacks
    before it, each group in its original order. *)
Definition remove_result_forward (off : nat) (sts : list _WinStack) : option client :=
  match sts !! off with
  | Some s =>
      match cw s with
      | Some d => Some d
      | None =>
          match list_find (fun n => ClientList.truthy n = true)
                  (drop (S off) sts ++ take off sts) with
          | Some (_, n) => cw n
          | None => None
          end
      end
  | None => None
  end.

(** The border colour as the specification words it: the plain colour of
    the focus state, unless the stack is not split and the stack colour of
    that state is configured. *)
Definition border_colour_spec (has_focus : bool) (s : _WinStack) (l : Stack) : option colour :=
  if has_focus then
    if negb (split s) && colour_truthy (border_focus_stack l)
    then border_focus_stack l else Some (border_focus l)
  else
    if negb (split s) && colour_truthy (border_normal_stack l)
    then border_normal_stack l else Some (border_normal l).

(** ** Sample layouts *)

(** The default settings with a given number of stacks and a given
    [fair]. *)
Definition sample_config (n : Z) (f : bool) : StackLayout.config :=
  {| StackLayout.cfg_border_focus := StackLayout.cfg_border_focus StackLayout.defaults;
     StackLayout.cfg_border_normal := StackLayout.cfg_border_normal StackLayout.defaults;
     StackLayout.cfg_border_focus_stack := None;
     StackLayout.cfg_border_normal_stack := None;
     StackLayout.cfg_border_width := 1;
     StackLayout.cfg_autosplit := false;
     StackLayout.cfg_num_stacks := n;
     StackLayout.cfg_fair := f;
     StackLayout.cfg_margin := MarginInt 0 |}.

(** An unsplit stack with the given members and current index. *)
Definition stack_of (cs : list client) (i : nat) : _WinStack :=
  {| clients := cs; current_index := i; split := false |}.

(** The layout [__init__] builds from [sample_config n f], with its stacks
    replaced by [sts]. *)
Definition sample_layout (n : Z) (f : bool) (sts : list _WinStack) : Stack :=
  {| border_focus := StackLayout.cfg_border_focus StackLayout.defaults;
     border_normal := StackLayout.cfg_border_normal StackLayout.defaults;
     border_focus_stack := None;
     border_normal_stack := None;
     border_width := 1;
     autosplit := false;
     num_stacks := n;
     fair := f;
     margin := MarginInt 0;
     stacks := sts |}.

(** Two stacks and both stack colours configured. *)
Definition sample_layout_colours (sts : list _WinStack) : Stack :=
  {| border_focus := ColourStr "#0000ff";
     border_normal := ColourStr "#000000";
     border_focus_stack := Some (ColourStr "#ff0000");
     border_normal_stack := Some (ColourStr "#808080");
     border_width := 1;
     autosplit := false;
     num_stacks := 2;
     fair := false;
     margin := MarginInt 0;
     stacks := sts |}.

(** [rotate] called [n] times. *)
Definition rotate_n (n : nat) (l : Stack) : Stack :=
  Nat.iter n (fun l => (StackLayout.rotate l).1) l.

(** [delete] called once for each item of [ws], the group's current window
    at each call. *)
Fixpoint deletes (ws : list (option client)) (l : Stack) : result Stack :=
  match ws with
  | [] => Ok l
  | w :: rest => p ← StackLayout.delete w l; deletes rest p.1
  end.

(** The sizes of the stacks after [n] clients dealt out in turn: each
    stack has [n / k] members, and the first [n mod k] stacks one more,
    [k] being the number of stacks. *)
Definition round_robin_sizes (n : nat) (sts : list _WinStack) : Prop :=
  forall i s, sts !! i = Some s ->
    length (clients s)
    = n / length sts + (if decide (i < n `mod` length sts) then 1 else 0).

Ltac solve_not_elem :=
  rewrite ?not_elem_of_cons; split_and?; try done; try apply not_elem_of_nil.

(** * Properties *)

(** ** The client list *)

Example add_three :
  clients (ClientList.add_client 3 (ClientList.add_client 2 (ClientList.add_client 1 (new_WinStack false))))
  = [1; 2; 3].
Proof. reflexivity. Qed.

Section client_list_facts.
Implicit Types (s t : _WinStack) (c d : client).

Lemma index_of_Some c l i :
  index_of c l = Some i -> l !! i = Some c.
Proof.
  unfold index_of. intros H.
  apply fmap_Some in H as [[j d] [Hf ->]].
  apply list_find_Some in Hf as (Hl & -> & _). exact Hl.
Qed.

Lemma index_of_None c l :
  index_of c l = None <-> c ∉ l.
Proof.
  unfold index_of. rewrite fmap_None, list_find_None, Forall_forall.
  split.
  - intros H Hin. exact (H c Hin eq_refl).
  - intros H d Hd ->. exact (H Hd).
Qed.

Lemma index_of_elem c l :
  c ∈ l -> exists i, index_of c l = Some i.
Proof.
  intros Hin. destruct (index_of c l) as [i|] eqn:E; [eauto|].
  apply index_of_None in E. contradiction.
Qed.

Lemma truthy_true s : ClientList.truthy s = true <-> clients s <> [].
Proof. unfold ClientList.truthy. destruct (clients s); split; congruence. Qed.

Lemma truthy_false s : ClientList.truthy s = false <-> clients s = [].
Proof. unfold ClientList.truthy. destruct (clients s); split; congruence. Qed.

Lemma position_lt s : clients s <> [] -> ClientList.position s < length (clients s).
Proof.
  intros Hne. unfold ClientList.position. apply Nat.mod_upper_bound.
  destruct (clients s); simpl; [congruence | lia].
Qed.

(** An empty stack has no current client, and only an empty one. *)
Lemma cw_None s : cw s = None <-> clients s = [].
Proof.
  unfold cw, ClientList.current_client.
  destruct (clients s) as [|a l] eqn:E; [tauto|].
  split; [|discriminate]. intros H.
  apply lookup_ge_None in H.
  assert (ClientList.position s < length (clients s)) by (apply position_lt; congruence).
  rewrite E in H0. lia.
Qed.

Lemma cw_elem s c : cw s = Some c -> c ∈ clients s.
Proof.
  unfold cw, ClientList.current_client.
  destruct (clients s) as [|a l] eqn:E; [discriminate|].
  intros H. eapply list_elem_of_lookup_2. exact H.
Qed.

Lemma cw_position s c :
  cw s = Some c <-> clients s !! ClientList.position s = Some c /\ clients s <> [].
Proof.
  unfold cw, ClientList.current_client.
  destruct (clients s) as [|a l] eqn:E.
  - split; [discriminate | intros [_ ?]; congruence].
  - split; [intros ?; split; [done | discriminate] | tauto].
Qed.

Lemma clients_focus c s : clients (ClientList.focus c s) = clients s.
Proof. unfold ClientList.focus. by destruct (index_of c (clients s)). Qed.

Lemma split_focus c s : split (ClientList.focus c s) = split s.
Proof. unfold ClientList.focus. by destruct (index_of c (clients s)). Qed.

(** [focus] makes a member the current client. *)
Lemma cw_focus c s : c ∈ clients s -> cw (ClientList.focus c s) = Some c.
Proof.
  intros Hin. destruct (index_of_elem _ _ Hin) as [i Hi].
  unfold ClientList.focus. rewrite Hi.
  pose proof (index_of_Some _ _ _ Hi) as Hl.
  apply cw_position. unfold ClientList.position. simpl.
  assert (i < length (clients s)) by (eapply lookup_lt_Some; eauto).
  rewrite Nat.mod_small by done. split; [done|].
  intros E. rewrite E in H. simpl in H. lia.
Qed.

Lemma clients_add_client c s :
  clients (ClientList.add_client c s) =
    match clients s with
    | [] => [c]
    | _ :: _ => take (S (ClientList.position s)) (clients s)
                 ++ c :: drop (S (ClientList.position s)) (clients s)
    end.
Proof.
  unfold ClientList.add_client. rewrite clients_focus. simpl.
  by destruct (clients s).
Qed.

Lemma clients_add_client_perm c s :
  clients (ClientList.add_client c s) ≡ₚ c :: clients s.
Proof.
  rewrite clients_add_client. destruct (clients s) as [|a l] eqn:E; [done|].
  rewrite <- Permutation_middle. by rewrite take_drop.
Qed.

(** [add_client] makes the new client the current one. *)
Lemma cw_add_client c s : cw (ClientList.add_client c s) = Some c.
Proof.
  unfold ClientList.add_client. apply cw_focus. simpl. apply elem_of_app. right. left.
Qed.

Lemma clients_remove c s :
  clients (ClientList.remove c s) =
    match index_of c (clients s) with
    | Some i => delete i (clients s)
    | None => clients s
    end.
Proof. unfold ClientList.remove. by destruct (index_of c (clients s)). Qed.

Lemma clients_remove_sublist c s :
  clients (ClientList.remove c s) `sublist_of` clients s.
Proof.
  rewrite clients_remove. destruct (index_of c (clients s)); [|done].
  apply sublist_delete.
Qed.

Lemma clients_remove_perm c s :
  c ∈ clients s -> clients s ≡ₚ c :: clients (ClientList.remove c s).
Proof.
  intros Hin. rewrite clients_remove.
  destruct (index_of_elem _ _ Hin) as [i Hi]. rewrite Hi.
  apply index_of_Some in Hi.
  rewrite delete_take_drop, Permutation_middle.
  by rewrite take_drop_middle.
Qed.

Lemma clients_remove_absent c s :
  c ∉ clients s -> ClientList.remove c s = s.
Proof.
  intros Hn. unfold ClientList.remove.
  by rewrite (proj2 (index_of_None _ _) Hn).
Qed.

Lemma clients_join other k s :
  clients (ClientList.join other k s) =
    take (match clients s with [] => 0 | _ :: _ => ClientList.position s end + k) (clients s)
    ++ clients other
    ++ drop (match clients s with [] => 0 | _ :: _ => ClientList.position s end + k) (clients s).
Proof. reflexivity. Qed.

Lemma clients_join_perm other k s :
  clients (ClientList.join other k s) ≡ₚ clients other ++ clients s.
Proof.
  rewrite clients_join.
  rewrite (Permutation_app_comm (clients other)), app_assoc.
  by rewrite take_drop, Permutation_app_comm.
Qed.

End client_list_facts.

(** ** The stacks of a layout *)

Section stacks_facts.
Implicit Types (sts : list _WinStack) (s t : _WinStack) (c : client) (l : Stack).

Lemma members_cons s sts : members (s :: sts) = clients s ++ members sts.
Proof. reflexivity. Qed.

Lemma members_app sts1 sts2 : members (sts1 ++ sts2) = members sts1 ++ members sts2.
Proof. unfold members. by rewrite fmap_app, concat_app. Qed.

Lemma foldl_extend acc sts :
  foldl (fun client_list stack => client_list ++ clients stack) acc sts
  = acc ++ members sts.
Proof.
  revert acc. induction sts as [|s sts IH]; intros acc; simpl.
  - by rewrite app_nil_r.
  - rewrite IH, members_cons. by rewrite app_assoc.
Qed.

Lemma clients_members l : StackLayout.clients l = members (stacks l).
Proof. unfold StackLayout.clients. by rewrite foldl_extend. Qed.

Lemma elem_of_members c sts :
  c ∈ members sts <-> exists i s, sts !! i = Some s /\ c ∈ clients s.
Proof.
  induction sts as [|s sts IH].
  - split; [intros H; by apply elem_of_nil in H | intros (i & t & H & _); done].
  - rewrite members_cons, elem_of_app, IH. split.
    + intros [H | (i & t & H & Hc)]; [by exists 0, s | by exists (S i), t].
    + intros ([|i] & t & H & Hc); simplify_eq/=; [by left | right; eauto].
Qed.

Lemma members_delete_perm i sts s :
  sts !! i = Some s -> members sts ≡ₚ clients s ++ members (delete i sts).
Proof.
  intros H. rewrite <- (take_drop_middle sts i s H) at 1.
  rewrite delete_take_drop, !members_app, members_cons.
  by rewrite Permutation_app_swap_app.
Qed.

Lemma members_insert_perm i sts s t :
  sts !! i = Some s -> members (<[i:=t]> sts) ≡ₚ clients t ++ members (delete i sts).
Proof.
  intros H.
  assert (i < length sts) by (eapply lookup_lt_Some; eauto).
  rewrite insert_take_drop by done.
  rewrite delete_take_drop, !members_app, members_cons.
  by rewrite Permutation_app_swap_app.
Qed.

Lemma alter_insert (f : _WinStack -> _WinStack) i sts s :
  sts !! i = Some s -> alter f i sts = <[i:=f s]> sts.
Proof.
  revert i. induction sts as [|a sts IH]; intros [|i] H; simplify_eq/=; [done|].
  f_equal. by apply IH.
Qed.

Lemma alter_ge (f : _WinStack -> _WinStack) i sts :
  length sts <= i -> alter f i sts = sts.
Proof.
  revert i. induction sts as [|a sts IH]; intros [|i] H; simpl in *; try done; try lia.
  f_equal. apply IH. lia.
Qed.

Lemma members_alter_sublist (f : _WinStack -> _WinStack) i sts :
  (forall s, clients (f s) `sublist_of` clients s) ->
  members (alter f i sts) `sublist_of` members sts.
Proof.
  intros Hf. revert i. induction sts as [|a sts IH]; intros [|i]; simpl; try done.
  - rewrite !members_cons. by apply sublist_app.
  - rewrite !members_cons. apply sublist_app; [done | apply IH].
Qed.

(** Adding a client to one stack adds it to the members, whichever
    stack it is. *)
Lemma members_alter_add c i sts :
  i < length sts ->
  members (alter (ClientList.add_client c) i sts) ≡ₚ c :: members sts.
Proof.
  intros Hi. destruct (lookup_lt_is_Some_2 sts i Hi) as [s Hs].
  rewrite (alter_insert _ _ _ _ Hs), (members_insert_perm _ _ _ _ Hs).
  rewrite clients_add_client_perm. simpl.
  by rewrite <- (members_delete_perm _ _ _ Hs).
Qed.

Lemma NoDup_members_alter_add c i sts :
  c ∉ members sts -> NoDup (members sts) ->
  NoDup (members (alter (ClientList.add_client c) i sts)).
Proof.
  intros Hc Hnd. destruct (decide (i < length sts)) as [Hi|Hi].
  - rewrite (members_alter_add _ _ _ Hi). by apply NoDup_cons.
  - rewrite alter_ge by lia. done.
Qed.

(** In a duplicate-free layout a client is in one stack only. *)
Lemma NoDup_members_unique sts i j s t c :
  NoDup (members sts) ->
  sts !! i = Some s -> sts !! j = Some t ->
  c ∈ clients s -> c ∈ clients t -> i = j.
Proof.
  revert i j. induction sts as [|a sts IH]; intros i j Hnd Hi Hj Hs Ht; [done|].
  rewrite members_cons in Hnd. apply NoDup_app in Hnd as (_ & Hdis & Hnd).
  destruct i as [|i], j as [|j]; simplify_eq/=; try done.
  - exfalso. apply (Hdis c Hs). apply elem_of_members. eauto.
  - exfalso. apply (Hdis c Ht). apply elem_of_members. eauto.
  - f_equal. eauto.
Qed.

Lemma NoDup_members_each sts :
  NoDup (members sts) -> Forall (fun s => NoDup (clients s)) sts.
Proof.
  induction sts as [|a sts IH]; intros Hnd; [constructor|].
  rewrite members_cons in Hnd. apply NoDup_app in Hnd as (Ha & _ & Hnd).
  constructor; auto.
Qed.

Lemma members_new_stacks (b : bool) (ns : list nat) :
  members ((fun _ => new_WinStack b) <$> ns) = [].
Proof. induction ns as [|n ns IH]; [done|]. by rewrite fmap_cons, members_cons, IH. Qed.

End stacks_facts.

(** ** What each method does to the stacks *)

Section method_facts.
Implicit Types (sts : list _WinStack) (s t : _WinStack) (c : client) (l : Stack)
  (w : option client).

Lemma init_Ok cfg l :
  StackLayout.__init__ cfg = Ok l ->
  (0 < StackLayout.cfg_num_stacks cfg)%Z /\
  stacks l = (fun _ => new_WinStack (StackLayout.cfg_autosplit cfg))
               <$> seq 0 (Z.to_nat (StackLayout.cfg_num_stacks cfg)).
Proof.
  unfold StackLayout.__init__.
  destruct (Z.leb_spec (StackLayout.cfg_num_stacks cfg) 0); [discriminate|].
  intros [= <-]. split; [lia | reflexivity].
Qed.

Lemma current_stack_offset_lt w l :
  stacks l <> [] -> StackLayout.current_stack_offset w l < length (stacks l).
Proof.
  intros Hne. unfold StackLayout.current_stack_offset.
  assert (0 < length (stacks l)) by (destruct (stacks l); simpl; [congruence | lia]).
  destruct w as [c|]; [|done].
  destruct (list_find (ClientList.contains c) (stacks l)) as [[i s]|] eqn:E; [|done].
  apply list_find_Some in E as (Hl & _). eapply lookup_lt_Some; eauto.
Qed.

Lemma current_stack_Ok w l :
  stacks l <> [] ->
  exists s, StackLayout.current_stack w l = Ok s /\
            stacks l !! StackLayout.current_stack_offset w l = Some s.
Proof.
  intros Hne. unfold StackLayout.current_stack.
  destruct (lookup_lt_is_Some_2 _ _ (current_stack_offset_lt w l Hne)) as [s Hs].
  rewrite Hs. eauto.
Qed.

Lemma add_client_stacks w c l l' :
  StackLayout.add_client w c l = Ok l' ->
  exists k, stacks l' = alter (ClientList.add_client c) k (stacks l).
Proof.
  unfold StackLayout.add_client.
  destruct (list_find _ (stacks l)) as [[k s]|].
  - intros [= <-]. by exists k.
  - destruct (fair l).
    + destruct (min_index _ _) as [k|]; [|discriminate].
      intros [= <-]. by exists k.
    + destruct (StackLayout.current_stack w l); simpl; [|discriminate].
      intros [= <-]. by eexists.
Qed.

Lemma remove_stacks w c l l' r :
  StackLayout.remove w c l = Ok (l', r) ->
  stacks l' =
    match list_find (ClientList.contains c) (stacks l) with
    | Some (k, _) => alter (ClientList.remove c) k (stacks l)
    | None => stacks l
    end.
Proof.
  unfold StackLayout.remove.
  set (sts := match list_find (ClientList.contains c) (stacks l) with
              | Some (k, _) => _ | None => _ end).
  destruct (sts !! _) as [s|]; [|discriminate].
  destruct (cw s); [by intros [= <- _]|].
  destruct (StackLayout._find_next _ _) as [n|]; [|by intros [= <- _]].
  destruct (ClientList.truthy n); by intros [= <- _].
Qed.

Lemma delete_current_stack_stacks w l l' ev :
  StackLayout.delete_current_stack w l = Ok (l', ev) ->
  (length (stacks l) <= 1 /\ l' = l /\ ev = []) \/
  (1 < length (stacks l) /\
   exists s t,
     let off := StackLayout.current_stack_offset w l in
     let sts := delete off (stacks l) in
     let off' := off `min` (length sts - 1) in
     stacks l !! off = Some s /\
     sts !! off' = Some t /\
     stacks l' = <[off' := ClientList.join s 1 t]> sts /\
     ev = if ClientList.truthy (ClientList.join s 1 t)
          then [Focus (cw (ClientList.join s 1 t)) false] else []).
Proof.
  unfold StackLayout.delete_current_stack.
  destruct (decide (1 < length (stacks l))) as [Hlen|Hlen].
  - destruct (stacks l !! _) as [s|] eqn:Hs; [|discriminate].
    destruct (delete _ (stacks l) !! _) as [t|] eqn:Ht; [|discriminate].
    intros [= <- <-]. right. split; [done|]. exists s, t. simpl. done.
  - intros [= <- <-]. left. split; [lia | done].
Qed.

Lemma client_to_stack_stacks w n l l' ev :
  StackLayout.client_to_stack w n l = Ok (l', ev) ->
  (l' = l /\ ev = [] /\
     exists cs, stacks l !! StackLayout.current_stack_offset w l = Some cs /\ clients cs = [])
  \/
  (exists cs win t,
     let off := StackLayout.current_stack_offset w l in
     let next := Z.to_nat (n `mod` Z.of_nat (length (stacks l))) in
     let sts := alter (ClientList.remove win) off (stacks l) in
     stacks l !! off = Some cs /\ clients cs <> [] /\ cw cs = Some win /\
     sts !! next = Some t /\
     stacks l' = <[next := ClientList.focus win (ClientList.add_client win t)]> sts /\
     ev = [LayoutAll]).
Proof.
  unfold StackLayout.client_to_stack, StackLayout.current_stack.
  destruct (stacks l !! _) as [cs|] eqn:Hcs; simpl; [|discriminate].
  destruct (ClientList.truthy cs) eqn:Htr; simpl.
  - apply truthy_true in Htr.
    destruct (cw cs) as [win|] eqn:Hcw; [|by apply cw_None in Hcw].
    destruct (alter _ _ (stacks l) !! _) as [t|] eqn:Ht; [|discriminate].
    intros [= <- <-]. right. exists cs, win, t. simpl. done.
  - apply truthy_false in Htr. intros [= <- <-]. left. eauto.
Qed.

Lemma rotate_stacks l :
  stacks (StackLayout.rotate l).1 ≡ₚ stacks l.
Proof.
  unfold StackLayout.rotate. destruct (last (stacks l)) as [s|] eqn:E; [|done].
  apply last_Some in E as [sts E]. simpl. rewrite E.
  rewrite length_app. simpl.
  replace (length sts + 1 - 1) with (length sts) by lia.
  rewrite take_app_length. by rewrite <- Permutation_cons_append.
Qed.

Lemma members_perm sts1 sts2 : sts1 ≡ₚ sts2 -> members sts1 ≡ₚ members sts2.
Proof.
  induction 1 as [|a k1 k2 _ IH|a b k|k1 k2 k3 _ IH1 _ IH2].
  - done.
  - by rewrite !members_cons, IH.
  - rewrite !members_cons. by rewrite Permutation_app_swap_app.
  - by rewrite IH1.
Qed.

Lemma add_stacks l :
  stacks (StackLayout.add l).1 =
    stacks l ++ [ {| clients := []; current_index := 0; split := autosplit l |} ].
Proof.
  unfold StackLayout.add. simpl. by destruct (autosplit l).
Qed.

End method_facts.

(** ** Invariants of the reachable states *)

Section invariants.
Implicit Types (l : Stack) (w : option client) (c : client).

Lemma add_client_length w c l l' :
  StackLayout.add_client w c l = Ok l' -> length (stacks l') = length (stacks l).
Proof.
  intros H. apply add_client_stacks in H as [k ->]. apply length_alter.
Qed.

Lemma remove_length w c l l' r :
  StackLayout.remove w c l = Ok (l', r) -> length (stacks l') = length (stacks l).
Proof.
  intros H. apply remove_stacks in H as ->.
  destruct (list_find _ _) as [[k s]|]; [apply length_alter | done].
Qed.

Lemma delete_current_stack_length w l l' ev :
  StackLayout.delete_current_stack w l = Ok (l', ev) ->
  length (stacks l') = if decide (1 < length (stacks l))
                       then length (stacks l) - 1 else length (stacks l).
Proof.
  intros H. apply delete_current_stack_stacks in H
    as [(Hlen & -> & _) | (Hlen & s & t & Hs & Ht & -> & _)].
  - by rewrite decide_False by lia.
  - rewrite decide_True by done. rewrite length_insert, length_delete; [done|].
    by eexists.
Qed.

Lemma client_to_stack_length w n l l' ev :
  StackLayout.client_to_stack w n l = Ok (l', ev) ->
  length (stacks l') = length (stacks l).
Proof.
  intros H. apply client_to_stack_stacks in H
    as [(-> & _) | (cs & win & t & _ & _ & _ & _ & -> & _)]; [done|].
  by rewrite length_insert, length_alter.
Qed.

Lemma rotate_length l : length (stacks (StackLayout.rotate l).1) = length (stacks l).
Proof. by rewrite rotate_stacks. Qed.

(** There is always a stack. *)
Lemma reachable_stacks l : reachable l -> 1 <= length (stacks l).
Proof.
  induction 1 as [cfg l H | w c l l' _ IH _ H | w c l l' r _ IH H
                 | w l l' ev _ IH H | w n l l' ev _ IH H | l _ IH | l _ IH].
  - apply init_Ok in H as [Hpos ->]. rewrite length_fmap, length_seq. lia.
  - by rewrite (add_client_length _ _ _ _ H).
  - by rewrite (remove_length _ _ _ _ _ H).
  - rewrite (delete_current_stack_length _ _ _ _ H). case_decide; lia.
  - by rewrite (client_to_stack_length _ _ _ _ _ H).
  - by rewrite rotate_length.
  - rewrite add_stacks, length_app. simpl. lia.
Qed.

Lemma add_client_NoDup w c l l' :
  StackLayout.add_client w c l = Ok l' ->
  c ∉ members (stacks l) -> NoDup (members (stacks l)) ->
  NoDup (members (stacks l')).
Proof.
  intros H Hc Hnd. apply add_client_stacks in H as [k ->].
  by apply NoDup_members_alter_add.
Qed.

Lemma remove_NoDup w c l l' r :
  StackLayout.remove w c l = Ok (l', r) ->
  NoDup (members (stacks l)) -> NoDup (members (stacks l')).
Proof.
  intros H Hnd. apply remove_stacks in H as ->.
  destruct (list_find _ _) as [[k s]|]; [|done].
  eapply sublist_NoDup; [exact Hnd|].
  apply members_alter_sublist. intros t. apply clients_remove_sublist.
Qed.

(** Deleting a stack loses no client and makes no copy of one. *)
Lemma delete_current_stack_perm w l l' ev :
  StackLayout.delete_current_stack w l = Ok (l', ev) ->
  members (stacks l') ≡ₚ members (stacks l).
Proof.
  intros H. apply delete_current_stack_stacks in H
    as [(Hlen & -> & _) | (Hlen & s & t & Hs & Ht & -> & _)]; [done|].
  rewrite (members_insert_perm _ _ _ _ Ht), clients_join_perm.
  rewrite <- app_assoc, <- (members_delete_perm _ _ _ Ht).
  by rewrite <- (members_delete_perm _ _ _ Hs).
Qed.

(** Moving a client to another stack loses no client and makes no copy
    of one. *)
Lemma client_to_stack_perm w n l l' ev :
  StackLayout.client_to_stack w n l = Ok (l', ev) ->
  members (stacks l') ≡ₚ members (stacks l).
Proof.
  intros H. apply client_to_stack_stacks in H
    as [(-> & _) | (cs & win & t & Hcs & _ & Hcw & Ht & -> & _)]; [done|].
  rewrite (members_insert_perm _ _ _ _ Ht).
  rewrite clients_focus, clients_add_client_perm. simpl.
  rewrite <- (members_delete_perm _ _ _ Ht).
  rewrite (alter_insert _ _ _ _ Hcs), (members_insert_perm _ _ _ _ Hcs).
  rewrite (members_delete_perm _ _ _ Hcs).
  rewrite (clients_remove_perm win cs (cw_elem _ _ Hcw)) at 1.
  done.
Qed.

Lemma reachable_NoDup l : reachable l -> NoDup (members (stacks l)).
Proof.
  induction 1 as [cfg l H | w c l l' _ IH Hc H | w c l l' r _ IH H
                 | w l l' ev _ IH H | w n l l' ev _ IH H | l _ IH | l _ IH].
  - apply init_Ok in H as [_ ->]. rewrite members_new_stacks. constructor.
  - rewrite clients_members in Hc. eauto using add_client_NoDup.
  - eauto using remove_NoDup.
  - by rewrite (delete_current_stack_perm _ _ _ _ H).
  - by rewrite (client_to_stack_perm _ _ _ _ _ H).
  - by rewrite (members_perm _ _ (rotate_stacks l)).
  - rewrite add_stacks, members_app. simpl. by rewrite app_nil_r.
Qed.

(** On a layout with a stack no method raises. *)
Lemma add_client_total w c l :
  stacks l <> [] -> exists l', StackLayout.add_client w c l = Ok l'.
Proof.
  intros Hne. unfold StackLayout.add_client.
  destruct (list_find _ (stacks l)) as [[k s]|]; [eauto|].
  destruct (fair l).
  - unfold min_index. destruct (stacks l); [done | eauto].
  - destruct (current_stack_Ok w l Hne) as (s & -> & _). simpl. eauto.
Qed.

Lemma remove_total w c l :
  stacks l <> [] -> exists l' r, StackLayout.remove w c l = Ok (l', r).
Proof.
  intros Hne. unfold StackLayout.remove.
  set (sts := match list_find (ClientList.contains c) (stacks l) with
              | Some (k, _) => _ | None => _ end).
  assert (length sts = length (stacks l)) as Hlen.
  { unfold sts. destruct (list_find _ _) as [[k s]|]; [apply length_alter | done]. }
  pose proof (current_stack_offset_lt w l Hne) as Hlt. rewrite <- Hlen in Hlt.
  destruct (lookup_lt_is_Some_2 _ _ Hlt) as [s ->].
  destruct (cw s); [eauto|].
  destruct (StackLayout._find_next _ _) as [n|]; [|eauto].
  destruct (ClientList.truthy n); eauto.
Qed.

Lemma delete_current_stack_total w l :
  exists l' ev, StackLayout.delete_current_stack w l = Ok (l', ev).
Proof.
  unfold StackLayout.delete_current_stack.
  destruct (decide (1 < length (stacks l))) as [Hlen|Hlen]; [|eauto].
  assert (stacks l <> []) as Hne by (intros E; rewrite E in Hlen; simpl in Hlen; lia).
  pose proof (current_stack_offset_lt w l Hne) as Hlt.
  destruct (lookup_lt_is_Some_2 _ _ Hlt) as [s ->].
  destruct (lookup_lt_is_Some_2 (delete (StackLayout.current_stack_offset w l) (stacks l))
              (StackLayout.current_stack_offset w l
                 `min` (length (delete (StackLayout.current_stack_offset w l) (stacks l)) - 1)))
    as [t ->]; [|eauto].
  rewrite length_delete by (by apply lookup_lt_is_Some_2). lia.
Qed.

Lemma client_to_stack_total w n l :
  stacks l <> [] -> exists l' ev, StackLayout.client_to_stack w n l = Ok (l', ev).
Proof.
  intros Hne. unfold StackLayout.client_to_stack.
  destruct (current_stack_Ok w l Hne) as (cs & -> & Hcs). simpl.
  destruct (ClientList.truthy cs); simpl; [|eauto].
  destruct (cw cs) as [win|]; [|eauto].
  destruct (lookup_lt_is_Some_2
              (alter (ClientList.remove win) (StackLayout.current_stack_offset w l) (stacks l))
              (Z.to_nat (n `mod` Z.of_nat (length (stacks l))))) as [t ->]; [|eauto].
  rewrite length_alter.
  assert (0 < length (stacks l)) by (destruct (stacks l); simpl; [done | lia]).
  pose proof (Z.mod_pos_bound n (Z.of_nat (length (stacks l)))). lia.
Qed.

(** In a reachable state every method returns. *)
Lemma reachable_progress l :
  reachable l ->
  (forall w c, exists l', StackLayout.add_client w c l = Ok l') /\
  (forall w c, exists l' r, StackLayout.remove w c l = Ok (l', r)) /\
  (forall w, exists l' ev, StackLayout.delete_current_stack w l = Ok (l', ev)) /\
  (forall w n, exists l' ev, StackLayout.client_to_stack w n l = Ok (l', ev)).
Proof.
  intros Hr. pose proof (reachable_stacks l Hr) as Hlen.
  assert (stacks l <> []) as Hne by (intros E; rewrite E in Hlen; simpl in Hlen; lia).
  split_and!; intros.
  - by apply add_client_total.
  - by apply remove_total.
  - apply delete_current_stack_total.
  - by apply client_to_stack_total.
Qed.

End invariants.

(** ** Sample runs *)

Example init_two :
  StackLayout.__init__ (sample_config 2 false)
  = Ok (sample_layout 2 false [stack_of [] 0; stack_of [] 0]).
Proof. reflexivity. Qed.

Example init_zero :
  StackLayout.__init__ (sample_config 0 false)
  = Raise (ValueError "num_stacks must be at least 1").
Proof. reflexivity. Qed.

(** Two stacks, fair, after adding clients 1, 2 and 3. *)
Lemma reachable_sample_fair3 :
  reachable (sample_layout 2 true [stack_of [1; 3] 1; stack_of [2] 0]).
Proof.
  eapply (reach_add_client None 3
            (sample_layout 2 true [stack_of [1] 0; stack_of [2] 0])).
  - eapply (reach_add_client None 2
              (sample_layout 2 true [stack_of [1] 0; stack_of [] 0])).
    + eapply (reach_add_client None 1
                (sample_layout 2 true [stack_of [] 0; stack_of [] 0])).
      * by apply (reach_init (sample_config 2 true)).
      * by apply (bool_decide_unpack _).
      * reflexivity.
    + by apply (bool_decide_unpack _).
    + reflexivity.
  - by apply (bool_decide_unpack _).
  - reflexivity.
Defined.

(** ** C1: every client is in exactly one stack *)

(** C1. In every reachable state of the layout (built by [__init__], then
    any sequence of [add_client] of a client not yet present, [remove],
    [delete_current_stack], [client_to_stack], [rotate] and [add]) the
    aggregate client list [Stack.clients] is the concatenation of the
    stacks' member lists, it has no duplicate, no client is in two stacks
    and no client is twice in one stack. *)
Theorem reachable_clients_partition (l : Stack) :
  reachable l ->
  StackLayout.clients l = concat (clients <$> stacks l) /\
  NoDup (StackLayout.clients l) /\
  (forall i j s t c,
      stacks l !! i = Some s -> stacks l !! j = Some t ->
      c ∈ clients s -> c ∈ clients t -> i = j) /\
  Forall (fun s => NoDup (clients s)) (stacks l).
Proof.
  intros Hr. pose proof (reachable_NoDup l Hr) as Hnd.
  split; [apply clients_members|].
  split; [by rewrite clients_members|].
  split; [intros i j s t c; by apply NoDup_members_unique|].
  by apply NoDup_members_each.
Qed.

Lemma reachable_clients_partition_witness :
  StackLayout.clients (sample_layout 2 true [stack_of [1; 3] 1; stack_of [2] 0]) = [1; 3; 2] /\
  NoDup (StackLayout.clients (sample_layout 2 true [stack_of [1; 3] 1; stack_of [2] 0])).
Proof.
  destruct (reachable_clients_partition _ reachable_sample_fair3) as (H1 & H2 & _).
  split; [exact H1 | exact H2].
Defined.

(** ** C2: there is always a stack *)

(** C2. [__init__] with [num_stacks <= 0] raises the configuration error;
    with [num_stacks >= 1] it returns a layout of exactly [num_stacks]
    stacks, all empty; [delete_current_stack] on a layout of one stack
    changes nothing and asks nothing of the group; and every reachable
    state has at least one stack. *)
Theorem stacks_never_empty :
  (forall cfg, (StackLayout.cfg_num_stacks cfg <= 0)%Z ->
     StackLayout.__init__ cfg = Raise (ValueError "num_stacks must be at least 1")) /\
  (forall cfg, (1 <= StackLayout.cfg_num_stacks cfg)%Z ->
     exists l, StackLayout.__init__ cfg = Ok l /\
               Z.of_nat (length (stacks l)) = StackLayout.cfg_num_stacks cfg /\
               Forall (fun s => clients s = []) (stacks l)) /\
  (forall w l, length (stacks l) = 1 ->
     StackLayout.delete_current_stack w l = Ok (l, [])) /\
  (forall l, reachable l -> 1 <= length (stacks l)).
Proof.
  split; [|split; [|split]].
  - intros cfg H. unfold StackLayout.__init__.
    by destruct (Z.leb_spec (StackLayout.cfg_num_stacks cfg) 0); [|lia].
  - intros cfg H. unfold StackLayout.__init__.
    destruct (Z.leb_spec (StackLayout.cfg_num_stacks cfg) 0); [lia|].
    eexists. split; [reflexivity|]. simpl. split.
    + rewrite length_fmap, length_seq. lia.
    + apply Forall_fmap, Forall_forall. by intros.
  - intros w l H. unfold StackLayout.delete_current_stack.
    by rewrite decide_False by lia.
  - apply reachable_stacks.
Qed.

Lemma stacks_never_empty_witness :
  StackLayout.__init__ (sample_config (-1) false)
    = Raise (ValueError "num_stacks must be at least 1") /\
  (exists l, StackLayout.__init__ (sample_config 3 false) = Ok l /\
             Z.of_nat (length (stacks l)) = 3%Z /\
             Forall (fun s => clients s = []) (stacks l)) /\
  StackLayout.delete_current_stack (Some 1) (sample_layout 1 false [stack_of [1; 2] 0])
    = Ok (sample_layout 1 false [stack_of [1; 2] 0], []) /\
  1 <= length (stacks (sample_layout 2 true [stack_of [1; 3] 1; stack_of [2] 0])).
Proof.
  destruct stacks_never_empty as (H1 & H2 & H3 & H4).
  split; [apply H1; simpl; lia|].
  split; [apply (H2 (sample_config 3 false)); simpl; lia|].
  split; [apply H3; reflexivity|].
  apply H4, reachable_sample_fair3.
Defined.

(** ** Python's [min] with a key *)

Section min_facts.
Context {A : Type} (key : A -> nat).

Lemma min_scan_spec lst i best kbest :
  (min_scan key lst i best kbest = best /\ Forall (fun a => kbest <= key a) lst) \/
  (exists j a, min_scan key lst i best kbest = i + j /\ lst !! j = Some a /\
     key a < kbest /\
     Forall (fun b => key a <= key b) lst /\
     forall j' b, j' < j -> lst !! j' = Some b -> key a < key b).
Proof.
  revert i best kbest. induction lst as [|a rest IH]; intros i best kbest; simpl.
  { left. split; [done | constructor]. }
  assert (forall j b, key b <= key a ->
            (forall j' c, j' < j -> rest !! j' = Some c -> key b < key c) ->
            key b < key a ->
            forall j' c, j' < S j -> (a :: rest) !! j' = Some c -> key b < key c) as Hstep.
  { intros j b Hle Hfst Hba [|j'] c Hj' Hc; simplify_eq/=; [done|].
    eapply Hfst; [|done]. lia. }
  case_decide as Hlt.
  - destruct (IH (S i) i (key a)) as [[Hr Hall] | (j & b & Hr & Hj & Hb & Hall & Hfst)].
    + right. exists 0, a. rewrite Hr.
      split_and!; try first [done | lia | by constructor | by (intros; lia)].
    + right. exists (S j), b. rewrite Hr.
      split_and!; try first [done | lia | by (constructor; [lia | done])].
      apply Hstep; [lia | done | lia].
  - destruct (IH (S i) best kbest) as [[Hr Hall] | (j & b & Hr & Hj & Hb & Hall & Hfst)].
    + left. split; [done|]. constructor; [lia | done].
    + right. exists (S j), b. rewrite Hr.
      split_and!; try first [done | lia | by (constructor; [lia | done])].
      apply Hstep; [lia | done | lia].
Qed.

(** [min] returns the first item with the smallest key. *)
Lemma min_index_spec lst k :
  min_index key lst = Some k -> first_smallest key lst k.
Proof.
  destruct lst as [|a rest]; [discriminate|]. simpl. intros [= <-].
  destruct (min_scan_spec rest 1 0 (key a))
    as [[-> Hall] | (j & b & -> & Hj & Hb & Hall & Hfst)].
  - exists a. split_and!; [done | | intros; lia].
    intros [|j] b Hb; simplify_eq/=; [done|].
    eapply Forall_forall in Hall; [exact Hall|]. by eapply list_elem_of_lookup_2.
  - exists b. split_and!; [done | |].
    + intros [|j'] c Hc; simplify_eq/=; [lia|].
      eapply Forall_forall in Hall; [exact Hall|]. by eapply list_elem_of_lookup_2.
    + intros [|j'] c Hlt Hc; simplify_eq/=; [lia|]. eapply Hfst; [|done]. lia.
Qed.

Lemma first_smallest_unique lst k k' :
  first_smallest key lst k -> first_smallest key lst k' -> k = k'.
Proof.
  intros (a & Ha & Hmin & Hfst) (a' & Ha' & Hmin' & Hfst').
  destruct (Nat.lt_trichotomy k k') as [Hlt | [-> | Hlt]]; [|done|].
  - pose proof (Hfst' _ _ Hlt Ha). pose proof (Hmin _ _ Ha'). lia.
  - pose proof (Hfst _ _ Hlt Ha'). pose proof (Hmin' _ _ Ha). lia.
Qed.

Lemma min_index_first_smallest lst k :
  first_smallest key lst k -> min_index key lst = Some k.
Proof.
  intros Hk. destruct (min_index key lst) as [k'|] eqn:E.
  - f_equal. eapply first_smallest_unique; [by apply min_index_spec | done].
  - destruct lst; [|discriminate]. by destruct Hk as (a & Ha & _).
Qed.

End min_facts.

(** ** Adding clients *)

Section add_client_facts.
Implicit Types (s t : _WinStack) (c : client) (l : Stack) (w : option client).

Lemma truthy_add_client c s : ClientList.truthy (ClientList.add_client c s) = true.
Proof.
  apply truthy_true. intros E.
  pose proof (clients_add_client_perm c s) as Hp. rewrite E in Hp.
  by apply Permutation_nil_cons in Hp.
Qed.

Lemma clients_add_client_nil c s :
  clients s = [] -> clients (ClientList.add_client c s) = [c].
Proof. intros E. by rewrite clients_add_client, E. Qed.

Lemma clients_add_client_single a c s :
  clients s = [a] -> clients (ClientList.add_client c s) = [a; c].
Proof.
  intros E. rewrite clients_add_client, E. simpl.
  by rewrite take_nil, drop_nil.
Qed.

Lemma index_of_last c cs : c ∉ cs -> index_of c (cs ++ [c]) = Some (length cs).
Proof.
  intros Hc. unfold index_of.
  rewrite list_find_app_r by (by apply index_of_None in Hc; apply fmap_None in Hc).
  simpl. by rewrite decide_True by done.
Qed.

(** When the current client of a stack is its last member, a new client
    goes to the end and is the last member and current in turn. *)
Lemma add_client_append c s :
  c ∉ clients s ->
  clients s = [] \/ ClientList.position s = length (clients s) - 1 ->
  clients (ClientList.add_client c s) = clients s ++ [c] /\
  ClientList.position (ClientList.add_client c s)
    = length (clients (ClientList.add_client c s)) - 1.
Proof.
  intros Hc Hpos.
  assert (clients (ClientList.add_client c s) = clients s ++ [c]) as Hcl.
  { rewrite clients_add_client. destruct (clients s) as [|a cs] eqn:E; [done|].
    destruct Hpos as [|Hpos]; [done|]. rewrite Hpos. simpl length.
    replace (S (S (length cs) - 1)) with (length (a :: cs)) by (simpl; lia).
    by rewrite take_ge, drop_ge by done. }
  split; [done|]. rewrite Hcl, length_app. simpl.
  unfold ClientList.position, ClientList.add_client, ClientList.focus.
  cbn [clients]. 
  replace (take _ (clients s) ++ c :: drop _ (clients s)) with (clients s ++ [c]).
  2:{ rewrite <- Hcl, clients_add_client. by destruct (clients s). }
  rewrite (index_of_last _ _ Hc). cbn [clients current_index].
  rewrite length_app. simpl. rewrite Nat.mod_small; lia.
Qed.

(** [add_client] on a layout of two stacks. *)
Lemma add_client_two w c l s0 s1 :
  stacks l = [s0; s1] ->
  StackLayout.add_client w c l = Ok (set_stacks l
    (if ClientList.truthy s0 then
       if ClientList.truthy s1 then
         if fair l then
           if decide (ClientList.len s1 < ClientList.len s0)
           then [s0; ClientList.add_client c s1]
           else [ClientList.add_client c s0; s1]
         else
           match StackLayout.current_stack_offset w l with
           | 0 => [ClientList.add_client c s0; s1]
           | _ => [s0; ClientList.add_client c s1]
           end
       else [s0; ClientList.add_client c s1]
     else [ClientList.add_client c s0; s1])).
Proof.
  intros Hst. unfold StackLayout.add_client. rewrite Hst.
  destruct (ClientList.truthy s0) eqn:H0; simpl; rewrite H0; simpl; [|done].
  destruct (ClientList.truthy s1) eqn:H1; simpl; rewrite ?H1; simpl; [|done].
  destruct (fair l); simpl.
  - by case_decide.
  - assert (stacks l <> []) as Hne by (by rewrite Hst).
    destruct (current_stack_Ok w l Hne) as (cs & -> & _). simpl.
    pose proof (current_stack_offset_lt w l Hne) as Hlt. rewrite Hst in Hlt. simpl in Hlt.
    destruct (StackLayout.current_stack_offset w l) as [|[|k]]; simpl; [done | done | lia].
Qed.

Lemma set_stacks_id l : set_stacks l (stacks l) = l.
Proof. by destruct l. Qed.

Lemma add_client_pair w c l s0 s1 :
  StackLayout.add_client w c (set_stacks l [s0; s1]) = Ok (set_stacks l
    (if ClientList.truthy s0 then
       if ClientList.truthy s1 then
         if fair l then
           if decide (ClientList.len s1 < ClientList.len s0)
           then [s0; ClientList.add_client c s1]
           else [ClientList.add_client c s0; s1]
         else
           match StackLayout.current_stack_offset w (set_stacks l [s0; s1]) with
           | 0 => [ClientList.add_client c s0; s1]
           | _ => [s0; ClientList.add_client c s1]
           end
       else [s0; ClientList.add_client c s1]
     else [ClientList.add_client c s0; s1])).
Proof. by rewrite (add_client_two w c (set_stacks l [s0; s1]) s0 s1 eq_refl). Qed.

Lemma add_clients_app calls1 calls2 l :
  add_clients (calls1 ++ calls2) l = add_clients calls1 l ≫= add_clients calls2.
Proof.
  revert l. induction calls1 as [|[w c] calls1 IH]; intros l; simpl; [done|].
  destruct (StackLayout.add_client w c l) as [l'|]; simpl; [apply IH | done].
Qed.

Lemma init_two_stacks cfg l :
  StackLayout.cfg_num_stacks cfg = 2%Z ->
  StackLayout.__init__ cfg = Ok l ->
  fair l = StackLayout.cfg_fair cfg /\
  stacks l = [new_WinStack (StackLayout.cfg_autosplit cfg);
              new_WinStack (StackLayout.cfg_autosplit cfg)].
Proof.
  intros Hn. unfold StackLayout.__init__. rewrite Hn. simpl.
  by intros [= <-].
Qed.

End add_client_facts.

Lemma appended_new b : appended (new_WinStack b) [].
Proof. split; [done | by left]. Qed.

Lemma appended_add_client c s cs :
  appended s cs -> c ∉ cs -> appended (ClientList.add_client c s) (cs ++ [c]).
Proof.
  intros [<- Hpos] Hc.
  destruct (add_client_append c s Hc Hpos) as [Hcl Hp].
  split; [done|]. right. by rewrite <- Hcl.
Qed.

Lemma appended_truthy s c cs : appended s (c :: cs) -> ClientList.truthy s = true.
Proof. intros [E _]. apply truthy_true. by rewrite E. Qed.

(** ** C3: where [add_client] puts a new client *)

(** C3. [add_client] puts the client into the first empty stack when there
    is one; otherwise, when [fair] is set, into the first of the stacks
    with the fewest members; otherwise into the current stack.  With two
    stacks and [fair] set, adding A, B, C and D in this order gives stack 0
    the members [A, C] and stack 1 the members [B, D]. *)
Theorem add_client_policy :
  (forall w c l k s,
      stacks l !! k = Some s -> clients s = [] ->
      (forall j t, j < k -> stacks l !! j = Some t -> clients t <> []) ->
      StackLayout.add_client w c l
      = Ok (set_stacks l (<[k := ClientList.add_client c s]> (stacks l)))) /\
  (forall w c l k s,
      Forall (fun t => clients t <> []) (stacks l) -> fair l = true ->
      stacks l !! k = Some s ->
      (forall j t, stacks l !! j = Some t -> length (clients s) <= length (clients t)) ->
      (forall j t, j < k -> stacks l !! j = Some t -> length (clients s) < length (clients t)) ->
      StackLayout.add_client w c l
      = Ok (set_stacks l (<[k := ClientList.add_client c s]> (stacks l)))) /\
  (forall w c l s,
      Forall (fun t => clients t <> []) (stacks l) -> fair l = false ->
      StackLayout.current_stack w l = Ok s ->
      StackLayout.add_client w c l
      = Ok (set_stacks l (<[StackLayout.current_stack_offset w l := ClientList.add_client c s]>
                            (stacks l)))) /\
  (forall cfg l0 (A B C D : client) w1 w2 w3 w4,
      StackLayout.cfg_num_stacks cfg = 2%Z -> StackLayout.cfg_fair cfg = true ->
      StackLayout.__init__ cfg = Ok l0 ->
      exists l4,
        add_clients [(w1, A); (w2, B); (w3, C); (w4, D)] l0 = Ok l4 /\
        clients <$> stacks l4 = [[A; C]; [B; D]]).
Proof.
  assert (forall l, Forall (fun t => clients t <> []) (stacks l) ->
            list_find (fun i => ClientList.truthy i = false) (stacks l) = None) as Hfull.
  { intros l Hall. apply list_find_None. eapply Forall_impl; [exact Hall|].
    intros t Ht Hf. by apply truthy_false in Hf. }
  split_and!.
  - intros w c l k s Hk Hs Hfst. unfold StackLayout.add_client.
    rewrite (proj2 (list_find_Some (fun i => ClientList.truthy i = false) (stacks l) k s)).
    + by rewrite (alter_insert _ _ _ _ Hk).
    + split_and!; [done | by apply truthy_false |].
      intros j t Hj Hlt Hf. apply truthy_false in Hf. by eapply Hfst.
  - intros w c l k s Hall Hfair Hk Hmin Hfst. unfold StackLayout.add_client.
    rewrite (Hfull l Hall), Hfair.
    rewrite (min_index_first_smallest ClientList.len (stacks l) k).
    + by rewrite (alter_insert _ _ _ _ Hk).
    + exists s. split_and!; [done | exact Hmin | exact Hfst].
  - intros w c l s Hall Hfair Hcs. unfold StackLayout.add_client.
    rewrite (Hfull l Hall), Hfair, Hcs. simpl.
    unfold StackLayout.current_stack in Hcs.
    destruct (stacks l !! _) as [s'|] eqn:Hs; [|discriminate].
    injection Hcs as ->. by rewrite (alter_insert _ _ _ _ Hs).
  - intros cfg l0 A B C D w1 w2 w3 w4 Hn Hfair Hinit.
    destruct (init_two_stacks cfg l0 Hn Hinit) as [Hf Hst]. rewrite Hfair in Hf.
    set (e := new_WinStack (StackLayout.cfg_autosplit cfg)) in *.
    assert (clients (ClientList.add_client A e) = [A]) as HA
      by by apply clients_add_client_nil.
    assert (clients (ClientList.add_client B e) = [B]) as HB
      by by apply clients_add_client_nil.
    rewrite <- (set_stacks_id l0), Hst. unfold add_clients.
    rewrite add_client_pair. simpl.
    rewrite add_client_pair, truthy_add_client. simpl.
    rewrite add_client_pair, !truthy_add_client, Hf.
    unfold ClientList.len. rewrite HA, HB. simpl.
    rewrite add_client_pair, !truthy_add_client, Hf.
    unfold ClientList.len. rewrite (clients_add_client_single A C _ HA), HB. simpl.
    eexists. split; [reflexivity|]. simpl.
    by rewrite (clients_add_client_single A C _ HA), (clients_add_client_single B D _ HB).
Qed.

Lemma add_client_policy_witness :
  StackLayout.add_client (Some 1) 3 (sample_layout 3 false [stack_of [1] 0; stack_of [] 0; stack_of [] 0])
  = Ok (sample_layout 3 false [stack_of [1] 0; stack_of [3] 0; stack_of [] 0]) /\
  StackLayout.add_client (Some 1) 4 (sample_layout 3 true [stack_of [1; 5] 1; stack_of [2] 0; stack_of [3] 0])
  = Ok (sample_layout 3 true [stack_of [1; 5] 1; stack_of [2; 4] 1; stack_of [3] 0]) /\
  StackLayout.add_client (Some 3) 4 (sample_layout 3 false [stack_of [1; 5] 1; stack_of [2] 0; stack_of [3] 0])
  = Ok (sample_layout 3 false [stack_of [1; 5] 1; stack_of [2] 0; stack_of [3; 4] 1]) /\
  exists l4,
    add_clients [(None, 1); (Some 1, 2); (Some 2, 3); (Some 3, 4)]
      (sample_layout 2 true [stack_of [] 0; stack_of [] 0]) = Ok l4 /\
    clients <$> stacks l4 = [[1; 3]; [2; 4]].
Proof.
  destruct add_client_policy as (H1 & H2 & H3 & H4).
  split_and!.
  - rewrite (H1 (Some 1) 3 _ 1 (stack_of [] 0)); [reflexivity | reflexivity | reflexivity |].
    intros [|j] t Hj Ht; [by injection Ht as <- | lia].
  - rewrite (H2 (Some 1) 4 _ 1 (stack_of [2] 0)).
    + reflexivity.
    + repeat constructor; discriminate.
    + reflexivity.
    + reflexivity.
    + intros [|[|[|j]]] t Ht; simplify_eq/=; lia.
    + intros [|j] t Hj Ht; simplify_eq/=; lia.
  - rewrite (H3 (Some 3) 4 _ (stack_of [3] 0)).
    + reflexivity.
    + repeat constructor; discriminate.
    + reflexivity.
    + reflexivity.
  - apply (H4 (sample_config 2 true)); reflexivity.
Defined.

(** ** C4: four clients on two stacks, [fair] not set *)

(** The four clients do not all land in stack 0.  With no current window
    at any of the calls, and also when each new client is the current
    window at the next call, client 2 goes to stack 1, which was empty:
    the stacks do not end as [[1, 2, 3, 4], []]. *)
Lemma add_four_counterexample :
  (exists l4,
     StackLayout.__init__ (sample_config 2 false)
       ≫= add_clients [(None, 1); (None, 2); (None, 3); (None, 4)] = Ok l4 /\
     clients <$> stacks l4 = [[1; 3; 4]; [2]] /\
     clients <$> stacks l4 <> [[1; 2; 3; 4]; []]) /\
  (exists l4,
     StackLayout.__init__ (sample_config 2 false)
       ≫= add_clients [(None, 1); (Some 1, 2); (Some 2, 3); (Some 3, 4)] = Ok l4 /\
     clients <$> stacks l4 = [[1]; [2; 3; 4]] /\
     clients <$> stacks l4 <> [[1; 2; 3; 4]; []]).
Proof.
  split; eexists; (split; [reflexivity|]); split; [reflexivity | discriminate | reflexivity | discriminate].
Qed.

(** C4, amended. With two stacks and [fair] not set, [add_client] for
    distinct clients A, B, C and D in this order puts A into stack 0 and B
    into stack 1, which is still empty; C and D each go to the end of the
    stack that is current at their call.  The stacks end as
    [[A, C, D], [B]] when stack 0 is current at both calls, as it is when
    the group has no current window. *)
Theorem add_four_unfair cfg l0 (A B C D : client) w1 w2 w3 w4 :
  StackLayout.cfg_num_stacks cfg = 2%Z -> StackLayout.cfg_fair cfg = false ->
  NoDup [A; B; C; D] ->
  StackLayout.__init__ cfg = Ok l0 ->
  exists l2 l3 l4,
    add_clients [(w1, A); (w2, B)] l0 = Ok l2 /\
    clients <$> stacks l2 = [[A]; [B]] /\
    StackLayout.add_client w3 C l2 = Ok l3 /\
    StackLayout.add_client w4 D l3 = Ok l4 /\
    add_clients [(w1, A); (w2, B); (w3, C); (w4, D)] l0 = Ok l4 /\
    clients <$> stacks l4 =
      match StackLayout.current_stack_offset w3 l2, StackLayout.current_stack_offset w4 l3 with
      | 0, 0 => [[A; C; D]; [B]]
      | 0, S _ => [[A; C]; [B; D]]
      | S _, 0 => [[A; D]; [B; C]]
      | S _, S _ => [[A]; [B; C; D]]
      end /\
    (w3 = None -> w4 = None -> clients <$> stacks l4 = [[A; C; D]; [B]]).
Proof.
  intros Hn Hfair Hnd Hinit.
  destruct (init_two_stacks cfg l0 Hn Hinit) as [Hf Hst]. rewrite Hfair in Hf.
  set (e := new_WinStack (StackLayout.cfg_autosplit cfg)) in *.
  apply NoDup_cons in Hnd as [HA Hnd]. apply NoDup_cons in Hnd as [HB Hnd].
  apply NoDup_cons in Hnd as [HC _].
  apply not_elem_of_cons in HA as [HAB HA]. apply not_elem_of_cons in HA as [HAC HA].
  apply not_elem_of_cons in HA as [HAD _].
  apply not_elem_of_cons in HB as [HBC HB]. apply not_elem_of_cons in HB as [HBD _].
  apply not_elem_of_cons in HC as [HCD _].
  pose proof (appended_add_client A e [] (appended_new _) (not_elem_of_nil _)) as HsA.
  pose proof (appended_add_client B e [] (appended_new _) (not_elem_of_nil _)) as HsB.
  simpl in HsA, HsB.
  set (sA := ClientList.add_client A e) in *. set (sB := ClientList.add_client B e) in *.
  assert (forall s c cs, appended s (c :: cs) -> ClientList.truthy s = true) as Htr
    by (intros; by eapply appended_truthy).
  assert (add_clients [(w1, A); (w2, B)] l0 = Ok (set_stacks l0 [sA; sB])) as H2.
  { rewrite <- (set_stacks_id l0) at 1. rewrite Hst. unfold add_clients.
    rewrite add_client_pair. simpl.
    rewrite add_client_pair. fold sA. by rewrite (Htr _ _ _ HsA). }
  assert (forall s0 s1 c0 cs0 c1 cs1 w c,
            appended s0 (c0 :: cs0) -> appended s1 (c1 :: cs1) ->
            StackLayout.add_client w c (set_stacks l0 [s0; s1])
            = Ok (set_stacks l0
                    match StackLayout.current_stack_offset w (set_stacks l0 [s0; s1]) with
                    | 0 => [ClientList.add_client c s0; s1]
                    | S _ => [s0; ClientList.add_client c s1]
                    end)) as Hstep.
  { intros s0 s1 c0 cs0 c1 cs1 w c H0 H1.
    by rewrite add_client_pair, (Htr _ _ _ H0), (Htr _ _ _ H1), Hf. }
  set (l2 := set_stacks l0 [sA; sB]) in *.
  pose proof (Hstep _ _ _ _ _ _ w3 C HsA HsB) as H3. fold l2 in H3.
  assert (forall s0 s1 cs0 cs1, appended s0 cs0 -> appended s1 cs1 ->
            clients <$> [s0; s1] = [cs0; cs1]) as Hcl.
  { intros s0 s1 cs0 cs1 [<- _] [<- _]. done. }
  assert (forall w l, w = None -> StackLayout.current_stack_offset w l = 0) as Hnone
    by (by intros w l ->).
  assert (add_clients [(w1, A); (w2, B); (w3, C); (w4, D)] l0
          = (l3 ← StackLayout.add_client w3 C l2; add_clients [(w4, D)] l3))
    as Hall.
  { change [(w1, A); (w2, B); (w3, C); (w4, D)]
      with ([(w1, A); (w2, B)] ++ [(w3, C); (w4, D)]).
    by rewrite add_clients_app, H2. }
  rewrite H3 in Hall. simpl in Hall.
  destruct (StackLayout.current_stack_offset w3 l2) as [|k3] eqn:E3.
  - pose proof (appended_add_client C sA [A] HsA ltac:(solve_not_elem)) as HsAC.
    simpl in HsAC. set (sAC := ClientList.add_client C sA) in *.
    set (l3 := set_stacks l0 [sAC; sB]) in *.
    pose proof (Hstep _ _ _ _ _ _ w4 D HsAC HsB) as H4. fold l3 in H4.
    rewrite H4 in Hall. simpl in Hall.
    pose proof (appended_add_client D sAC [A; C] HsAC ltac:(solve_not_elem)) as HsACD.
    pose proof (appended_add_client D sB [B] HsB ltac:(solve_not_elem)) as HsBD.
    exists l2, l3. eexists.
    split_and!; [exact H2 | by apply Hcl | exact H3 | exact H4 | exact Hall | |].
    + rewrite E3. destruct (StackLayout.current_stack_offset w4 l3); simpl; by apply Hcl.
    + intros _ E4. rewrite (Hnone _ l3 E4). simpl. by apply Hcl.
  - pose proof (appended_add_client C sB [B] HsB ltac:(solve_not_elem)) as HsBC.
    simpl in HsBC. set (sBC := ClientList.add_client C sB) in *.
    set (l3 := set_stacks l0 [sA; sBC]) in *.
    pose proof (Hstep _ _ _ _ _ _ w4 D HsA HsBC) as H4. fold l3 in H4.
    rewrite H4 in Hall. simpl in Hall.
    pose proof (appended_add_client D sA [A] HsA ltac:(solve_not_elem)) as HsAD.
    pose proof (appended_add_client D sBC [B; C] HsBC ltac:(solve_not_elem)) as HsBCD.
    exists l2, l3. eexists.
    split_and!; [exact H2 | by apply Hcl | exact H3 | exact H4 | exact Hall | |].
    + rewrite E3. destruct (StackLayout.current_stack_offset w4 l3); simpl; by apply Hcl.
    + intros E. by rewrite (Hnone _ l2 E) in E3.
Qed.

Lemma add_four_unfair_witness :
  exists l4,
    add_clients [(None, 1); (None, 2); (None, 3); (None, 4)]
      (sample_layout 2 false [stack_of [] 0; stack_of [] 0]) = Ok l4 /\
    clients <$> stacks l4 = [[1; 3; 4]; [2]].
Proof.
  assert (NoDup [1; 2; 3; 4]) as Hnd by (by apply (bool_decide_unpack _)).
  destruct (add_four_unfair (sample_config 2 false) _ 1 2 3 4 None None None None
              eq_refl eq_refl Hnd eq_refl)
    as (l2 & l3 & l4 & _ & _ & _ & _ & Hrun & _ & Hnone).
  exists l4. split; [exact Hrun | by apply Hnone].
Defined.

(** ** The search for another stack *)

Section find_next_facts.
Implicit Types (lst sts : list _WinStack) (s n : _WinStack) (o : nat).

Lemma slice_from_nat {A} (lst : list A) o : slice_from lst (Z.of_nat o) = drop o lst.
Proof.
  unfold slice_from, slice_bound.
  destruct (Z.ltb_spec (Z.of_nat o) 0) as [|_]; [lia|].
  destruct (decide (o <= length lst)).
  - f_equal. lia.
  - rewrite !drop_ge; [done | lia | lia].
Qed.

Lemma slice_to_nat {A} (lst : list A) o : slice_to lst (Z.of_nat o) = take o lst.
Proof.
  unfold slice_to, slice_bound.
  destruct (Z.ltb_spec (Z.of_nat o) 0) as [|_]; [lia|].
  destruct (decide (o <= length lst)).
  - f_equal. lia.
  - rewrite !take_ge; [done | lia | lia].
Qed.

(** [_find_next] looks at the items after [o], then at those before it,
    and returns the first that is not empty. *)
Lemma find_next_nat lst o :
  StackLayout._find_next lst (Z.of_nat o)
  = snd <$> list_find (fun i => ClientList.truthy i = true) (drop (S o) lst ++ take o lst).
Proof.
  unfold StackLayout._find_next.
  replace (Z.of_nat o + 1)%Z with (Z.of_nat (S o)) by lia.
  rewrite slice_from_nat, slice_to_nat.
  destruct (list_find _ (drop (S o) lst)) as [[i n]|] eqn:E.
  - by rewrite (list_find_app_l _ _ _ _ _ E).
  - rewrite (list_find_app_r _ _ _ E).
    by destruct (list_find _ (take o lst)) as [[i n]|].
Qed.

Lemma elem_of_others lst o n :
  n ∈ drop (S o) lst ++ take o lst <-> exists i, i <> o /\ lst !! i = Some n.
Proof.
  rewrite elem_of_app, !list_elem_of_lookup. split.
  - intros [[j Hj] | [j Hj]].
    + rewrite lookup_drop in Hj. exists (S o + j). split; [lia | done].
    + apply lookup_take_Some in Hj as [Hj Hlt]. exists j. split; [lia | done].
  - intros (i & Hne & Hi). destruct (decide (i < o)).
    + right. exists i. by rewrite lookup_take_lt.
    + left. exists (i - S o). rewrite lookup_drop. rewrite <- Hi. f_equal. lia.
Qed.

Lemma find_next_Some lst o n :
  StackLayout._find_next lst (Z.of_nat o) = Some n ->
  clients n <> [] /\ exists i, i <> o /\ lst !! i = Some n.
Proof.
  rewrite find_next_nat. intros H.
  apply fmap_Some in H as [[j m] [Hf ->]].
  apply list_find_Some in Hf as (Hj & Htr & _). simpl.
  split; [by apply truthy_true|].
  apply elem_of_others. by eapply list_elem_of_lookup_2.
Qed.

Lemma find_next_is_Some lst o :
  is_Some (StackLayout._find_next lst (Z.of_nat o)) <->
  exists i s, i <> o /\ lst !! i = Some s /\ clients s <> [].
Proof.
  split.
  - intros [n Hn]. apply find_next_Some in Hn as [Hne (i & Hi & Hl)]. eauto.
  - intros (i & s & Hi & Hl & Hne). rewrite find_next_nat.
    apply fmap_is_Some.
    apply (list_find_elem_of _ _ s); [|by apply truthy_true].
    apply elem_of_others. eauto.
Qed.

(** The same search over the reversed list, as [previous_stack] and
    [remove] run it. *)
Lemma find_next_reverse sts o :
  o < length sts ->
  StackLayout._find_next (reverse sts) (Z.of_nat (length sts) - Z.of_nat o - 1)
  = snd <$> list_find (fun i => ClientList.truthy i = true)
              (reverse (take o sts) ++ reverse (drop (S o) sts)).
Proof.
  intros Hlt.
  replace (Z.of_nat (length sts) - Z.of_nat o - 1)%Z
    with (Z.of_nat (length sts - S o)) by lia.
  rewrite find_next_nat, drop_reverse, take_reverse.
  repeat f_equal; lia.
Qed.

Lemma find_next_reverse_is_Some sts o :
  o < length sts ->
  is_Some (StackLayout._find_next (reverse sts) (Z.of_nat (length sts) - Z.of_nat o - 1)) <->
  exists i s, i <> o /\ sts !! i = Some s /\ clients s <> [].
Proof.
  intros Hlt.
  replace (Z.of_nat (length sts) - Z.of_nat o - 1)%Z
    with (Z.of_nat (length sts - S o)) by lia.
  rewrite find_next_is_Some. split.
  - intros (i & s & Hi & Hl & Hne). apply reverse_lookup_Some in Hl as [Hl Hil].
    exists (length sts - S i), s. split_and!; [lia | done | done].
  - intros (i & s & Hi & Hl & Hne).
    assert (i < length sts) by (by eapply lookup_lt_Some).
    exists (length sts - S i), s. split_and!; [lia | | done].
    apply reverse_lookup_Some. split; [|lia]. rewrite <- Hl. f_equal. lia.
Qed.

Lemma find_next_truthy lst (offset : Z) n :
  StackLayout._find_next lst offset = Some n -> ClientList.truthy n = true.
Proof.
  unfold StackLayout._find_next.
  destruct (list_find _ (slice_from _ _)) as [[i m]|] eqn:E1.
  - intros [= <-]. by apply list_find_Some in E1 as (_ & ? & _).
  - destruct (list_find _ (slice_to _ _)) as [[i m]|] eqn:E2; [|done].
    intros [= <-]. by apply list_find_Some in E2 as (_ & ? & _).
Qed.

Lemma find_next_nil (offset : Z) : StackLayout._find_next [] offset = None.
Proof.
  unfold StackLayout._find_next, slice_from, slice_to.
  by rewrite drop_nil, take_nil.
Qed.

End find_next_facts.

(** ** C10: [next_stack] and [previous_stack] skip the current stack *)

Lemma next_stack_events w l :
  StackLayout.next_stack w l =
    match StackLayout._find_next (stacks l)
            (Z.of_nat (StackLayout.current_stack_offset w l)) with
    | Some n => [Focus (cw n) true]
    | None => []
    end.
Proof.
  unfold StackLayout.next_stack.
  destruct (StackLayout._find_next _ _) as [n|] eqn:E; [|done].
  by rewrite (find_next_truthy _ _ _ E).
Qed.

Lemma previous_stack_events w l :
  StackLayout.previous_stack w l =
    match StackLayout._find_next (reverse (stacks l))
            (Z.of_nat (length (stacks l))
             - Z.of_nat (StackLayout.current_stack_offset w l) - 1) with
    | Some n => [Focus (cw n) true]
    | None => []
    end.
Proof.
  unfold StackLayout.previous_stack.
  destruct (StackLayout._find_next _ _) as [n|] eqn:E; [|done].
  by rewrite (find_next_truthy _ _ _ E).
Qed.

(** C10. The search of [_find_next] never returns the item at its offset.
    [next_stack], and [previous_stack] as well, asks the group for a focus
    change exactly when a stack at another index than the current stack
    offset has a member; the request is for the current client of such a
    stack.  When only the current stack has members both methods do
    nothing. *)
Theorem next_stack_skips_current w l :
  let off := StackLayout.current_stack_offset w l in
  let other := exists i s, i <> off /\ stacks l !! i = Some s /\ clients s <> [] in
  (forall lst o n,
      StackLayout._find_next lst (Z.of_nat o) = Some n ->
      exists i, i <> o /\ lst !! i = Some n) /\
  (StackLayout.next_stack w l <> [] <-> other) /\
  (StackLayout.previous_stack w l <> [] <-> other) /\
  (forall ev, ev ∈ StackLayout.next_stack w l ++ StackLayout.previous_stack w l ->
     exists i s c, i <> off /\ stacks l !! i = Some s /\ cw s = Some c /\
                   ev = Focus (Some c) true) /\
  ((forall i s, i <> off -> stacks l !! i = Some s -> clients s = []) ->
     StackLayout.next_stack w l = [] /\ StackLayout.previous_stack w l = []).
Proof.
  intros off other.
  assert (StackLayout.next_stack w l <> [] <-> other) as Hnext.
  { rewrite next_stack_events. fold off. unfold other.
    rewrite <- find_next_is_Some.
    destruct (StackLayout._find_next _ _); by split. }
  assert (StackLayout.previous_stack w l <> [] <-> other) as Hprev.
  { rewrite previous_stack_events. fold off. unfold other.
    destruct (stacks l) as [|s0 sts] eqn:Hst.
    - rewrite reverse_nil, find_next_nil. split; [done|]. by intros (i & s & _ & Hl & _).
    - rewrite <- Hst.
      assert (off < length (stacks l)) as Hlt
        by (apply current_stack_offset_lt; by rewrite Hst).
      rewrite <- (find_next_reverse_is_Some _ _ Hlt).
      destruct (StackLayout._find_next _ _); by split. }
  split_and!; [| exact Hnext | exact Hprev | |].
  - intros lst o n H. by apply find_next_Some in H as [_ ?].
  - intros ev Hev. apply elem_of_app in Hev as [Hev|Hev].
    + rewrite next_stack_events in Hev. fold off in Hev.
      destruct (StackLayout._find_next _ _) as [n|] eqn:E; [|by apply elem_of_nil in Hev].
      apply list_elem_of_singleton in Hev as ->.
      apply find_next_Some in E as [Hne (i & Hi & Hl)].
      destruct (cw n) as [c|] eqn:Hc; [|by apply cw_None in Hc].
      by exists i, n, c.
    + rewrite previous_stack_events in Hev. fold off in Hev.
      destruct (StackLayout._find_next _ _) as [n|] eqn:E; [|by apply elem_of_nil in Hev].
      apply list_elem_of_singleton in Hev as ->.
      assert (is_Some (StackLayout._find_next (reverse (stacks l))
                (Z.of_nat (length (stacks l)) - Z.of_nat off - 1))) as HS by (by eexists).
      destruct (stacks l) as [|s0 sts] eqn:Hst;
        [by rewrite reverse_nil, find_next_nil in E|].
      rewrite <- Hst in *.
      assert (off < length (stacks l)) as Hlt
        by (apply current_stack_offset_lt; by rewrite Hst).
      replace (Z.of_nat (length (stacks l)) - Z.of_nat off - 1)%Z
        with (Z.of_nat (length (stacks l) - S off)) in E by lia.
      apply find_next_Some in E as [Hne (i & Hi & Hl)].
      apply reverse_lookup_Some in Hl as [Hl Hil].
      destruct (cw n) as [c|] eqn:Hc; [|by apply cw_None in Hc].
      exists (length (stacks l) - S i), n, c. split_and!; [lia | done | done | done].
  - intros Hall.
    assert (~ other) as Hno.
    { intros (i & s & Hi & Hl & Hne). by apply Hne, (Hall i). }
    split.
    + destruct (StackLayout.next_stack w l) eqn:E; [done|].
      exfalso. by apply Hno, Hnext.
    + destruct (StackLayout.previous_stack w l) eqn:E; [done|].
      exfalso. by apply Hno, Hprev.
Qed.

Lemma next_stack_skips_current_witness :
  StackLayout.next_stack (Some 1)
    (sample_layout 3 false [stack_of [] 0; stack_of [1; 2] 1; stack_of [] 0]) = [] /\
  StackLayout.previous_stack (Some 1)
    (sample_layout 3 false [stack_of [] 0; stack_of [1; 2] 1; stack_of [] 0]) = [].
Proof.
  apply (next_stack_skips_current (Some 1)
           (sample_layout 3 false [stack_of [] 0; stack_of [1; 2] 1; stack_of [] 0])).
  intros [|[|[|i]]] s Hi Hs; simplify_eq/=; done.
Defined.

(** ** C5: what [remove] returns *)

(** Three stacks, each with one client. *)
Lemma reachable_sample_three :
  reachable (sample_layout 3 false [stack_of [1] 0; stack_of [2] 0; stack_of [3] 0]).
Proof.
  eapply (reach_add_client (Some 2) 3
            (sample_layout 3 false [stack_of [1] 0; stack_of [2] 0; stack_of [] 0])).
  - eapply (reach_add_client (Some 1) 2
              (sample_layout 3 false [stack_of [1] 0; stack_of [] 0; stack_of [] 0])).
    + eapply (reach_add_client None 1
                (sample_layout 3 false [stack_of [] 0; stack_of [] 0; stack_of [] 0])).
      * by apply (reach_init (sample_config 3 false)).
      * by apply (bool_decide_unpack _).
      * reflexivity.
    + by apply (bool_decide_unpack _).
    + reflexivity.
  - by apply (bool_decide_unpack _).
  - reflexivity.
Defined.

(** The search of [remove] does not start with the stacks after the
    offset.  Of three stacks with one client each the middle one holds the
    focus, and its client is removed.  [remove] returns the client of stack 0;
    the search that goes to the stacks after the offset first finds the
    client of stack 2. *)
Lemma remove_counterexample :
  reachable (sample_layout 3 false [stack_of [1] 0; stack_of [2] 0; stack_of [3] 0]) /\
  exists l' r,
    StackLayout.remove (Some 2) 2
      (sample_layout 3 false [stack_of [1] 0; stack_of [2] 0; stack_of [3] 0])
    = Ok (l', r) /\
    stacks l' = [stack_of [1] 0; stack_of [] 0; stack_of [3] 0] /\
    r = Some 1 /\
    remove_result_forward 1 (stacks l') = Some 3 /\
    r <> remove_result_forward 1 (stacks l').
Proof.
  split; [exact reachable_sample_three|].
  eexists _, _. split; [reflexivity|]. simpl.
  split_and!; [reflexivity | reflexivity | reflexivity | discriminate].
Qed.

(** C5, amended. [remove] takes the client out of the first stack that has
    it, and changes nothing when no stack has it.  It returns the current
    client of the stack that held the focus before the removal when that
    stack still has a member; otherwise the current client of the first
    stack with a member in this order: the stacks before that offset, the
    nearest first and down to stack 0, then the stacks after it, the last
    first and down to the one next to the offset; the emptied stack is not
    looked at again.  It returns [None] exactly when every stack is
    empty. *)
Theorem remove_returns w c l :
  stacks l <> [] ->
  let off := StackLayout.current_stack_offset w l in
  exists l' r s,
    StackLayout.remove w c l = Ok (l', r) /\
    (forall k t, stacks l !! k = Some t -> c ∈ clients t ->
       (forall j u, j < k -> stacks l !! j = Some u -> c ∉ clients u) ->
       stacks l' = <[k := ClientList.remove c t]> (stacks l)) /\
    ((forall t, t ∈ stacks l -> c ∉ clients t) -> l' = l) /\
    stacks l' !! off = Some s /\
    (clients s <> [] -> r = cw s /\ r <> None) /\
    (clients s = [] ->
       r = match list_find (fun n => ClientList.truthy n = true)
                   (reverse (take off (stacks l')) ++ reverse (drop (S off) (stacks l'))) with
           | Some (_, n) => cw n
           | None => None
           end) /\
    (r = None <-> Forall (fun t => clients t = []) (stacks l')).
Proof.
  intros Hne off.
  set (sts := match list_find (ClientList.contains c) (stacks l) with
              | Some (k, _) => alter (ClientList.remove c) k (stacks l)
              | None => stacks l
              end).
  assert (length sts = length (stacks l)) as Hlen.
  { unfold sts. destruct (list_find _ _) as [[k s]|]; [apply length_alter | done]. }
  assert (off < length sts) as Hlt by (rewrite Hlen; by apply current_stack_offset_lt).
  destruct (lookup_lt_is_Some_2 _ _ Hlt) as [s Hs].
  assert (forall k t, stacks l !! k = Some t -> c ∈ clients t ->
            (forall j u, j < k -> stacks l !! j = Some u -> c ∉ clients u) ->
            sts = <[k := ClientList.remove c t]> (stacks l)) as Hfirst.
  { intros k t Hk Hc Hbefore. unfold sts.
    rewrite (proj2 (list_find_Some (ClientList.contains c) (stacks l) k t)).
    - by apply alter_insert.
    - split_and!; [done | done |]. intros j u Hj Hjk Hu. by apply (Hbefore j u). }
  assert ((forall t, t ∈ stacks l -> c ∉ clients t) -> set_stacks l sts = l) as Hnone.
  { intros Hno. unfold sts.
    rewrite (proj2 (list_find_None (ClientList.contains c) (stacks l))); [apply set_stacks_id|].
    apply Forall_forall. intros t Ht. by apply Hno. }
  assert (forall r, StackLayout.remove w c l = Ok (set_stacks l sts, r) <->
            match cw s with
            | Some d => Some d
            | None =>
                match StackLayout._find_next (reverse sts)
                        (Z.of_nat (length sts) - Z.of_nat off - 1) with
                | Some n => cw n
                | None => None
                end
            end = r) as Hrun.
  { intros r. unfold StackLayout.remove. fold sts off. rewrite Hs.
    destruct (cw s) as [d|]; [split; congruence|].
    destruct (StackLayout._find_next _ _) as [n|] eqn:E; [|split; congruence].
    rewrite (find_next_truthy _ _ _ E). split; congruence. }
  rewrite (find_next_reverse _ _ Hlt) in Hrun.
  set (cands := reverse (take off sts) ++ reverse (drop (S off) sts)) in *.
  assert (forall n, n ∈ cands -> n ∈ sts) as Hcands.
  { intros n Hn. unfold cands in Hn.
    rewrite elem_of_app, !elem_of_reverse in Hn.
    destruct Hn as [Hn|Hn];
      [eapply elem_of_sublist, sublist_take | eapply elem_of_sublist, sublist_drop]; done. }
  eexists (set_stacks l sts), _, s.
  split; [by apply Hrun|]. simpl.
  split; [exact Hfirst|]. split; [exact Hnone|]. split; [exact Hs|].
  destruct (cw s) as [d|] eqn:Hcw.
  - assert (clients s <> []) as Hsne by (intros E; apply cw_None in E; congruence).
    split_and!; [done | done |]. split; [done|].
    intros Hall. exfalso. apply Hsne.
    eapply Forall_forall in Hall; [exact Hall|]. by eapply list_elem_of_lookup_2.
  - apply cw_None in Hcw.
    split; [done|]. split.
    { intros _. unfold cands. by destruct (list_find _ (reverse _ ++ _)) as [[i n]|]. }
    destruct (list_find _ cands) as [[i n]|] eqn:E; simpl.
    + apply list_find_Some in E as (Hn & Htr & _). apply truthy_true in Htr.
      split.
      * intros Hc. by apply cw_None in Hc.
      * intros Hall. exfalso. apply Htr.
        eapply Forall_forall in Hall; [exact Hall|].
        apply Hcands. by eapply list_elem_of_lookup_2.
    + split; [|done]. intros _.
      apply list_find_None in E. unfold cands in E.
      rewrite Forall_app, !Forall_reverse in E. destruct E as [E1 E2].
      rewrite <- (take_drop_middle sts off s Hs).
      apply Forall_app. split.
      * eapply Forall_impl; [exact E1|]. intros t Ht. simpl in Ht.
        apply truthy_false. by destruct (ClientList.truthy t).
      * constructor; [done|].
        eapply Forall_impl; [exact E2|]. intros t Ht. simpl in Ht.
        apply truthy_false. by destruct (ClientList.truthy t).
Qed.

Lemma remove_returns_witness :
  exists l' r s,
    StackLayout.remove (Some 2) 2
      (sample_layout 3 false [stack_of [1] 0; stack_of [2] 0; stack_of [3] 0]) = Ok (l', r) /\
    stacks l' !! 1 = Some s /\
    (r = None <-> Forall (fun t => clients t = []) (stacks l')).
Proof.
  destruct (remove_returns (Some 2) 2
              (sample_layout 3 false [stack_of [1] 0; stack_of [2] 0; stack_of [3] 0]))
    as (l' & r & s & Hrun & _ & _ & Hs & _ & _ & Hnone); [discriminate|].
  exists l', r, s. split_and!; [exact Hrun | exact Hs | exact Hnone].
Defined.

(** ** C6: deleting the current stack *)

(** [join] at offset 1 puts the other members just after the current
    client, which stays the current one. *)
Lemma clients_join_after other t d :
  cw t = Some d ->
  clients t = take (ClientList.position t) (clients t)
              ++ d :: drop (S (ClientList.position t)) (clients t) /\
  clients (ClientList.join other 1 t)
  = take (ClientList.position t) (clients t)
    ++ d :: clients other ++ drop (S (ClientList.position t)) (clients t).
Proof.
  intros Hcw. apply cw_position in Hcw as [Hd Hne]. split.
  - by rewrite take_drop_middle.
  - rewrite clients_join. destruct (clients t) as [|a cs] eqn:E; [done|].
    rewrite Nat.add_1_r, (take_S_r _ _ _ Hd). by rewrite <- app_assoc.
Qed.

Lemma clients_join_empty other k t :
  clients t = [] -> clients (ClientList.join other k t) = clients other.
Proof.
  intros E. rewrite clients_join, E. simpl.
  by rewrite take_nil, drop_nil, app_nil_r.
Qed.

(** C6. With more than one stack, [delete_current_stack] takes the current
    stack out of the list, brings the offset back into the range of the
    shorter list, and joins the members of the removed stack into the
    stack now at that offset, just after its current client.  There is
    one stack less and the clients are the same.  With stack 0 = [A, B],
    the current stack, and stack 1 = [C], the one stack left has exactly
    A, B and C. *)
Theorem delete_current_stack_joins :
  (forall w l,
      1 < length (stacks l) ->
      let off := StackLayout.current_stack_offset w l in
      let sts := delete off (stacks l) in
      let off' := off `min` (length sts - 1) in
      exists l' ev s t,
        StackLayout.delete_current_stack w l = Ok (l', ev) /\
        stacks l !! off = Some s /\
        off' < length sts /\
        sts !! off' = Some t /\
        stacks l' = <[off' := ClientList.join s 1 t]> sts /\
        (forall d, cw t = Some d ->
           clients (ClientList.join s 1 t)
           = take (ClientList.position t) (clients t)
             ++ d :: clients s ++ drop (S (ClientList.position t)) (clients t) /\
           clients t = take (ClientList.position t) (clients t)
                       ++ d :: drop (S (ClientList.position t)) (clients t)) /\
        (clients t = [] -> clients (ClientList.join s 1 t) = clients s) /\
        length (stacks l') = length (stacks l) - 1 /\
        StackLayout.clients l' ≡ₚ StackLayout.clients l) /\
  (forall l (A B C : client) i1 b0 b1,
      stacks l = [ {| clients := [A; B]; current_index := 0; split := b0 |};
                   {| clients := [C]; current_index := i1; split := b1 |} ] ->
      exists l' ev t,
        StackLayout.delete_current_stack (Some A) l = Ok (l', ev) /\
        stacks l' = [t] /\
        clients t ≡ₚ [A; B; C] /\
        clients t = [C; A; B]).
Proof.
  split.
  - intros w l Hlen off sts off'.
    destruct (delete_current_stack_total w l) as (l' & ev & Hrun).
    pose proof (delete_current_stack_length _ _ _ _ Hrun) as Hl.
    rewrite decide_True in Hl by done.
    pose proof (delete_current_stack_perm _ _ _ _ Hrun) as Hp.
    apply delete_current_stack_stacks in Hrun as Hst.
    destruct Hst as [(Hle & _) | (_ & s & t & Hs & Ht & Hst & Hev)]; [lia|].
    exists l', ev, s, t. split_and!; try done.
    + by eapply lookup_lt_Some.
    + intros d Hd. apply and_comm. by apply clients_join_after.
    + apply clients_join_empty.
    + by rewrite !clients_members.
  - intros l A B C i1 b0 b1 Hst.
    assert (StackLayout.current_stack_offset (Some A) l = 0) as Hoff.
    { unfold StackLayout.current_stack_offset. rewrite Hst. simpl.
      rewrite decide_True; [done|]. unfold ClientList.contains. simpl. left. }
    unfold StackLayout.delete_current_stack. rewrite Hoff, Hst. simpl.
    eexists _, _, _. split; [reflexivity|]. simpl. split; [reflexivity|].
    unfold ClientList.join, ClientList.position. simpl. split; [|done].
    by rewrite (Permutation_cons_append [A; B] C).
Qed.

Lemma delete_current_stack_joins_witness :
  exists l' ev,
    StackLayout.delete_current_stack (Some 1)
      (sample_layout 2 true [stack_of [1; 3] 1; stack_of [2] 0]) = Ok (l', ev) /\
    length (stacks l') = 1 /\
    StackLayout.clients l' ≡ₚ [1; 3; 2].
Proof.
  destruct (proj1 delete_current_stack_joins (Some 1)
              (sample_layout 2 true [stack_of [1; 3] 1; stack_of [2] 0]))
    as (l' & ev & s & t & Hrun & _ & _ & _ & _ & _ & _ & Hlen & Hperm).
  - simpl. lia.
  - exists l', ev. split_and!; [exact Hrun | exact Hlen | exact Hperm].
Defined.

(** ** C9: sending the current client to another stack *)

(** C9. [client_to_stack n] changes nothing and asks nothing of the group
    when the current stack is empty.  Otherwise it takes the current
    client of the current stack out of it and puts it into the stack of
    index [n mod len(stacks)], of which it becomes the current client, for
    every integer [n]; the other stacks are as before.  With two stacks,
    [client_to_stack (-1)] sends the client to the stack of index 1. *)
Theorem client_to_stack_moves :
  (forall w n l cs,
      stacks l !! StackLayout.current_stack_offset w l = Some cs ->
      clients cs = [] ->
      StackLayout.client_to_stack w n l = Ok (l, [])) /\
  (forall w n l cs,
      let off := StackLayout.current_stack_offset w l in
      let next := Z.to_nat (n `mod` Z.of_nat (length (stacks l))) in
      stacks l !! off = Some cs ->
      clients cs <> [] ->
      exists win t l',
        cw cs = Some win /\
        next < length (stacks l) /\
        <[off := ClientList.remove win cs]> (stacks l) !! next = Some t /\
        StackLayout.client_to_stack w n l = Ok (l', [LayoutAll]) /\
        stacks l' = <[next := ClientList.focus win (ClientList.add_client win t)]>
                      (<[off := ClientList.remove win cs]> (stacks l)) /\
        clients cs ≡ₚ win :: clients (ClientList.remove win cs) /\
        (exists t', stacks l' !! next = Some t' /\
                    clients t' ≡ₚ win :: clients t /\ cw t' = Some win) /\
        (next <> off -> stacks l' !! off = Some (ClientList.remove win cs)) /\
        (forall j, j <> off -> j <> next -> stacks l' !! j = stacks l !! j)) /\
  (forall w l cs,
      length (stacks l) = 2 ->
      stacks l !! StackLayout.current_stack_offset w l = Some cs ->
      clients cs <> [] ->
      exists win l' t',
        cw cs = Some win /\
        StackLayout.client_to_stack w (-1) l = Ok (l', [LayoutAll]) /\
        stacks l' !! 1 = Some t' /\ win ∈ clients t' /\ cw t' = Some win).
Proof.
  assert (forall w n l cs,
      let off := StackLayout.current_stack_offset w l in
      let next := Z.to_nat (n `mod` Z.of_nat (length (stacks l))) in
      stacks l !! off = Some cs ->
      clients cs <> [] ->
      exists win t l',
        cw cs = Some win /\
        next < length (stacks l) /\
        <[off := ClientList.remove win cs]> (stacks l) !! next = Some t /\
        StackLayout.client_to_stack w n l = Ok (l', [LayoutAll]) /\
        stacks l' = <[next := ClientList.focus win (ClientList.add_client win t)]>
                      (<[off := ClientList.remove win cs]> (stacks l)) /\
        clients cs ≡ₚ win :: clients (ClientList.remove win cs) /\
        (exists t', stacks l' !! next = Some t' /\
                    clients t' ≡ₚ win :: clients t /\ cw t' = Some win) /\
        (next <> off -> stacks l' !! off = Some (ClientList.remove win cs)) /\
        (forall j, j <> off -> j <> next -> stacks l' !! j = stacks l !! j)) as Hmove.
  { intros w n l cs off next Hcs Hne.
    assert (off < length (stacks l)) as Hoff by (by eapply lookup_lt_Some).
    assert (next < length (stacks l)) as Hnext.
    { unfold next. pose proof (Z.mod_pos_bound n (Z.of_nat (length (stacks l)))). lia. }
    destruct (cw cs) as [win|] eqn:Hcw; [|by apply cw_None in Hcw].
    set (sts := <[off := ClientList.remove win cs]> (stacks l)).
    assert (length sts = length (stacks l)) as Hlen by apply length_insert.
    destruct (lookup_lt_is_Some_2 sts next) as [t Ht]; [lia|].
    set (t' := ClientList.focus win (ClientList.add_client win t)).
    exists win, t, (set_stacks l (<[next := t']> sts)).
    split_and!; try done.
    - unfold StackLayout.client_to_stack, StackLayout.current_stack.
      fold off. rewrite Hcs. simpl.
      rewrite (proj2 (truthy_true cs) Hne). simpl. rewrite Hcw.
      rewrite (alter_insert _ _ _ _ Hcs). fold sts next. by rewrite Ht.
    - apply clients_remove_perm. by apply cw_elem.
    - exists t'. simpl. split_and!.
      + apply list_lookup_insert_eq. lia.
      + unfold t'. by rewrite clients_focus, clients_add_client_perm.
      + unfold t'. apply cw_focus. rewrite clients_add_client_perm. left.
    - intros Hno. simpl. rewrite list_lookup_insert_ne by done.
      unfold sts. by apply list_lookup_insert_eq.
    - intros j Hj1 Hj2. simpl. rewrite list_lookup_insert_ne by done.
      unfold sts. by rewrite list_lookup_insert_ne. }
  split_and!; [| exact Hmove |].
  - intros w n l cs Hcs Hempty.
    unfold StackLayout.client_to_stack, StackLayout.current_stack.
    rewrite Hcs. simpl. by rewrite (proj2 (truthy_false cs) Hempty).
  - intros w l cs Hlen Hcs Hne.
    destruct (Hmove w (-1)%Z l cs Hcs Hne)
      as (win & t & l' & Hcw & _ & _ & Hrun & _ & _ & (t' & Ht' & Hp & Hcw') & _).
    rewrite Hlen in Ht'. change (Z.to_nat (-1 `mod` Z.of_nat 2)) with 1 in Ht'.
    exists win, l', t'. split_and!; try done.
    rewrite Hp. left.
Qed.

Lemma client_to_stack_moves_witness :
  StackLayout.client_to_stack (Some 7) 5
    (sample_layout 2 true [stack_of [] 0; stack_of [2] 0])
  = Ok (sample_layout 2 true [stack_of [] 0; stack_of [2] 0], []) /\
  (exists win l' t',
     cw (stack_of [1; 3] 1) = Some win /\
     StackLayout.client_to_stack (Some 1) (-1)
       (sample_layout 2 true [stack_of [1; 3] 1; stack_of [2] 0]) = Ok (l', [LayoutAll]) /\
     stacks l' !! 1 = Some t' /\ win ∈ clients t' /\ cw t' = Some win).
Proof.
  destruct client_to_stack_moves as (H1 & _ & H3).
  split.
  - apply (H1 (Some 7) 5%Z _ (stack_of [] 0)); reflexivity.
  - apply (H3 (Some 1) (sample_layout 2 true [stack_of [1; 3] 1; stack_of [2] 0])
             (stack_of [1; 3] 1)); [reflexivity | reflexivity | discriminate].
Defined.

(** ** C7 and C8: placing a client *)

Section true_division_facts.
Local Open Scope Z_scope.

(** The rounding of [a / b], at the values where a double cannot hold
    the quotient: from 2^53 on the result is the nearest even multiple
    of the spacing, and beyond the largest double it is an error. *)
Lemma int_div_rounds :
  [int_div 100 3; int_div (-5) 2; int_div 9007199254740993 1;
   int_div (2 ^ 54 - 1) 1; int_div (2 ^ 54 - 1) (2 ^ 54);
   int_div (10 ^ 400) 2; int_div 1 (10 ^ 400); int_div 7 0]
  = [Ok 33; Ok (-2); Ok 9007199254740992;
     Ok (2 ^ 54); Ok 1;
     Raise OverflowError; Ok 0; Raise ZeroDivisionError].
Proof. by vm_compute. Qed.

Lemma quot_log2_lower a b :
  0 < a -> 0 < b ->
  b * 2 ^ Z.max 0 (quot_log2 a b) <= a * 2 ^ Z.max 0 (- quot_log2 a b).
Proof.
  intros Ha Hb. unfold quot_log2.
  destruct (Z.log2_spec a Ha) as [Ha1 Ha2]. destruct (Z.log2_spec b Hb) as [Hb1 Hb2].
  pose proof (Z.log2_nonneg a) as Hla. pose proof (Z.log2_nonneg b) as Hlb.
  set (la := Z.log2 a) in *. set (lb := Z.log2 b) in *.
  destruct (Z.ltb_spec (a * 2 ^ Z.max 0 (- (la - lb))) (b * 2 ^ Z.max 0 (la - lb))) as [Hlt|Hge];
    [|done].
  destruct (Z_lt_le_dec 0 (la - lb)) as [Hd|Hd].
  - rewrite (Z.max_r 0 (la - lb - 1)), (Z.max_l 0 (- (la - lb - 1))) by lia.
    rewrite Z.pow_0_r, Z.mul_1_r.
    assert (2 ^ Z.succ lb * 2 ^ (la - lb - 1) = 2 ^ la) as E.
    { rewrite <- Z.pow_add_r by lia. f_equal. lia. }
    assert (0 < 2 ^ (la - lb - 1)) by (apply Z.pow_pos_nonneg; lia).
    nia.
  - rewrite (Z.max_l 0 (la - lb - 1)), (Z.max_r 0 (- (la - lb - 1))) by lia.
    rewrite Z.pow_0_r, Z.mul_1_r.
    assert (2 ^ la * 2 ^ (- (la - lb - 1)) = 2 ^ Z.succ lb) as E.
    { rewrite <- Z.pow_add_r by lia. f_equal. lia. }
    assert (0 < 2 ^ (- (la - lb - 1))) by (apply Z.pow_pos_nonneg; lia).
    nia.
Qed.

Lemma round_half_even_cases num den :
  round_half_even num den = num / den \/
  (round_half_even num den = num / den + 1 /\ den <= 2 * (num mod den)).
Proof.
  unfold round_half_even.
  destruct (Z.ltb_spec den (2 * (num mod den))); simpl; [right; lia|].
  destruct (Z.eqb_spec den (2 * (num mod den))); simpl; [|by left].
  destruct (Z.odd _); [right; lia | by left].
Qed.

Lemma round_trunc a b k :
  0 < a < 2 ^ 53 -> 0 < b -> 0 <= k ->
  2 ^ 52 <= a * 2 ^ k / b \/ 53 <= k ->
  round_half_even (a * 2 ^ k) b / 2 ^ k = a / b.
Proof.
  intros Ha Hb Hk Hbig.
  assert (0 < 2 ^ k) as HP by (apply Z.pow_pos_nonneg; lia).
  set (P := 2 ^ k) in *.
  assert (a * P / b / P = a / b) as Hm0.
  { rewrite Z.div_div by lia. rewrite (Z.mul_comm b P), (Z.mul_comm a P).
    apply Z.div_mul_cancel_l; lia. }
  destruct (round_half_even_cases (a * P) b) as [-> | [-> Hup]]; [done|].
  set (m0 := a * P / b) in *. set (n := a / b) in *.
  symmetry. apply (Z.div_unique_pos _ _ _ ((m0 + 1) - n * P)).
  2: lia.
  pose proof (Z.div_mod m0 P ltac:(lia)) as E1.
  pose proof (Z.mod_pos_bound m0 P HP) as E2. rewrite Hm0 in E1.
  split; [nia|].
  destruct (Z_lt_le_dec (m0 + 1 - n * P) P) as [|Hge]; [done|exfalso].
  assert (m0 + 1 = (n + 1) * P) as Em by nia.
  pose proof (Z.div_mod (a * P) b ltac:(lia)) as E3. fold m0 in E3.
  pose proof (Z.mod_pos_bound (a * P) b Hb) as E4.
  pose proof (Z.div_mod a b ltac:(lia)) as E5. fold n in E5.
  pose proof (Z.mod_pos_bound a b Hb) as E6.
  assert (0 <= n) by (apply Z.div_pos; lia).
  assert (2 * P <= b) as HbP.
  { assert (1 <= (n + 1) * b - a) as Hgap by nia.
    assert (2 * P * ((n + 1) * b - a) <= b) by nia. nia. }
  assert (2 ^ 52 <= m0) as Hm52.
  { destruct Hbig as [|Hk53]; [done|].
    assert (2 ^ 53 <= P) by (apply Z.pow_le_mono_r; lia). nia. }
  assert (2 * m0 <= a); [|nia].
  assert (2 * m0 * P <= a * P) by nia. nia.
Qed.

Lemma true_divide_small a b :
  0 < a < 2 ^ 53 -> 0 < b ->
  exists m e,
    true_divide a b = Ok {| mantissa := m; exponent := e |} /\
    0 <= m /\ e <= 0 /\ m / 2 ^ (- e) = a / b.
Proof.
  intros Ha Hb. unfold true_divide.
  destruct (Z.eqb_spec b 0) as [|_]; [lia|].
  destruct (Z.eqb_spec a 0) as [|_]; [lia|].
  rewrite (Z.abs_eq a), (Z.abs_eq b) by lia.
  rewrite (Z.sgn_pos a), (Z.sgn_pos b) by lia.
  pose proof (quot_log2_lower a b ltac:(lia) Hb) as Hlow.
  set (L := quot_log2 a b) in *.
  assert (L <= 52) as HL.
  { destruct (Z_le_gt_dec L 52) as [|Hgt]; [done|exfalso].
    rewrite (Z.max_r 0 L), (Z.max_l 0 (- L)), Z.pow_0_r in Hlow by lia.
    assert (2 ^ 53 <= 2 ^ L) by (apply Z.pow_le_mono_r; lia). nia. }
  set (e := Z.max (L - 52) (-1074)).
  assert (e <= 0) as He by lia.
  assert (0 <= - e) as Hk by lia.
  rewrite (Z.max_r 0 (- e)), (Z.max_l 0 e), Z.pow_0_r, Z.mul_1_r by lia.
  assert (0 < 2 ^ (- e)) as HP by (apply Z.pow_pos_nonneg; lia).
  assert (2 ^ 52 <= a * 2 ^ (- e) / b \/ 53 <= - e) as Hbig.
  { destruct (Z_le_gt_dec (-1074) (L - 52)) as [Hn|Hc]; [left | right; lia].
    assert (e = L - 52) as -> by lia.
    apply Z.div_le_lower_bound; [lia|].
    destruct (Z_le_gt_dec 0 L) as [HL0|HL0].
    - rewrite (Z.max_r 0 L), (Z.max_l 0 (- L)), Z.pow_0_r in Hlow by lia.
      assert (2 ^ L * 2 ^ (- (L - 52)) = 2 ^ 52) as E.
      { rewrite <- Z.pow_add_r by lia. f_equal. lia. }
      assert (0 < 2 ^ (- (L - 52))) by (apply Z.pow_pos_nonneg; lia). nia.
    - rewrite (Z.max_l 0 L), (Z.max_r 0 (- L)), Z.pow_0_r in Hlow by lia.
      assert (2 ^ (- L) * 2 ^ 52 = 2 ^ (- (L - 52))) as E.
      { rewrite <- Z.pow_add_r by lia. f_equal. lia. }
      nia. }
  pose proof (round_trunc a b (- e) Ha Hb Hk Hbig) as Hrt.
  set (m := round_half_even (a * 2 ^ (- e)) b) in *.
  assert (0 <= m) as Hm.
  { destruct (round_half_even_cases (a * 2 ^ (- e)) b) as [E | [E _]]; fold m in E; rewrite E;
      assert (0 <= a * 2 ^ (- e) / b) by (apply Z.div_pos; nia); lia. }
  assert ((0 <=? e) && (2 ^ 1024 <=? m * 2 ^ e) = false) as ->.
  { destruct (Z.leb_spec 0 e) as [He0|]; [|done]. simpl.
    assert (e = 0) as E0 by lia. rewrite E0 in *. simpl in Hrt. rewrite Z.div_1_r in Hrt.
    apply Z.leb_gt. rewrite Z.pow_0_r, Z.mul_1_r, Hrt.
    assert (a / b <= a) by (apply Z.div_le_upper_bound; nia).
    assert (2 ^ 53 < 2 ^ 1024) by (apply Z.pow_lt_mono_r; lia). lia. }
  exists m, e. rewrite Z.mul_1_l. done.
Qed.

Lemma int_of_float_nonneg m e :
  0 <= m -> e <= 0 ->
  int_of_float {| mantissa := m; exponent := e |} = m / 2 ^ (- e).
Proof.
  intros Hm He. unfold int_of_float. simpl.
  destruct (Z.leb_spec 0 e).
  - assert (e = 0) as -> by lia. simpl. rewrite Z.div_1_r. lia.
  - apply Z.quot_div_nonneg; [done | apply Z.pow_pos_nonneg; lia].
Qed.

Lemma int_of_float_opp m e :
  int_of_float {| mantissa := - m; exponent := e |}
  = - int_of_float {| mantissa := m; exponent := e |}.
Proof.
  unfold int_of_float. simpl. destruct (Z.leb_spec 0 e); [apply Z.mul_opp_l|].
  apply Z.quot_opp_l. apply Z.pow_nonzero; lia.
Qed.

Lemma int_div_small_pos a b :
  0 <= a < 2 ^ 53 -> 0 < b -> int_div a b = Ok (a / b).
Proof.
  intros Ha Hb. destruct (Z.eq_dec a 0) as [->|Hne].
  - unfold int_div, true_divide. destruct (Z.eqb_spec b 0); [lia|]. reflexivity.
  - destruct (true_divide_small a b ltac:(lia) Hb) as (m & e & Htd & Hm & He & Hq).
    unfold int_div. rewrite Htd. simpl. by rewrite int_of_float_nonneg, Hq.
Qed.

Lemma true_divide_opp_l a b :
  true_divide (- a) b
  = f ← true_divide a b; Ok {| mantissa := - mantissa f; exponent := exponent f |}.
Proof.
  unfold true_divide. destruct (b =? 0); [done|].
  destruct (Z.eqb_spec a 0) as [->|Ha]; [done|].
  destruct (Z.eqb_spec (- a) 0) as [|_]; [lia|].
  rewrite Z.abs_opp, Z.sgn_opp.
  destruct (_ && _); [done|]. simpl. do 2 f_equal. lia.
Qed.

Lemma true_divide_opp_r a b :
  true_divide a (- b)
  = f ← true_divide a b; Ok {| mantissa := - mantissa f; exponent := exponent f |}.
Proof.
  unfold true_divide.
  destruct (Z.eqb_spec b 0) as [->|Hb]; [done|].
  destruct (Z.eqb_spec (- b) 0) as [|_]; [lia|].
  destruct (a =? 0); [done|].
  rewrite Z.abs_opp, Z.sgn_opp.
  destruct (_ && _); [done|]. simpl. do 2 f_equal. lia.
Qed.

Lemma int_div_opp_l a b : int_div (- a) b = q ← int_div a b; Ok (- q).
Proof.
  unfold int_div. rewrite true_divide_opp_l.
  destruct (true_divide a b) as [[m e]|]; [|done]. simpl. by rewrite int_of_float_opp.
Qed.

Lemma int_div_opp_r a b : int_div a (- b) = q ← int_div a b; Ok (- q).
Proof.
  unfold int_div. rewrite true_divide_opp_r.
  destruct (true_divide a b) as [[m e]|]; [|done]. simpl. by rewrite int_of_float_opp.
Qed.

Lemma int_div_exact a b :
  Z.abs a < 2 ^ 53 -> b <> 0 -> int_div a b = Ok (Z.quot a b).
Proof.
  intros Ha Hb.
  destruct (Z_le_gt_dec 0 a) as [Ha0|Ha0], (Z_lt_le_dec 0 b) as [Hb0|Hb0].
  - rewrite int_div_small_pos by lia. by rewrite Z.quot_div_nonneg by lia.
  - rewrite <- (Z.opp_involutive b) at 1. rewrite int_div_opp_r.
    rewrite int_div_small_pos by lia. simpl.
    rewrite <- Z.quot_div_nonneg by lia. by rewrite Z.quot_opp_r, Z.opp_involutive by lia.
  - rewrite <- (Z.opp_involutive a) at 1. rewrite int_div_opp_l.
    rewrite int_div_small_pos by lia. simpl.
    rewrite <- Z.quot_div_nonneg by lia. by rewrite Z.quot_opp_l, Z.opp_involutive by lia.
  - rewrite <- (Z.opp_involutive a) at 1. rewrite <- (Z.opp_involutive b) at 1.
    rewrite int_div_opp_l, int_div_opp_r.
    rewrite int_div_small_pos by lia. simpl.
    rewrite <- Z.quot_div_nonneg by lia. by rewrite Z.quot_opp_opp, Z.opp_involutive by lia.
Qed.

Lemma round_half_even_nonneg num den :
  0 <= num -> 0 < den -> 0 <= round_half_even num den.
Proof.
  intros Hn Hd. pose proof (Z.div_pos num den Hn Hd).
  destruct (round_half_even_cases num den) as [-> | [-> _]]; lia.
Qed.

Lemma int_div_nonneg a b q :
  0 <= a -> 0 < b -> int_div a b = Ok q -> 0 <= q.
Proof.
  intros Ha Hb. unfold int_div, true_divide.
  destruct (Z.eqb_spec b 0); [lia|].
  destruct (Z.eqb_spec a 0); [by intros [= <-]|].
  rewrite (Z.abs_eq a), (Z.abs_eq b), (Z.sgn_pos a), (Z.sgn_pos b) by lia.
  set (e := Z.max _ _). set (m := round_half_even _ _).
  assert (0 <= m) as Hm.
  { apply round_half_even_nonneg.
    - apply Z.mul_nonneg_nonneg; [lia | apply Z.pow_nonneg; lia].
    - apply Z.mul_pos_pos; [lia | apply Z.pow_pos_nonneg; lia]. }
  destruct (_ && _); [done|]. simpl. intros [= <-].
  unfold int_of_float. simpl. destruct (Z.leb_spec 0 e).
  - apply Z.mul_nonneg_nonneg; [lia | apply Z.pow_nonneg; lia].
  - apply Z.quot_pos; [lia | apply Z.pow_pos_nonneg; lia].
Qed.

Lemma int_div_raises a b e :
  int_div a b = Raise e ->
  (b = 0 /\ e = ZeroDivisionError) \/ (2 ^ 53 <= Z.abs a /\ e = OverflowError).
Proof.
  intros H. destruct (Z.eq_dec b 0) as [->|Hb].
  - left. split; [done|]. unfold int_div, true_divide in H. simpl in H. congruence.
  - right. destruct (Z_lt_le_dec (Z.abs a) (2 ^ 53)) as [Hs|Hl].
    + by rewrite int_div_exact in H.
    + split; [done|]. unfold int_div, true_divide in H.
      destruct (Z.eqb_spec b 0); [done|].
      destruct (a =? 0); [done|].
      destruct (_ && _); simpl in H; [by injection H | done].
Qed.

End true_division_facts.

Section configure_facts.
Implicit Types (c : client) (l : Stack) (s : _WinStack) (r : ScreenRect).

(** In a reachable layout the stack of a client is the first, and only,
    stack that has it. *)
Lemma reachable_first_owner l i s c :
  reachable l -> stacks l !! i = Some s -> c ∈ clients s ->
  forall j u, j < i -> stacks l !! j = Some u -> c ∉ clients u.
Proof.
  intros Hr Hi Hc j u Hj Hu Hcu.
  pose proof (NoDup_members_unique _ _ _ _ _ _ (reachable_NoDup l Hr) Hi Hu Hc Hcu).
  lia.
Qed.

Lemma first_owner_find l i s c :
  stacks l !! i = Some s -> c ∈ clients s ->
  (forall j u, j < i -> stacks l !! j = Some u -> c ∉ clients u) ->
  list_find (ClientList.contains c) (stacks l) = Some (i, s).
Proof.
  intros Hi Hc Hfst. apply list_find_Some. split_and!; [done | done |].
  intros j u Hu Hj. by apply (Hfst j u).
Qed.

(** [configure] for a client of stack [i]: the two quotients, then the
    placement. *)
Lemma configure_found c has_focus r l i s :
  list_find (ClientList.contains c) (stacks l) = Some (i, s) ->
  let px := StackLayout.border_colour has_focus s l in
  exists row,
    index_of c (clients s) = Some row /\
    StackLayout.configure c has_focus r l =
      column_width ← int_div (width r) (Z.of_nat (length (stacks l)));
      let xoffset := (x r + Z.of_nat i * column_width)%Z in
      let window_width := (column_width - 2 * border_width l)%Z in
      if split s then
        column_height ← int_div (height r) (Z.of_nat (length (clients s)));
        Ok [Place c xoffset (y r + Z.of_nat row * column_height)%Z window_width
              (column_height - 2 * border_width l)%Z (border_width l) px (margin l);
            Unhide c]
      else if decide (Some c = cw s) then
        Ok [Place c xoffset (y r) window_width (height r - 2 * border_width l)%Z
              (border_width l) px (margin l);
            Unhide c]
      else Ok [Hide c].
Proof.
  intros Hfind. simpl.
  pose proof Hfind as Hf. apply list_find_Some in Hf as (Hi & Hc & _).
  unfold ClientList.contains in Hc.
  destruct (index_of_elem _ _ Hc) as [row Hrow]. exists row. split; [done|].
  unfold StackLayout.configure. rewrite Hfind.
  destruct (int_div (width r) _) as [column_width|]; [simpl|done].
  destruct (split s); [|done].
  unfold ClientList.len, ClientList.index.
  destruct (int_div (height r) _) as [column_height|]; [simpl|done].
  by rewrite Hrow.
Qed.

(** The divisors of [configure] are not zero. *)
Lemma configure_divisors c l i s :
  list_find (ClientList.contains c) (stacks l) = Some (i, s) ->
  (0 < Z.of_nat (length (stacks l)))%Z /\ (0 < Z.of_nat (length (clients s)))%Z.
Proof.
  intros Hfind. apply list_find_Some in Hfind as (Hi & Hc & _).
  unfold ClientList.contains in Hc. split.
  - apply lookup_lt_Some in Hi. lia.
  - destruct (clients s); [by apply elem_of_nil in Hc | simpl; lia].
Qed.

(** [configure] for a client of stack [i] on a rectangle with sizes
    below 2^53 in absolute value, where the quotients are exact. *)
Lemma configure_found_exact c has_focus r l i s :
  (Z.abs (width r) < 2 ^ 53)%Z -> (Z.abs (height r) < 2 ^ 53)%Z ->
  list_find (ClientList.contains c) (stacks l) = Some (i, s) ->
  let px := StackLayout.border_colour has_focus s l in
  let column_width := Z.quot (width r) (Z.of_nat (length (stacks l))) in
  let xoffset := (x r + Z.of_nat i * column_width)%Z in
  let window_width := (column_width - 2 * border_width l)%Z in
  let column_height := Z.quot (height r) (Z.of_nat (length (clients s))) in
  exists row,
    index_of c (clients s) = Some row /\
    StackLayout.configure c has_focus r l =
      if split s then
        Ok [Place c xoffset (y r + Z.of_nat row * column_height)%Z window_width
              (column_height - 2 * border_width l)%Z (border_width l) px (margin l);
            Unhide c]
      else if decide (Some c = cw s) then
        Ok [Place c xoffset (y r) window_width (height r - 2 * border_width l)%Z
              (border_width l) px (margin l);
            Unhide c]
      else Ok [Hide c].
Proof.
  intros Hw Hh Hfind. simpl.
  destruct (configure_found c has_focus r l i s Hfind) as (row & Hrow & Hrun).
  destruct (configure_divisors c l i s Hfind) as [Hk Hn].
  exists row. split; [done|]. rewrite Hrun.
  rewrite (int_div_exact (width r)) by lia. simpl.
  destruct (split s); [|done].
  by rewrite (int_div_exact (height r)) by lia.
Qed.

End configure_facts.

(** C7. On a rectangle whose width and height are those of a screen,
    not negative and below 2^53, [configure] places a client of stack [i]
    out of [k] stacks at x offset [x + i * floor(width / k)] with the
    width [floor(width / k) - 2 * border_width].  In a split stack of [n]
    members the client is placed in the row of its index, the rows being
    [floor(height / n)] high, and is unhidden.  In a stack that is not
    split the client is placed over the full height less the borders and
    unhidden when it is the current client of the stack, and hidden when
    it is another member. *)
Theorem configure_placement c has_focus r l i s :
  (0 <= width r < 2 ^ 53)%Z -> (0 <= height r < 2 ^ 53)%Z ->
  stacks l !! i = Some s -> c ∈ clients s ->
  (forall j u, j < i -> stacks l !! j = Some u -> c ∉ clients u) ->
  let k := Z.of_nat (length (stacks l)) in
  let n := Z.of_nat (length (clients s)) in
  let px := StackLayout.border_colour has_focus s l in
  let column_width := (width r / k)%Z in
  let column_height := (height r / n)%Z in
  let xoffset := (x r + Z.of_nat i * column_width)%Z in
  let window_width := (column_width - 2 * border_width l)%Z in
  (split s = true ->
     exists row,
       index_of c (clients s) = Some row /\ clients s !! row = Some c /\
       StackLayout.configure c has_focus r l
       = Ok [Place c xoffset (y r + Z.of_nat row * column_height)%Z window_width
               (column_height - 2 * border_width l)%Z (border_width l) px (margin l);
             Unhide c]) /\
  (split s = false -> cw s = Some c ->
     StackLayout.configure c has_focus r l
     = Ok [Place c xoffset (y r) window_width (height r - 2 * border_width l)%Z
             (border_width l) px (margin l);
           Unhide c]) /\
  (split s = false -> cw s <> Some c ->
     StackLayout.configure c has_focus r l = Ok [Hide c]).
Proof.
  intros Hw Hh Hi Hc Hfst k n px column_width column_height xoffset window_width.
  pose proof (first_owner_find _ _ _ _ Hi Hc Hfst) as Hfind.
  destruct (configure_divisors c l i s Hfind) as [Hk Hn].
  destruct (configure_found_exact c has_focus r l i s) as (row & Hrow & Hcfg);
    [lia | lia | done |].
  rewrite (Z.quot_div_nonneg (width r)) in Hcfg by lia.
  rewrite (Z.quot_div_nonneg (height r)) in Hcfg by lia.
  split_and!.
  - intros Hsp. exists row. rewrite Hsp in Hcfg.
    split_and!; [done | by apply index_of_Some | done].
  - intros Hsp Hcw. rewrite Hsp in Hcfg. by rewrite decide_True in Hcfg.
  - intros Hsp Hcw. rewrite Hsp in Hcfg. by rewrite decide_False in Hcfg.
Qed.

Lemma configure_placement_witness :
  StackLayout.configure 3 true {| x := 0; y := 0; width := 100; height := 60 |}
    (sample_layout 2 true [stack_of [1; 3] 1; stack_of [2] 0])
  = Ok [Place 3 0 0 48 58 1 (Some (ColourStr "#0000ff")) (MarginInt 0); Unhide 3] /\
  StackLayout.configure 1 false {| x := 0; y := 0; width := 100; height := 60 |}
    (sample_layout 2 true [stack_of [1; 3] 1; stack_of [2] 0])
  = Ok [Hide 1].
Proof.
  assert (forall c, c ∈ [1; 3] ->
            forall j u, j < 0 ->
              stacks (sample_layout 2 true [stack_of [1; 3] 1; stack_of [2] 0]) !! j = Some u ->
              c ∉ clients u) as Hfst by (intros; lia).
  assert (0 <= 100 < 2 ^ 53)%Z as Hw by (by apply (bool_decide_unpack _)).
  assert (0 <= 60 < 2 ^ 53)%Z as Hh by (by apply (bool_decide_unpack _)).
  split.
  - refine (proj1 (proj2 (configure_placement 3 true
                            {| x := 0; y := 0; width := 100; height := 60 |}
                            (sample_layout 2 true [stack_of [1; 3] 1; stack_of [2] 0])
                            0 (stack_of [1; 3] 1) Hw Hh eq_refl _ (Hfst 3 _))) eq_refl eq_refl);
      by apply (bool_decide_unpack _).
  - refine (proj2 (proj2 (configure_placement 1 false
                            {| x := 0; y := 0; width := 100; height := 60 |}
                            (sample_layout 2 true [stack_of [1; 3] 1; stack_of [2] 0])
                            0 (stack_of [1; 3] 1) Hw Hh eq_refl _ (Hfst 1 _))) eq_refl _);
      by apply (bool_decide_unpack _).
Defined.

Lemma border_colour_eq has_focus s l :
  StackLayout.border_colour has_focus s l = border_colour_spec has_focus s l.
Proof.
  unfold StackLayout.border_colour, border_colour_spec.
  destruct has_focus, (split s); simpl;
    by destruct (colour_truthy _).
Qed.

(** C8. Whenever [configure] places a client, the border colour it passes
    is [border_focus] for a client with the focus, unless the stack of the
    client is not split and [border_focus_stack] is configured, and then
    it is [border_focus_stack]; for a client without the focus it is
    [border_normal], unless the stack is not split and
    [border_normal_stack] is configured, and then it is
    [border_normal_stack]. *)
Theorem configure_border_colour c has_focus r l evs c' px py w h bw col m :
  StackLayout.configure c has_focus r l = Ok evs ->
  Place c' px py w h bw col m ∈ evs ->
  exists i s,
    stacks l !! i = Some s /\ c ∈ clients s /\
    (forall j u, j < i -> stacks l !! j = Some u -> c ∉ clients u) /\
    c' = c /\
    col = (if has_focus then
             if negb (split s) && colour_truthy (border_focus_stack l)
             then border_focus_stack l else Some (border_focus l)
           else
             if negb (split s) && colour_truthy (border_normal_stack l)
             then border_normal_stack l else Some (border_normal l)) /\
    (colour_truthy (border_focus_stack l) = true -> split s = false -> has_focus = true ->
       col = border_focus_stack l) /\
    (colour_truthy (border_normal_stack l) = true -> split s = false -> has_focus = false ->
       col = border_normal_stack l).
Proof.
  intros Hcfg Hin.
  destruct (list_find (ClientList.contains c) (stacks l)) as [[i s]|] eqn:Hfind.
  - destruct (configure_found c has_focus r l i s Hfind) as (row & Hrow & Hrun).
    rewrite Hcfg in Hrun.
    apply list_find_Some in Hfind as (Hi & Hc & Hfst).
    assert (c' = c /\ col = StackLayout.border_colour has_focus s l) as [-> ->].
    { destruct (int_div (width r) _) as [column_width|]; [simpl in Hrun|done].
      destruct (split s);
        [destruct (int_div (height r) _) as [column_height|]; [simpl in Hrun|done]
        |case_decide]; injection Hrun as ->.
      - apply elem_of_cons in Hin as [[= -> _ _ _ _ _ -> _] | Hin]; [done|].
        by apply list_elem_of_singleton in Hin.
      - apply elem_of_cons in Hin as [[= -> _ _ _ _ _ -> _] | Hin]; [done|].
        by apply list_elem_of_singleton in Hin.
      - by apply list_elem_of_singleton in Hin. }
    exists i, s. rewrite border_colour_eq. unfold border_colour_spec.
    split_and!; try done.
    + intros j u Hj Hu Hcu. by apply (Hfst j u).
    + by intros -> -> ->.
    + by intros -> -> ->.
  - unfold StackLayout.configure in Hcfg. rewrite Hfind in Hcfg.
    injection Hcfg as <-. by apply list_elem_of_singleton in Hin.
Qed.

Lemma configure_border_colour_witness :
  exists i s,
    stacks (sample_layout_colours [stack_of [1; 3] 1; stack_of [2] 0]) !! i = Some s /\
    3 ∈ clients s /\
    Some (ColourStr "#ff0000")
    = border_focus_stack (sample_layout_colours [stack_of [1; 3] 1; stack_of [2] 0]).
Proof.
  destruct (configure_border_colour 3 true {| x := 0; y := 0; width := 100; height := 60 |}
              (sample_layout_colours [stack_of [1; 3] 1; stack_of [2] 0])
              [Place 3 0 0 48 58 1 (Some (ColourStr "#ff0000")) (MarginInt 0); Unhide 3]
              3 0%Z 0%Z 48%Z 58%Z 1%Z (Some (ColourStr "#ff0000")) (MarginInt 0))
    as (i & s & Hi & Hc & _ & _ & _ & Hcol & _).
  - reflexivity.
  - left.
  - exists i, s. split_and!; [exact Hi | exact Hc |].
    apply Hcol; [reflexivity | | reflexivity].
    destruct i as [|[|i]]; simplify_eq/=; [reflexivity|].
    exfalso. revert Hc. by apply (bool_decide_unpack _).
Defined.


(** * Further properties of the layout *)

Section further_facts.
Implicit Types (sts : list _WinStack) (s t : _WinStack) (c : client) (l : Stack)
  (w : option client).

(** The current stack offset only depends on the members of the stacks. *)
Lemma current_stack_offset_members w l l' :
  clients <$> stacks l = clients <$> stacks l' ->
  StackLayout.current_stack_offset w l = StackLayout.current_stack_offset w l'.
Proof.
  intros Heq. unfold StackLayout.current_stack_offset. destruct w as [c|]; [|done].
  pose proof (list_find_fmap clients (fun cs => c ∈ cs) (stacks l)) as H1.
  pose proof (list_find_fmap clients (fun cs => c ∈ cs) (stacks l')) as H2.
  rewrite Heq in H1. rewrite H1 in H2.
  change (list_find ((fun cs => c ∈ cs) ∘ clients)) with (list_find (ClientList.contains c)) in H2.
  destruct (list_find (ClientList.contains c) (stacks l)) as [[i s]|],
           (list_find (ClientList.contains c) (stacks l')) as [[i' s']|];
    simpl in H2; congruence.
Qed.

Lemma toggle_split_involutive s : toggle_split (toggle_split s) = s.
Proof. destruct s as [cs i b]. unfold toggle_split. simpl. by destruct b. Qed.

Lemma fmap_alter_same {B} (g : _WinStack -> B) (f : _WinStack -> _WinStack) i sts :
  (forall s, g (f s) = g s) -> g <$> alter f i sts = g <$> sts.
Proof.
  intros Hg. revert i. induction sts as [|a sts IH]; intros [|i]; csimpl; try done.
  - by rewrite Hg.
  - by rewrite IH.
Qed.

Lemma rotate_snoc l sts s :
  stacks l = sts ++ [s] -> stacks (StackLayout.rotate l).1 = s :: sts.
Proof.
  intros E. unfold StackLayout.rotate. rewrite E, last_snoc. simpl.
  rewrite length_app. simpl.
  replace (length sts + 1 - 1) with (length sts) by lia.
  by rewrite take_app_length.
Qed.

Lemma rotate_settings l sts :
  set_stacks (StackLayout.rotate l).1 sts = set_stacks l sts.
Proof. unfold StackLayout.rotate. by destruct (last (stacks l)). Qed.

Lemma rotate_n_stacks j l :
  j <= length (stacks l) ->
  stacks (rotate_n j l)
  = drop (length (stacks l) - j) (stacks l) ++ take (length (stacks l) - j) (stacks l) /\
  set_stacks (rotate_n j l) (stacks l) = l.
Proof.
  induction j as [|j IH]; intros Hj.
  - simpl. rewrite Nat.sub_0_r, drop_all, take_ge by done. split; [reflexivity | apply set_stacks_id].
  - destruct IH as [IH1 IH2]; [lia|]. simpl. fold (rotate_n j l).
    set (n := length (stacks l)) in *.
    destruct (lookup_lt_is_Some_2 (stacks l) (n - S j)) as [s Hs]; [lia|].
    assert (stacks (rotate_n j l)
            = (drop (n - j) (stacks l) ++ take (n - S j) (stacks l)) ++ [s]) as E.
    { rewrite IH1. replace (n - j) with (S (n - S j)) at 2 by lia.
      by rewrite (take_S_r _ _ _ Hs), app_assoc. }
    split.
    + rewrite (rotate_snoc _ _ _ E).
      replace (n - j) with (S (n - S j)) by lia.
      by rewrite (drop_S _ _ _ Hs).
    + by rewrite rotate_settings.
Qed.

End further_facts.

(** X1. [toggle_split] flips the split flag of the current stack and of no
    other, leaves the settings, the members and the current stack offset
    as they are and asks for a new layout pass; called twice it gives the
    layout back. *)
Theorem toggle_split_twice w l :
  stacks l <> [] ->
  let off := StackLayout.current_stack_offset w l in
  exists l1 s,
    StackLayout.toggle_split w l = Ok (l1, [LayoutAll]) /\
    stacks l !! off = Some s /\
    l1 = set_stacks l (<[off := {| clients := clients s;
                                    current_index := current_index s;
                                    split := negb (split s) |}]> (stacks l)) /\
    stacks l1 = <[off := {| clients := clients s;
                             current_index := current_index s;
                             split := negb (split s) |}]> (stacks l) /\
    clients <$> stacks l1 = clients <$> stacks l /\
    StackLayout.current_stack_offset w l1 = off /\
    StackLayout.toggle_split w l1 = Ok (l, [LayoutAll]).
Proof.
  intros Hne off.
  destruct (current_stack_Ok w l Hne) as (s & Hcs & Hs). fold off in Hs.
  set (l1 := set_stacks l (alter toggle_split off (stacks l))).
  assert (clients <$> stacks l1 = clients <$> stacks l) as Hcl
    by (by apply fmap_alter_same).
  assert (StackLayout.current_stack_offset w l1 = off) as Hoff
    by (by apply current_stack_offset_members).
  assert (alter toggle_split off (stacks l)
          = <[off := {| clients := clients s;
                        current_index := current_index s;
                        split := negb (split s) |}]> (stacks l)) as Halt.
  { rewrite (alter_insert _ _ _ _ Hs). unfold toggle_split. by destruct (split s). }
  exists l1, s. split_and!; try done.
  - unfold StackLayout.toggle_split. fold off. by rewrite Hcs.
  - unfold l1. by rewrite Halt.
  - unfold StackLayout.toggle_split, StackLayout.current_stack. rewrite Hoff. simpl.
    rewrite list_lookup_alter_eq, Hs. simpl.
    rewrite list_alter_alter_eq.
    rewrite list_alter_id by apply toggle_split_involutive.
    change (set_stacks l1 (stacks l)) with (set_stacks l (stacks l)).
    by rewrite set_stacks_id.
Qed.

Lemma toggle_split_twice_witness :
  exists l1,
    StackLayout.toggle_split (Some 3)
      (sample_layout 2 true [stack_of [1; 3] 1; stack_of [2] 0]) = Ok (l1, [LayoutAll]) /\
    StackLayout.toggle_split (Some 3) l1
    = Ok (sample_layout 2 true [stack_of [1; 3] 1; stack_of [2] 0], [LayoutAll]).
Proof.
  destruct (toggle_split_twice (Some 3)
              (sample_layout 2 true [stack_of [1; 3] 1; stack_of [2] 0]))
    as (l1 & s & H1 & _ & _ & _ & _ & _ & H2); [discriminate|].
  exists l1. split; [exact H1 | exact H2].
Defined.

(** X2. [rotate] moves the last stack to the front and leaves the other
    stacks in their order; it asks for a new layout pass, also when there
    is no stack.  After [j] calls the last [j] stacks are in front, and
    after as many calls as there are stacks the layout is as it was. *)
Theorem rotate_full_turn l :
  (forall sts s, stacks l = sts ++ [s] ->
     StackLayout.rotate l = (set_stacks l (s :: sts), [LayoutAll])) /\
  (stacks l = [] -> StackLayout.rotate l = (l, [LayoutAll])) /\
  (forall j, j <= length (stacks l) ->
     stacks (rotate_n j l)
     = drop (length (stacks l) - j) (stacks l) ++ take (length (stacks l) - j) (stacks l)) /\
  rotate_n (length (stacks l)) l = l.
Proof.
  split_and!.
  - intros sts s E. unfold StackLayout.rotate. rewrite E, last_snoc.
    rewrite length_app. simpl.
    replace (length sts + 1 - 1) with (length sts) by lia.
    by rewrite take_app_length.
  - intros E. unfold StackLayout.rotate. by rewrite E.
  - intros j Hj. by apply rotate_n_stacks.
  - destruct (rotate_n_stacks (length (stacks l)) l) as [H1 H2]; [done|].
    rewrite Nat.sub_diag in H1. simpl in H1. rewrite app_nil_r in H1.
    change (drop 0 (stacks l)) with (stacks l) in H1.
    rewrite <- (set_stacks_id (rotate_n (length (stacks l)) l)). by rewrite H1.
Qed.

Section add_remove_facts.
Implicit Types (sts : list _WinStack) (s t : _WinStack) (c : client) (l : Stack)
  (w : option client).

(** [add_client] changes one stack that exists. *)
Lemma add_client_target w c l :
  stacks l <> [] ->
  exists k s,
    stacks l !! k = Some s /\
    StackLayout.add_client w c l
    = Ok (set_stacks l (<[k := ClientList.add_client c s]> (stacks l))).
Proof.
  intros Hne. unfold StackLayout.add_client.
  destruct (list_find _ (stacks l)) as [[k s]|] eqn:E.
  - apply list_find_Some in E as (Hk & _). exists k, s.
    by rewrite (alter_insert _ _ _ _ Hk).
  - destruct (fair l).
    + destruct (min_index ClientList.len (stacks l)) as [k|] eqn:Em.
      * apply min_index_spec in Em as (s & Hk & _). exists k, s.
        by rewrite (alter_insert _ _ _ _ Hk).
      * unfold min_index in Em. by destruct (stacks l).
    + destruct (current_stack_Ok w l Hne) as (s & -> & Hk). simpl.
      exists (StackLayout.current_stack_offset w l), s.
      by rewrite (alter_insert _ _ _ _ Hk).
Qed.

Lemma index_of_middle c (xs ys : list client) :
  c ∉ xs -> index_of c (xs ++ c :: ys) = Some (length xs).
Proof.
  intros Hc. unfold index_of.
  rewrite list_find_app_r by (by apply index_of_None in Hc; apply fmap_None in Hc).
  simpl. by rewrite decide_True by done.
Qed.

(** Removing a client just added gives the members back, in their
    order. *)
Lemma clients_remove_add c s :
  c ∉ clients s -> clients (ClientList.remove c (ClientList.add_client c s)) = clients s.
Proof.
  intros Hc. rewrite clients_remove, clients_add_client.
  destruct (clients s) as [|a cs] eqn:E.
  - change [c] with ([] ++ c :: []) at 1. by rewrite (index_of_middle c [] [] Hc).
  - set (p := S (ClientList.position s)).
    assert (c ∉ take p (a :: cs)) as Hp.
    { intros Hin. apply Hc. eapply elem_of_sublist; [exact Hin | apply sublist_take]. }
    rewrite (index_of_middle _ _ _ Hp), delete_middle. apply take_drop.
Qed.

Lemma split_add_client c s : split (ClientList.add_client c s) = split s.
Proof. unfold ClientList.add_client. by rewrite split_focus. Qed.

Lemma split_remove c s : split (ClientList.remove c s) = split s.
Proof. unfold ClientList.remove. by destruct (index_of c (clients s)). Qed.

Lemma members_insert_add c k s sts :
  sts !! k = Some s ->
  members (<[k := ClientList.add_client c s]> sts) ≡ₚ c :: members sts.
Proof.
  intros Hk. rewrite <- (alter_insert (ClientList.add_client c) _ _ _ Hk).
  apply members_alter_add. by eapply lookup_lt_Some.
Qed.

End add_remove_facts.

(** X3. [add_client] never raises on a layout with a stack: it puts the
    client into one stack, once, where the client becomes the current
    one, and leaves the other stacks and the number of stacks as they
    are. *)
Theorem add_client_adds_once w c l :
  stacks l <> [] ->
  exists l' k s,
    StackLayout.add_client w c l = Ok l' /\
    stacks l !! k = Some s /\
    stacks l' = <[k := ClientList.add_client c s]> (stacks l) /\
    (forall j, j <> k -> stacks l' !! j = stacks l !! j) /\
    length (stacks l') = length (stacks l) /\
    StackLayout.clients l' ≡ₚ c :: StackLayout.clients l /\
    (exists s', stacks l' !! k = Some s' /\ clients s' ≡ₚ c :: clients s /\ cw s' = Some c).
Proof.
  intros Hne. destruct (add_client_target w c l Hne) as (k & s & Hk & Hrun).
  eexists _, k, s. split; [exact Hrun|]. simpl.
  assert (k < length (stacks l)) by (by eapply lookup_lt_Some).
  split_and!; try done.
  - intros j Hj. by rewrite list_lookup_insert_ne.
  - apply length_insert.
  - rewrite !clients_members. simpl. by apply members_insert_add.
  - exists (ClientList.add_client c s). split_and!.
    + by apply list_lookup_insert_eq.
    + apply clients_add_client_perm.
    + apply cw_add_client.
Qed.

Lemma add_client_adds_once_witness :
  exists l',
    StackLayout.add_client (Some 3) 4
      (sample_layout 2 false [stack_of [1; 3] 1; stack_of [2] 0]) = Ok l' /\
    StackLayout.clients l' ≡ₚ 4 :: [1; 3; 2].
Proof.
  destruct (add_client_adds_once (Some 3) 4
              (sample_layout 2 false [stack_of [1; 3] 1; stack_of [2] 0]))
    as (l' & k & s & Hrun & _ & _ & _ & _ & Hp & _); [discriminate|].
  exists l'. split; [exact Hrun | exact Hp].
Defined.

(** X4. Adding a client that the layout does not have and removing it
    again gives every stack its members back, in their order, and its
    split flag, whatever the group's current window is at either call. *)
Theorem add_client_remove_round_trip w w' c l :
  stacks l <> [] -> c ∉ StackLayout.clients l ->
  exists l1 l2 r,
    StackLayout.add_client w c l = Ok l1 /\
    StackLayout.remove w' c l1 = Ok (l2, r) /\
    clients <$> stacks l2 = clients <$> stacks l /\
    split <$> stacks l2 = split <$> stacks l.
Proof.
  intros Hne Hc. rewrite clients_members in Hc.
  destruct (add_client_target w c l Hne) as (k & s & Hk & Hrun).
  set (l1 := set_stacks l (<[k := ClientList.add_client c s]> (stacks l))) in *.
  assert (k < length (stacks l)) as Hlt by (by eapply lookup_lt_Some).
  assert (stacks l1 <> []) as Hne1.
  { simpl. intros E. apply (f_equal length) in E. rewrite length_insert in E.
    simpl in E. lia. }
  destruct (remove_total w' c l1 Hne1) as (l2 & r & Hrem).
  exists l1, l2, r. split; [done|]. split; [done|].
  apply remove_stacks in Hrem as Hst.
  assert (list_find (ClientList.contains c) (stacks l1)
          = Some (k, ClientList.add_client c s)) as Hfind.
  { apply list_find_Some. split_and!.
    - simpl. by apply list_lookup_insert_eq.
    - unfold ClientList.contains. rewrite clients_add_client_perm. left.
    - intros j u Hj Hjk Hu. simpl in Hj.
      rewrite list_lookup_insert_ne in Hj by lia.
      apply Hc, elem_of_members. by exists j, u. }
  rewrite Hfind in Hst. rewrite Hst. simpl.
  rewrite (alter_insert _ k _ (ClientList.add_client c s))
    by (by apply list_lookup_insert_eq).
  rewrite list_insert_insert_eq.
  assert (c ∉ clients s) as Hcs.
  { intros Hin. apply Hc, elem_of_members. by exists k, s. }
  split.
  - rewrite list_fmap_insert, (clients_remove_add _ _ Hcs).
    rewrite <- list_fmap_insert. by rewrite list_insert_id.
  - rewrite list_fmap_insert, split_remove, split_add_client.
    rewrite <- list_fmap_insert. by rewrite list_insert_id.
Qed.

Lemma add_client_remove_round_trip_witness :
  exists l1 l2 r,
    StackLayout.add_client (Some 3) 4
      (sample_layout 2 false [stack_of [1; 3] 1; stack_of [2] 0]) = Ok l1 /\
    StackLayout.remove (Some 4) 4 l1 = Ok (l2, r) /\
    clients <$> stacks l2 = [[1; 3]; [2]].
Proof.
  destruct (add_client_remove_round_trip (Some 3) (Some 4) 4
              (sample_layout 2 false [stack_of [1; 3] 1; stack_of [2] 0]))
    as (l1 & l2 & r & H1 & H2 & H3 & _).
  - discriminate.
  - by apply (bool_decide_unpack _).
  - exists l1, l2, r. split_and!; [exact H1 | exact H2 | exact H3].
Defined.

Section round_robin_facts.
Implicit Types (sts : list _WinStack) (s t : _WinStack) (c : client) (l : Stack)
  (w : option client).

Lemma length_add_client c s :
  length (clients (ClientList.add_client c s)) = S (length (clients s)).
Proof. by rewrite clients_add_client_perm. Qed.

Lemma succ_div_mod n k :
  0 < k ->
  (S (n `mod` k) < k /\ S n / k = n / k /\ S n `mod` k = S (n `mod` k)) \/
  (S (n `mod` k) = k /\ S n / k = S (n / k) /\ S n `mod` k = 0).
Proof.
  intros Hk.
  pose proof (Nat.div_mod_eq n k) as Hn.
  pose proof (Nat.mod_upper_bound n k ltac:(lia)) as Hr.
  destruct (decide (S (n `mod` k) < k)) as [Hlt|Hge].
  - left. split; [done|]. split.
    + symmetry. apply (Nat.div_unique (S n) k (n / k) (S (n `mod` k))); lia.
    + symmetry. apply (Nat.mod_unique (S n) k (n / k) (S (n `mod` k))); lia.
  - right. split; [lia|]. split.
    + symmetry. apply (Nat.div_unique (S n) k (S (n / k)) 0); lia.
    + symmetry. apply (Nat.mod_unique (S n) k (S (n / k)) 0); lia.
Qed.

(** With [fair] set and the stacks filled in turn so far, the next client
    goes to the stack whose turn it is. *)
Lemma add_client_round_robin w c l n :
  fair l = true -> stacks l <> [] -> round_robin_sizes n (stacks l) ->
  exists s,
    stacks l !! (n `mod` length (stacks l)) = Some s /\
    StackLayout.add_client w c l
    = Ok (set_stacks l (<[n `mod` length (stacks l) := ClientList.add_client c s]> (stacks l))) /\
    round_robin_sizes (S n)
      (<[n `mod` length (stacks l) := ClientList.add_client c s]> (stacks l)).
Proof.
  intros Hfair Hne Hrr. unfold round_robin_sizes in *.
  assert (0 < length (stacks l)) as Hk by (destruct (stacks l); simpl; [done | lia]).
  pose proof (succ_div_mod n (length (stacks l)) Hk) as Hsucc.
  pose proof (Nat.mod_upper_bound n (length (stacks l)) ltac:(lia)) as Hr.
  remember (length (stacks l)) as k eqn:Ek.
  remember (n `mod` k) as r eqn:Er. remember (n / k) as q eqn:Eq.
  destruct (lookup_lt_is_Some_2 (stacks l) r) as [s Hs]; [lia|].
  assert (length (clients s) = q) as Hlen.
  { rewrite (Hrr r s Hs). rewrite decide_False by lia. lia. }
  assert (forall j t, j < r -> stacks l !! j = Some t -> length (clients t) = S q) as Hbefore.
  { intros j t Hj Ht. rewrite (Hrr j t Ht). rewrite decide_True by done. lia. }
  assert (forall j t, stacks l !! j = Some t -> q <= length (clients t)) as Hall.
  { intros j t Ht. rewrite (Hrr j t Ht). lia. }
  exists s. split; [done|]. split.
  - unfold StackLayout.add_client. destruct (decide (q = 0)) as [Hq|Hq].
    + rewrite (proj2 (list_find_Some (fun i => ClientList.truthy i = false) (stacks l) r s)).
      * by rewrite (alter_insert _ _ _ _ Hs).
      * split_and!; [done | |].
        -- apply truthy_false. apply nil_length_inv. lia.
        -- intros j t Ht Hj Hf. apply truthy_false in Hf.
           pose proof (Hbefore j t Hj Ht) as Hl. rewrite Hf in Hl. simpl in Hl. lia.
    + rewrite (proj2 (list_find_None (fun i => ClientList.truthy i = false) (stacks l))).
      * rewrite Hfair.
        rewrite (min_index_first_smallest ClientList.len (stacks l) r).
        -- by rewrite (alter_insert _ _ _ _ Hs).
        -- exists s. unfold ClientList.len. split_and!; [done | |].
           ++ intros j t Ht. rewrite Hlen. by eapply Hall.
           ++ intros j t Hj Ht. rewrite Hlen, (Hbefore j t Hj Ht). lia.
      * apply Forall_lookup. intros j t Ht Hf. apply truthy_false in Hf.
        pose proof (Hall j t Ht) as Hl. rewrite Hf in Hl. simpl in Hl. lia.
  - intros i t Hi. rewrite length_insert, <- Ek.
    destruct Hsucc as [(H1 & E1 & E2) | (H1 & E1 & E2)]; rewrite E1, E2.
    + destruct (decide (i = r)) as [->|Hir].
      * rewrite list_lookup_insert_eq in Hi by lia. injection Hi as <-.
        rewrite length_add_client, Hlen, decide_True by lia. lia.
      * rewrite list_lookup_insert_ne in Hi by done.
        rewrite (Hrr i t Hi).
        destruct (decide (i < r)); [rewrite decide_True by lia | rewrite decide_False by lia];
          lia.
    + rewrite decide_False by lia.
      destruct (decide (i = r)) as [->|Hir].
      * rewrite list_lookup_insert_eq in Hi by lia. injection Hi as <-.
        rewrite length_add_client, Hlen. lia.
      * rewrite list_lookup_insert_ne in Hi by done.
        assert (i < k) by (rewrite Ek; by eapply lookup_lt_Some).
        rewrite (Hbefore i t); [lia | lia | done].
Qed.

(** A member of a stack stays in that stack when clients are added. *)
Lemma add_clients_keeps_members calls l l' i s d :
  add_clients calls l = Ok l' -> stacks l !! i = Some s -> d ∈ clients s ->
  exists s', stacks l' !! i = Some s' /\ d ∈ clients s'.
Proof.
  revert l s. induction calls as [|[w c] calls IH]; intros l s Hrun Hi Hd; simpl in Hrun.
  - injection Hrun as <-. eauto.
  - destruct (StackLayout.add_client w c l) as [l1|] eqn:E; [|done]. simpl in Hrun.
    apply add_client_stacks in E as [k E].
    destruct (decide (k = i)) as [->|Hk].
    + apply (IH l1 (ClientList.add_client c s) Hrun).
      * by rewrite E, list_lookup_alter_eq, Hi.
      * rewrite clients_add_client_perm. by right.
    + apply (IH l1 s Hrun); [|done]. by rewrite E, list_lookup_alter_ne.
Qed.

Lemma add_clients_round_robin calls l n :
  fair l = true -> stacks l <> [] -> round_robin_sizes n (stacks l) ->
  exists l',
    add_clients calls l = Ok l' /\
    length (stacks l') = length (stacks l) /\
    round_robin_sizes (n + length calls) (stacks l') /\
    forall m w c, calls !! m = Some (w, c) ->
      exists s, stacks l' !! ((n + m) `mod` length (stacks l)) = Some s /\ c ∈ clients s.
Proof.
  revert l n. induction calls as [|[w c] calls IH]; intros l n Hfair Hne Hrr.
  - exists l. simpl. rewrite Nat.add_0_r. split_and!; try done.
  - destruct (add_client_round_robin w c l n Hfair Hne Hrr) as (s & Hs & Hrun & Hrr').
    set (l1 := set_stacks l (<[n `mod` length (stacks l) := ClientList.add_client c s]> (stacks l)))
      in *.
    assert (length (stacks l1) = length (stacks l)) as Hlen by apply length_insert.
    assert (stacks l1 <> []) as Hne1.
    { intros E. rewrite E in Hlen. destruct (stacks l); simpl in *; [done | lia]. }
    destruct (IH l1 (S n) Hfair Hne1 Hrr') as (l' & Hrun' & Hlen' & Hrr'' & Hwhere).
    exists l'. simpl. rewrite Hrun. simpl.
    split_and!; [done | lia | by rewrite Nat.add_succ_r |].
    intros [|m] w0 c0 Hm; simpl in Hm.
    + injection Hm as -> ->. rewrite Nat.add_0_r.
      apply (add_clients_keeps_members calls l1 l' _ (ClientList.add_client c0 s)); [done | |].
      * simpl. apply list_lookup_insert_eq. by eapply lookup_lt_Some.
      * rewrite clients_add_client_perm. left.
    + rewrite Nat.add_succ_r. rewrite <- Hlen. by eapply Hwhere.
Qed.

End round_robin_facts.

(** X5. With [fair] set, clients added to a new layout are dealt out to
    the stacks in turn: [add_client] never raises, the client of the call
    number [m] (from 0) is in stack [m mod k], and after [n] calls every
    stack has [n / k] members and the first [n mod k] stacks one more, so
    that two stacks never differ by more than one member. *)
Theorem add_client_fair_round_robin cfg l0 calls :
  StackLayout.cfg_fair cfg = true ->
  StackLayout.__init__ cfg = Ok l0 ->
  let k := length (stacks l0) in
  let n := length calls in
  exists l,
    add_clients calls l0 = Ok l /\
    length (stacks l) = k /\
    (forall i s, stacks l !! i = Some s ->
       length (clients s) = n / k + (if decide (i < n `mod` k) then 1 else 0)) /\
    (forall m w c, calls !! m = Some (w, c) ->
       exists s, stacks l !! (m `mod` k) = Some s /\ c ∈ clients s) /\
    (forall s t, s ∈ stacks l -> t ∈ stacks l ->
       length (clients s) <= S (length (clients t))).
Proof.
  intros Hfair Hinit k n.
  assert (fair l0 = true) as Hf.
  { unfold StackLayout.__init__ in Hinit.
    destruct (StackLayout.cfg_num_stacks cfg <=? 0)%Z; [done|].
    injection Hinit as <-. done. }
  apply init_Ok in Hinit as [Hpos Hst].
  assert (stacks l0 <> []) as Hne.
  { rewrite Hst. intros E. apply (f_equal length) in E.
    rewrite length_fmap, length_seq in E. simpl in E. lia. }
  assert (round_robin_sizes 0 (stacks l0)) as Hrr.
  { intros i s Hi. rewrite Hst in Hi. apply list_lookup_fmap_Some in Hi as (j & -> & _).
    simpl. rewrite Nat.Div0.div_0_l, Nat.Div0.mod_0_l. by rewrite decide_False by lia. }
  destruct (add_clients_round_robin calls l0 0 Hf Hne Hrr) as (l & Hrun & Hlen & Hsz & Hwhere).
  exists l. fold k in Hlen, Hwhere. simpl in Hsz. fold n in Hsz.
  assert (forall i s, stacks l !! i = Some s ->
            length (clients s) = n / k + (if decide (i < n `mod` k) then 1 else 0)) as Hsizes.
  { intros i s Hi. rewrite (Hsz i s Hi). by rewrite Hlen. }
  split_and!; try done.
  intros s t Hs Ht.
  apply list_elem_of_lookup in Hs as [i Hi]. apply list_elem_of_lookup in Ht as [j Hj].
  rewrite (Hsizes i s Hi), (Hsizes j t Hj).
  destruct (decide (i < _)), (decide (j < _)); lia.
Qed.

Lemma add_client_fair_round_robin_witness :
  exists l,
    add_clients [(None, 1); (Some 1, 2); (Some 2, 3); (Some 3, 4); (Some 4, 5)]
      (sample_layout 3 true [stack_of [] 0; stack_of [] 0; stack_of [] 0]) = Ok l /\
    (exists s, stacks l !! (4 `mod` 3) = Some s /\ 5 ∈ clients s).
Proof.
  destruct (add_client_fair_round_robin (sample_config 3 true) _
              [(None, 1); (Some 1, 2); (Some 2, 3); (Some 3, 4); (Some 4, 5)]
              eq_refl eq_refl)
    as (l & Hrun & _ & _ & Hwhere & _).
  exists l. split; [exact Hrun|]. exact (Hwhere 4 (Some 4) 5 eq_refl).
Defined.

(** X6. On every layout [add] appends one empty stack, with the split
    flag of [autosplit], keeps the settings, the stacks and the clients
    there are, and asks for a new layout pass.  When no other stack is
    empty the next client [add_client] gets goes to the new stack, also
    with [fair] set and whatever the current stack is. *)
Theorem add_then_add_client w c l :
  let e := {| clients := []; current_index := 0; split := autosplit l |} in
  StackLayout.add l = (set_stacks l (stacks l ++ [e]), [LayoutAll]) /\
  StackLayout.clients (StackLayout.add l).1 = StackLayout.clients l /\
  (Forall (fun s => clients s <> []) (stacks l) ->
   StackLayout.add_client w c (StackLayout.add l).1
   = Ok (set_stacks l (stacks l ++ [ClientList.add_client c e]))) /\
  clients (ClientList.add_client c e) = [c].
Proof.
  intros e.
  assert (StackLayout.add l = (set_stacks l (stacks l ++ [e]), [LayoutAll])) as Hadd.
  { unfold StackLayout.add, e, new_WinStack. by destruct (autosplit l). }
  rewrite Hadd. simpl. split_and!; [done | | | by apply clients_add_client_nil].
  - rewrite !clients_members. simpl. rewrite members_app. simpl. by rewrite app_nil_r.
  - intros Hall. unfold StackLayout.add_client. simpl.
    rewrite (proj2 (list_find_Some (fun i => ClientList.truthy i = false)
                      (stacks l ++ [e]) (length (stacks l)) e)).
    + rewrite alter_app_r_alt by done. by rewrite Nat.sub_diag.
    + split_and!; [| done |].
      * by rewrite lookup_app_r, Nat.sub_diag by done.
      * intros j t Hj Hlt Hf. rewrite lookup_app_l in Hj by done.
        apply truthy_false in Hf. eapply Forall_lookup in Hall; [|exact Hj]. done.
Qed.

Lemma add_then_add_client_witness :
  StackLayout.add_client (Some 1) 4
    (StackLayout.add (sample_layout 2 true [stack_of [1; 3] 1; stack_of [2] 0])).1
  = Ok (sample_layout 2 true [stack_of [1; 3] 1; stack_of [2] 0; stack_of [4] 0]).
Proof.
  destruct (add_then_add_client (Some 1) 4
              (sample_layout 2 true [stack_of [1; 3] 1; stack_of [2] 0]))
    as (_ & _ & H & _).
  rewrite H; [reflexivity|].
  repeat constructor; discriminate.
Defined.

(** X7. On a layout with a stack [current_stack] never raises.  It is the
    first stack that has the group's current window, and stack 0 when the
    group has no current window or no stack has it; with no stack at all
    it raises [IndexError]. *)
Theorem current_stack_holds_window w l :
  (stacks l <> [] ->
   exists s,
     StackLayout.current_stack w l = Ok s /\
     stacks l !! StackLayout.current_stack_offset w l = Some s /\
     StackLayout.current_stack_offset w l < length (stacks l) /\
     (forall c, w = Some c -> c ∈ StackLayout.clients l ->
        c ∈ clients s /\
        forall j u, j < StackLayout.current_stack_offset w l ->
                    stacks l !! j = Some u -> c ∉ clients u) /\
     (forall c, w = Some c -> c ∉ StackLayout.clients l ->
        StackLayout.current_stack_offset w l = 0) /\
     (w = None -> StackLayout.current_stack_offset w l = 0)) /\
  (stacks l = [] -> StackLayout.current_stack w l = Raise IndexError).
Proof.
  split.
  - intros Hne. destruct (current_stack_Ok w l Hne) as (s & Hcs & Hs).
    exists s. split_and!; try done.
    + by apply current_stack_offset_lt.
    + intros c -> Hc. rewrite clients_members in Hc.
      unfold StackLayout.current_stack_offset in *.
      destruct (list_find (ClientList.contains c) (stacks l)) as [[i t]|] eqn:E.
      * apply list_find_Some in E as (Hi & Hct & Hfst).
        rewrite Hi in Hs. injection Hs as <-. split; [done|].
        intros j u Hj Hu Hcu. by apply (Hfst j u).
      * exfalso. apply elem_of_members in Hc as (j & u & Hu & Hcu).
        apply list_find_None in E. eapply Forall_lookup in E; [|exact Hu]. done.
    + intros c -> Hc. rewrite clients_members in Hc.
      unfold StackLayout.current_stack_offset.
      destruct (list_find (ClientList.contains c) (stacks l)) as [[i t]|] eqn:E; [|done].
      exfalso. apply list_find_Some in E as (Hi & Hct & _).
      apply Hc, elem_of_members. by exists i, t.
    + by intros ->.
  - intros E. unfold StackLayout.current_stack. by rewrite E, lookup_nil.
Qed.

Lemma current_stack_holds_window_witness :
  exists s,
    StackLayout.current_stack (Some 2)
      (sample_layout 2 true [stack_of [1; 3] 1; stack_of [2] 0]) = Ok s /\
    2 ∈ clients s.
Proof.
  destruct (proj1 (current_stack_holds_window (Some 2)
                     (sample_layout 2 true [stack_of [1; 3] 1; stack_of [2] 0])))
    as (s & Hcs & _ & _ & Hin & _); [discriminate|].
  exists s. split; [exact Hcs|].
  apply (Hin 2 eq_refl). by apply (bool_decide_unpack _).
Defined.

Section delete_facts.
Implicit Types (l : Stack) (w : option client).

Lemma deletes_spec ws l :
  exists l',
    deletes ws l = Ok l' /\
    length (stacks l') = (length (stacks l) - length ws) `max` (length (stacks l) `min` 1) /\
    members (stacks l') ≡ₚ members (stacks l).
Proof.
  revert l. induction ws as [|w ws IH]; intros l; simpl.
  - exists l. split_and!; [done | lia | done].
  - unfold StackLayout.delete.
    destruct (delete_current_stack_total w l) as (l1 & ev & Hrun).
    rewrite Hrun. simpl.
    pose proof (delete_current_stack_length _ _ _ _ Hrun) as Hlen.
    pose proof (delete_current_stack_perm _ _ _ _ Hrun) as Hperm.
    destruct (IH l1) as (l' & Hrun' & Hlen' & Hperm').
    exists l'. split_and!; [done | | by rewrite Hperm'].
    rewrite Hlen', Hlen. case_decide; lia.
Qed.

End delete_facts.

(** X8. [delete] never raises, and called again and again it takes the
    stacks away one by one until one is left, which it keeps: after the
    calls of [ws] there are [max(len(stacks) - len(ws), 1)] stacks, and
    they hold the same clients as before, none lost and none twice. *)
Theorem deletes_keep_clients ws l :
  stacks l <> [] ->
  exists l',
    deletes ws l = Ok l' /\
    length (stacks l') = (length (stacks l) - length ws) `max` 1 /\
    StackLayout.clients l' ≡ₚ StackLayout.clients l /\
    (length (stacks l) - 1 <= length ws ->
     exists s, stacks l' = [s] /\ clients s ≡ₚ StackLayout.clients l).
Proof.
  intros Hne.
  assert (0 < length (stacks l)) by (destruct (stacks l); simpl; [done | lia]).
  destruct (deletes_spec ws l) as (l' & Hrun & Hlen & Hperm).
  exists l'. rewrite !clients_members. split_and!; [done | lia | done |].
  intros Hws. destruct (stacks l') as [|s [|t sts]] eqn:E; simpl in Hlen; try lia.
  exists s. split; [done|]. rewrite <- Hperm. unfold members. simpl.
  by rewrite app_nil_r.
Qed.

Lemma deletes_keep_clients_witness :
  exists l',
    deletes [Some 2; None; Some 1]
      (sample_layout 3 false [stack_of [1] 0; stack_of [2] 0; stack_of [3] 0]) = Ok l' /\
    exists s, stacks l' = [s] /\ clients s ≡ₚ [1; 2; 3].
Proof.
  destruct (deletes_keep_clients [Some 2; None; Some 1]
              (sample_layout 3 false [stack_of [1] 0; stack_of [2] 0; stack_of [3] 0]))
    as (l' & Hrun & _ & _ & Hone); [discriminate|].
  exists l'. split; [exact Hrun|]. apply Hone. simpl. lia.
Defined.

(** X9. On a layout with a stack [client_to_stack] never raises, for any
    integer [n] and any current window of the group; it keeps the number
    of stacks and the clients of the layout, none lost and none twice. *)
Theorem client_to_stack_keeps_clients w n l :
  stacks l <> [] ->
  exists l' ev,
    StackLayout.client_to_stack w n l = Ok (l', ev) /\
    length (stacks l') = length (stacks l) /\
    StackLayout.clients l' ≡ₚ StackLayout.clients l /\
    (ev = [] \/ ev = [LayoutAll]).
Proof.
  intros Hne. destruct (client_to_stack_total w n l Hne) as (l' & ev & Hrun).
  exists l', ev. rewrite !clients_members. split_and!; [done | | |].
  - by eapply client_to_stack_length.
  - by eapply client_to_stack_perm.
  - apply client_to_stack_stacks in Hrun as [(_ & -> & _) | (cs & win & t & H)].
    + by left.
    + right. simpl in H. by destruct H as (_ & _ & _ & _ & _ & ->).
Qed.

Lemma client_to_stack_keeps_clients_witness :
  exists l' ev,
    StackLayout.client_to_stack (Some 3) 7
      (sample_layout 2 true [stack_of [1; 3] 1; stack_of [2] 0]) = Ok (l', ev) /\
    StackLayout.clients l' ≡ₚ [1; 3; 2].
Proof.
  destruct (client_to_stack_keeps_clients (Some 3) 7
              (sample_layout 2 true [stack_of [1; 3] 1; stack_of [2] 0]))
    as (l' & ev & Hrun & _ & Hp & _); [discriminate|].
  exists l', ev. split; [exact Hrun | exact Hp].
Defined.

Section placement_facts.
Implicit Types (c : client) (l : Stack) (s : _WinStack) (r : ScreenRect).

(** What a [place] call of [configure] carries: the column width and,
    in a split stack, the row height are the quotients [int] gave. *)
Lemma configure_place_inv c has_focus r l evs c' px py w h bw col m :
  StackLayout.configure c has_focus r l = Ok evs ->
  Place c' px py w h bw col m ∈ evs ->
  exists i s row column_width,
    list_find (ClientList.contains c) (stacks l) = Some (i, s) /\
    index_of c (clients s) = Some row /\
    c' = c /\ bw = border_width l /\
    int_div (width r) (Z.of_nat (length (stacks l))) = Ok column_width /\
    px = (x r + Z.of_nat i * column_width)%Z /\
    w = (column_width - 2 * border_width l)%Z /\
    ((split s = true /\
      exists column_height,
        int_div (height r) (Z.of_nat (length (clients s))) = Ok column_height /\
        py = (y r + Z.of_nat row * column_height)%Z /\
        h = (column_height - 2 * border_width l)%Z) \/
     (split s = false /\ cw s = Some c /\
      py = y r /\ h = (height r - 2 * border_width l)%Z)).
Proof.
  intros Hcfg Hin.
  destruct (list_find (ClientList.contains c) (stacks l)) as [[i s]|] eqn:Hfind.
  - destruct (configure_found c has_focus r l i s Hfind) as (row & Hrow & Hrun).
    rewrite Hcfg in Hrun.
    destruct (int_div (width r) _) as [column_width|] eqn:Ew; [simpl in Hrun|done].
    exists i, s, row, column_width.
    destruct (split s) eqn:Hsp;
      [destruct (int_div (height r) _) as [column_height|] eqn:Eh; [simpl in Hrun|done]
      |case_decide as Hcw]; injection Hrun as ->.
    + apply elem_of_cons in Hin as [Hin|Hin]; [|by apply list_elem_of_singleton in Hin].
      injection Hin as -> -> -> -> -> -> ->. split_and!; try done.
      left. split; [done|]. by exists column_height.
    + apply elem_of_cons in Hin as [Hin|Hin]; [|by apply list_elem_of_singleton in Hin].
      injection Hin as -> -> -> -> -> -> ->. split_and!; try done. by right.
    + by apply list_elem_of_singleton in Hin.
  - unfold StackLayout.configure in Hcfg. rewrite Hfind in Hcfg.
    injection Hcfg as <-. by apply list_elem_of_singleton in Hin.
Qed.

Lemma quot_column a (k i : nat) :
  (0 <= a)%Z -> i < k ->
  (0 <= Z.quot a (Z.of_nat k))%Z /\
  ((Z.of_nat i + 1) * Z.quot a (Z.of_nat k) <= a)%Z.
Proof.
  intros Ha Hi.
  assert (0 < Z.of_nat k)%Z as Hk by lia.
  rewrite Z.quot_div_nonneg by lia.
  pose proof (Z.mul_div_le a (Z.of_nat k) Hk).
  pose proof (Z.div_pos a (Z.of_nat k) Ha Hk).
  split; [done | nia].
Qed.

(** What [configure] can raise: nothing but the [OverflowError] of a
    division, and that only from a size of 2^53 on. *)
Lemma configure_raise_inv c has_focus r l e :
  StackLayout.configure c has_focus r l = Raise e ->
  e = OverflowError /\
  (exists i s, list_find (ClientList.contains c) (stacks l) = Some (i, s)) /\
  (2 ^ 53 <= Z.abs (width r) \/ 2 ^ 53 <= Z.abs (height r))%Z.
Proof.
  intros Hcfg.
  destruct (list_find (ClientList.contains c) (stacks l)) as [[i s]|] eqn:Hfind.
  - destruct (configure_found c has_focus r l i s Hfind) as (row & Hrow & Hrun).
    destruct (configure_divisors c l i s Hfind) as [Hk Hn].
    rewrite Hcfg in Hrun.
    destruct (int_div (width r) _) as [column_width|e1] eqn:Ew; simpl in Hrun.
    + destruct (split s); [|by case_decide].
      destruct (int_div (height r) _) as [column_height|e2] eqn:Eh; [done|].
      simpl in Hrun. injection Hrun as ->.
      apply int_div_raises in Eh as [[? _] | [? ->]]; [lia|].
      split_and!; [done | by exists i, s | by right].
    + injection Hrun as ->.
      apply int_div_raises in Ew as [[? _] | [? ->]]; [lia|].
      split_and!; [done | by exists i, s | by left].
  - unfold StackLayout.configure in Hcfg. by rewrite Hfind in Hcfg.
Qed.

End placement_facts.

(** X10. [configure] raises nothing but [OverflowError], for a client of
    the layout and a rectangle with a size of 2^53 or more in absolute
    value, where the true division leaves the range of a double.  It
    does not raise for a client of no stack, which it hides, nor on a
    rectangle with sizes below 2^53: there a client of a split stack, and
    the current client of a stack that is not split, is placed once and
    then unhidden, and any other member is hidden. *)
Theorem configure_total c has_focus r l :
  (c ∉ StackLayout.clients l -> StackLayout.configure c has_focus r l = Ok [Hide c]) /\
  ((Z.abs (width r) < 2 ^ 53)%Z -> (Z.abs (height r) < 2 ^ 53)%Z ->
   exists evs,
     StackLayout.configure c has_focus r l = Ok evs /\
     (c ∈ StackLayout.clients l ->
      exists i s,
        list_find (ClientList.contains c) (stacks l) = Some (i, s) /\
        if split s || bool_decide (cw s = Some c)
        then exists px py w h,
               evs = [Place c px py w h (border_width l)
                        (StackLayout.border_colour has_focus s l) (margin l);
                      Unhide c]
        else evs = [Hide c])) /\
  (forall e,
     StackLayout.configure c has_focus r l = Raise e ->
     e = OverflowError /\ c ∈ StackLayout.clients l /\
     (2 ^ 53 <= Z.abs (width r) \/ 2 ^ 53 <= Z.abs (height r))%Z).
Proof.
  assert (forall i s, list_find (ClientList.contains c) (stacks l) = Some (i, s) ->
                      c ∈ StackLayout.clients l) as Hmem.
  { intros i s Hfind. apply list_find_Some in Hfind as (Hi & Hc & _).
    rewrite clients_members. apply elem_of_members. by exists i, s. }
  assert (list_find (ClientList.contains c) (stacks l) = None ->
          c ∉ StackLayout.clients l) as Hnone.
  { intros Hfind Hin. rewrite clients_members in Hin.
    apply elem_of_members in Hin as (j & u & Hu & Hcu).
    apply list_find_None in Hfind. eapply Forall_lookup in Hfind; [|exact Hu]. done. }
  split_and!.
  - intros Hnin.
    destruct (list_find (ClientList.contains c) (stacks l)) as [[i s]|] eqn:Hfind.
    + by destruct Hnin; apply (Hmem i s).
    + unfold StackLayout.configure. by rewrite Hfind.
  - intros Hw Hh.
    destruct (list_find (ClientList.contains c) (stacks l)) as [[i s]|] eqn:Hfind.
    + destruct (configure_found_exact c has_focus r l i s Hw Hh Hfind)
        as (row & Hrow & Hrun).
      rewrite Hrun.
      destruct (split s) eqn:Hsp; [|case_decide as Hcw]; eexists; (split; [reflexivity|]);
        intros _; exists i, s; (split; [done|]); rewrite Hsp; simpl.
      * by eexists _, _, _, _.
      * rewrite bool_decide_eq_true_2 by done. by eexists _, _, _, _.
      * rewrite bool_decide_eq_false_2 by done. done.
    + unfold StackLayout.configure. rewrite Hfind.
      eexists. split; [reflexivity|]. intros Hin. by destruct (Hnone eq_refl).
  - intros e Hcfg.
    destruct (configure_raise_inv _ _ _ _ _ Hcfg) as (-> & (i & s & Hfind) & Hbig).
    split_and!; [done | by apply (Hmem i s) | done].
Qed.

Lemma configure_total_witness :
  StackLayout.configure 1 false {| x := 0; y := 0; width := 100; height := 60 |}
    (sample_layout 2 false [stack_of [1; 3] 1; stack_of [2] 0])
  = Ok [Hide 1] /\
  StackLayout.configure 7 false {| x := 0; y := 0; width := 100; height := 60 |}
    (sample_layout 2 false [stack_of [1; 3] 1; stack_of [2] 0])
  = Ok [Hide 7] /\
  StackLayout.configure 1 false {| x := 0; y := 0; width := 10 ^ 400; height := 60 |}
    (sample_layout 2 false [stack_of [1; 3] 1; stack_of [2] 0])
  = Raise OverflowError.
Proof.
  split_and!.
  - destruct (proj1 (proj2 (configure_total 1 false
                              {| x := 0; y := 0; width := 100; height := 60 |}
                              (sample_layout 2 false [stack_of [1; 3] 1; stack_of [2] 0]))))
      as (evs & Hrun & Hcls); [by apply (bool_decide_unpack _) ..|].
    destruct Hcls as (i & s & Hfind & Hev); [by apply (bool_decide_unpack _)|].
    injection Hfind as <- <-. simpl in Hev. by rewrite Hrun, Hev.
  - apply (proj1 (configure_total 7 false
                    {| x := 0; y := 0; width := 100; height := 60 |}
                    (sample_layout 2 false [stack_of [1; 3] 1; stack_of [2] 0]))).
    by apply (bool_decide_unpack _).
  - destruct (StackLayout.configure 1 false
                {| x := 0; y := 0; width := 10 ^ 400; height := 60 |}
                (sample_layout 2 false [stack_of [1; 3] 1; stack_of [2] 0]))
      as [evs|e] eqn:Hrun; [by vm_compute in Hrun|].
    by destruct (proj2 (proj2 (configure_total 1 false
                                 {| x := 0; y := 0; width := 10 ^ 400; height := 60 |}
                                 (sample_layout 2 false [stack_of [1; 3] 1; stack_of [2] 0])))
                  e Hrun) as (-> & _).
Defined.

(** X11. On a rectangle whose width and height are not negative and
    below 2^53 every window [configure] places lies inside the rectangle,
    its borders included: it starts at or after the left and top edges
    and ends at or before the right and bottom edges. *)
Theorem configure_inside_screen c has_focus r l evs c' px py w h bw col m :
  (0 <= width r < 2 ^ 53)%Z -> (0 <= height r < 2 ^ 53)%Z ->
  StackLayout.configure c has_focus r l = Ok evs ->
  Place c' px py w h bw col m ∈ evs ->
  (x r <= px /\ px + (w + 2 * bw) <= x r + width r)%Z /\
  (y r <= py /\ py + (h + 2 * bw) <= y r + height r)%Z.
Proof.
  intros Hw Hh Hcfg Hin.
  destruct (configure_place_inv _ _ _ _ _ _ _ _ _ _ _ _ _ Hcfg Hin)
    as (i & s & row & column_width & Hfind & Hrow & -> & -> & Ew & -> & -> & Hy).
  destruct (configure_divisors c l i s Hfind) as [Hk Hn].
  rewrite int_div_exact in Ew by lia. injection Ew as <-.
  apply list_find_Some in Hfind as (Hi & _ & _). apply lookup_lt_Some in Hi.
  destruct (quot_column (width r) (length (stacks l)) i (proj1 Hw) Hi) as [Hc0 Hc1].
  split; [nia|].
  destruct Hy as [(_ & column_height & Eh & -> & ->) | (_ & _ & -> & ->)]; [|lia].
  rewrite int_div_exact in Eh by lia. injection Eh as <-.
  apply index_of_Some, lookup_lt_Some in Hrow.
  destruct (quot_column (height r) (length (clients s)) row (proj1 Hh) Hrow) as [Hr0 Hr1].
  nia.
Qed.

Lemma configure_inside_screen_witness :
  (10 <= 60 /\ 60 + (48 + 2 * 1) <= 10 + 100)%Z /\
  (20 <= 20 /\ 20 + (58 + 2 * 1) <= 20 + 60)%Z.
Proof.
  apply (configure_inside_screen 2 false {| x := 10; y := 20; width := 100; height := 60 |}
           (sample_layout 2 true [stack_of [1; 3] 1; stack_of [2] 0])
           [Place 2 60 20 48 58 1 (Some (ColourStr "#000000")) (MarginInt 0); Unhide 2]
           2 60%Z 20%Z 48%Z 58%Z 1%Z (Some (ColourStr "#000000")) (MarginInt 0)).
  - by apply (bool_decide_unpack _).
  - by apply (bool_decide_unpack _).
  - reflexivity.
  - left.
Defined.

(** X12. On a rectangle whose width and height are not negative the
    windows [configure] places do not overlap: a window of a stack ends, its
    borders included, at or before the x offset of a window of a later
    stack, and in a split stack a window ends at or before the y offset of
    the window of a later member. *)
Theorem configure_no_overlap has_focus1 has_focus2 r l c1 c2 i1 i2 s1 s2 evs1 evs2
    px1 py1 w1 h1 bw1 col1 m1 px2 py2 w2 h2 bw2 col2 m2 :
  (0 <= width r)%Z -> (0 <= height r)%Z ->
  list_find (ClientList.contains c1) (stacks l) = Some (i1, s1) ->
  list_find (ClientList.contains c2) (stacks l) = Some (i2, s2) ->
  StackLayout.configure c1 has_focus1 r l = Ok evs1 ->
  StackLayout.configure c2 has_focus2 r l = Ok evs2 ->
  Place c1 px1 py1 w1 h1 bw1 col1 m1 ∈ evs1 ->
  Place c2 px2 py2 w2 h2 bw2 col2 m2 ∈ evs2 ->
  (i1 < i2 -> (px1 + (w1 + 2 * bw1) <= px2)%Z) /\
  (i1 = i2 ->
   forall row1 row2,
     index_of c1 (clients s1) = Some row1 -> index_of c2 (clients s1) = Some row2 ->
     row1 < row2 -> (py1 + (h1 + 2 * bw1) <= py2)%Z).
Proof.
  intros Hw Hh Hf1 Hf2 Hcfg1 Hcfg2 Hin1 Hin2.
  destruct (configure_place_inv _ _ _ _ _ _ _ _ _ _ _ _ _ Hcfg1 Hin1)
    as (j1 & t1 & r1 & cw1 & Hfind1 & Hrow1 & _ & -> & Ew1 & -> & -> & Hy1).
  destruct (configure_place_inv _ _ _ _ _ _ _ _ _ _ _ _ _ Hcfg2 Hin2)
    as (j2 & t2 & r2 & cw2 & Hfind2 & Hrow2 & _ & -> & Ew2 & -> & -> & Hy2).
  rewrite Hf1 in Hfind1. rewrite Hf2 in Hfind2.
  injection Hfind1 as <- <-. injection Hfind2 as <- <-.
  rewrite Ew1 in Ew2. injection Ew2 as <-.
  destruct (configure_divisors c1 l i1 s1 Hf1) as [Hk Hn].
  pose proof (int_div_nonneg _ _ _ Hw Hk Ew1) as Hc0.
  apply list_find_Some in Hf1 as (Hi1 & _ & _). apply list_find_Some in Hf2 as (Hi2 & _ & _).
  split.
  - intros Hlt. nia.
  - intros -> row1 row2 Hr1 Hr2 Hrows.
    rewrite Hi1 in Hi2. injection Hi2 as <-.
    rewrite Hr1 in Hrow1. injection Hrow1 as <-.
    rewrite Hr2 in Hrow2. injection Hrow2 as <-.
    destruct Hy1 as [(Hsp1 & ch1 & Eh1 & -> & ->) | (Hsp1 & Hcw1 & _)],
             Hy2 as [(Hsp2 & ch2 & Eh2 & -> & ->) | (Hsp2 & Hcw2 & _)]; try congruence.
    + rewrite Eh1 in Eh2. injection Eh2 as <-.
      pose proof (int_div_nonneg _ _ _ Hh Hn Eh1) as Hr0. nia.
    + exfalso. rewrite Hcw1 in Hcw2. injection Hcw2 as ->.
      rewrite Hr1 in Hr2. injection Hr2 as ->. lia.
Qed.

Lemma configure_no_overlap_witness :
  (0 + (48 + 2 * 1) <= 50)%Z.
Proof.
  refine (proj1 (configure_no_overlap true false
                   {| x := 0; y := 0; width := 100; height := 60 |}
                   (sample_layout 2 true [stack_of [1; 3] 1; stack_of [2] 0])
                   3 2 0 1 (stack_of [1; 3] 1) (stack_of [2] 0)
                   [Place 3 0 0 48 58 1 (Some (ColourStr "#0000ff")) (MarginInt 0); Unhide 3]
                   [Place 2 50 0 48 58 1 (Some (ColourStr "#000000")) (MarginInt 0); Unhide 2]
                   0%Z 0%Z 48%Z 58%Z 1%Z (Some (ColourStr "#0000ff")) (MarginInt 0)
                   50%Z 0%Z 48%Z 58%Z 1%Z (Some (ColourStr "#000000")) (MarginInt 0)
                   _ _ eq_refl eq_refl eq_refl eq_refl _ _) _).
  - simpl. lia.
  - simpl. lia.
  - left.
  - left.
  - lia.
Defined.

Section focus_facts.
Implicit Types (sts : list _WinStack) (s t : _WinStack) (c : client) (l : Stack).

Lemma focus_stacks c l :
  stacks (StackLayout.focus c l)
  = (fun i => if decide (ClientList.contains c i) then ClientList.focus c i else i)
      <$> stacks l.
Proof. reflexivity. Qed.

Lemma clients_focus_if c s :
  clients (if decide (ClientList.contains c s) then ClientList.focus c s else s) = clients s.
Proof. case_decide; [apply clients_focus | done]. Qed.

Lemma focus_clients c l :
  clients <$> stacks (StackLayout.focus c l) = clients <$> stacks l.
Proof.
  rewrite focus_stacks, <- list_fmap_compose.
  apply list_fmap_ext. intros i s _. simpl. apply clients_focus_if.
Qed.

(** The first non-empty member list is where the aggregate list starts. *)
Lemma head_members sts :
  head (members sts)
  = match list_find (fun i => ClientList.truthy i = true) sts with
    | Some (_, i) => head (clients i)
    | None => None
    end.
Proof.
  induction sts as [|a sts IH]; [done|].
  rewrite members_cons. csimpl. case_decide as Ha.
  - apply truthy_true in Ha. by destruct (clients a).
  - assert (clients a = []) as E.
    { apply truthy_false. by destruct (ClientList.truthy a). }
    rewrite E. simpl. rewrite IH.
    by destruct (list_find _ sts) as [[k i]|].
Qed.

Lemma last_members sts :
  last (members sts)
  = match list_find (fun i => ClientList.truthy i = true) (reverse sts) with
    | Some (_, i) => last (clients i)
    | None => None
    end.
Proof.
  induction sts as [|a sts IH] using rev_ind; [done|].
  rewrite members_app, reverse_snoc. csimpl.
  unfold members at 2. simpl. rewrite app_nil_r. case_decide as Ha.
  - apply truthy_true in Ha.
    destruct (clients a) as [|d cs] using rev_ind; [done|].
    by rewrite app_assoc, !last_snoc.
  - assert (clients a = []) as E.
    { apply truthy_false. by destruct (ClientList.truthy a). }
    rewrite E, app_nil_r, IH.
    by destruct (list_find _ (reverse sts)) as [[k i]|].
Qed.

End focus_facts.

(** X13. [focus] changes no member list and no split flag, and makes the
    client the current client of the stack that has it; stacks without the
    client stay as they are.  A client of the layout that has just been
    focused is never hidden by [configure]: whenever [configure] returns,
    it has placed and unhidden the client, and on a rectangle with sizes
    below 2^53 in absolute value it does return. *)
Theorem focus_then_configure c has_focus r l :
  c ∈ StackLayout.clients l ->
  clients <$> stacks (StackLayout.focus c l) = clients <$> stacks l /\
  split <$> stacks (StackLayout.focus c l) = split <$> stacks l /\
  (forall i s, stacks l !! i = Some s -> c ∈ clients s ->
     exists s', stacks (StackLayout.focus c l) !! i = Some s' /\ cw s' = Some c) /\
  (forall i s, stacks l !! i = Some s -> c ∉ clients s ->
     stacks (StackLayout.focus c l) !! i = Some s) /\
  (forall evs,
     StackLayout.configure c has_focus r (StackLayout.focus c l) = Ok evs ->
     exists px py w h col,
       evs = [Place c px py w h (border_width l) col (margin l); Unhide c]) /\
  ((Z.abs (width r) < 2 ^ 53)%Z -> (Z.abs (height r) < 2 ^ 53)%Z ->
   exists px py w h col,
     StackLayout.configure c has_focus r (StackLayout.focus c l)
     = Ok [Place c px py w h (border_width l) col (margin l); Unhide c]).
Proof.
  intros Hin.
  assert (forall i s, stacks l !! i = Some s -> c ∈ clients s ->
            exists s', stacks (StackLayout.focus c l) !! i = Some s' /\ cw s' = Some c) as Hcur.
  { intros i s Hi Hc. exists (ClientList.focus c s). split; [|by apply cw_focus].
    rewrite focus_stacks, list_lookup_fmap, Hi. simpl. by rewrite decide_True. }
  assert (exists i s', list_find (ClientList.contains c) (stacks (StackLayout.focus c l))
                       = Some (i, s') /\ cw s' = Some c) as (i & s' & Hfind & Hcw).
  { assert (c ∈ StackLayout.clients (StackLayout.focus c l)) as Hin'.
    { rewrite clients_members in *. unfold members in *. by rewrite focus_clients. }
    rewrite clients_members in Hin'. apply elem_of_members in Hin' as (j & u & Hu & Hcu).
    destruct (list_find (ClientList.contains c) (stacks (StackLayout.focus c l)))
      as [[i s']|] eqn:Hfind.
    2:{ apply list_find_None in Hfind. eapply Forall_lookup in Hfind; [|exact Hu]. done. }
    exists i, s'. split; [done|].
    apply list_find_Some in Hfind as (Hi & Hc & _).
    rewrite focus_stacks, list_lookup_fmap in Hi.
    destruct (stacks l !! i) as [s|] eqn:Hs; [|done]. simpl in Hi. injection Hi as <-.
    destruct (decide (ClientList.contains c s)) as [Hcs|Hcs]; [by apply cw_focus | done]. }
  split_and!; [apply focus_clients | | exact Hcur | | |].
  - rewrite focus_stacks, <- list_fmap_compose.
    apply list_fmap_ext. intros k s _. simpl. case_decide; [apply split_focus | done].
  - intros k s Hk Hc. rewrite focus_stacks, list_lookup_fmap, Hk. simpl.
    by rewrite decide_False.
  - intros evs Hcfg.
    destruct (configure_found c has_focus r _ i s' Hfind) as (row & Hrow & Hrun).
    rewrite Hcfg in Hrun.
    destruct (int_div (width r) _) as [column_width|]; [simpl in Hrun|done].
    destruct (split s').
    + destruct (int_div (height r) _) as [column_height|]; [simpl in Hrun|done].
      injection Hrun as ->. by eexists _, _, _, _, _.
    + rewrite decide_True in Hrun by done.
      injection Hrun as ->. by eexists _, _, _, _, _.
  - intros Hw Hh.
    destruct (configure_found_exact c has_focus r _ i s' Hw Hh Hfind) as (row & Hrow & Hrun).
    rewrite Hrun. destruct (split s').
    + by eexists _, _, _, _, _.
    + rewrite decide_True by done. by eexists _, _, _, _, _.
Qed.

Lemma focus_then_configure_witness :
  exists px py w h col,
    StackLayout.configure 1 false {| x := 0; y := 0; width := 100; height := 60 |}
      (StackLayout.focus 1 (sample_layout 2 true [stack_of [1; 3] 1; stack_of [2] 0]))
    = Ok [Place 1 px py w h 1 col (MarginInt 0); Unhide 1].
Proof.
  apply (focus_then_configure 1 false {| x := 0; y := 0; width := 100; height := 60 |}
           (sample_layout 2 true [stack_of [1; 3] 1; stack_of [2] 0])).
  - by apply (bool_decide_unpack _).
  - by apply (bool_decide_unpack _).
  - by apply (bool_decide_unpack _).
Defined.

(** X14. [focus_first] returns the first client of the aggregate client
    list and [focus_last] the last one, [None] when the layout has no
    client; neither changes a member list. *)
Theorem focus_first_last_clients l :
  (StackLayout.focus_first l).2 = head (StackLayout.clients l) /\
  (StackLayout.focus_last l).2 = last (StackLayout.clients l) /\
  clients <$> stacks (StackLayout.focus_first l).1 = clients <$> stacks l /\
  clients <$> stacks (StackLayout.focus_last l).1 = clients <$> stacks l /\
  ((StackLayout.focus_first l).2 = None <-> StackLayout.clients l = []) /\
  ((StackLayout.focus_last l).2 = None <-> StackLayout.clients l = []).
Proof.
  assert ((StackLayout.focus_first l).2 = head (StackLayout.clients l)) as Hfirst.
  { rewrite clients_members, head_members. unfold StackLayout.focus_first.
    destruct (list_find _ (stacks l)) as [[k i]|]; [|done].
    unfold ClientList.focus_first. by destruct (clients i). }
  assert ((StackLayout.focus_last l).2 = last (StackLayout.clients l)) as Hlast.
  { rewrite clients_members, last_members. unfold StackLayout.focus_last.
    destruct (list_find _ (reverse (stacks l))) as [[k i]|]; [|done].
    unfold ClientList.focus_last. by destruct (last (clients i)). }
  split_and!; [done | done | | | |].
  - unfold StackLayout.focus_first.
    destruct (list_find _ (stacks l)) as [[k i]|] eqn:E; [|done].
    apply list_find_Some in E as (Hk & _).
    unfold ClientList.focus_first. destruct (clients i) eqn:Ei; simpl.
    + by rewrite list_insert_id.
    + rewrite list_fmap_insert. simpl. rewrite <- Ei.
      apply list_insert_id. by rewrite list_lookup_fmap, Hk.
  - unfold StackLayout.focus_last.
    destruct (list_find _ (reverse (stacks l))) as [[k i]|] eqn:E; [|done].
    apply list_find_Some in E as (Hk & _).
    apply reverse_lookup_Some in Hk as [Hk Hlt].
    replace (length (stacks l) - S k) with (length (stacks l) - 1 - k) in Hk by lia.
    unfold ClientList.focus_last. destruct (last (clients i)) eqn:Ei; simpl.
    + rewrite list_fmap_insert. simpl.
      apply list_insert_id. by rewrite list_lookup_fmap, Hk.
    + by rewrite list_insert_id.
  - rewrite Hfirst. by destruct (StackLayout.clients l).
  - rewrite Hlast. apply last_None.
Qed.

Section cyclic_order_facts.
Implicit Types (sts lst : list _WinStack) (s t : _WinStack).

(** The stacks [_find_next] looks at, in its order: the one [d] steps
    after the offset, going round, is at index [d - 1]. *)
Lemma after_lookup lst o d :
  o < length lst -> 1 <= d < length lst ->
  (drop (S o) lst ++ take o lst) !! (d - 1) = lst !! ((o + d) `mod` length lst).
Proof.
  intros Ho Hd. destruct (decide (o + d < length lst)) as [Hlt|Hge].
  - rewrite Nat.mod_small by done.
    rewrite lookup_app_l by (rewrite length_drop; lia).
    rewrite lookup_drop. f_equal. lia.
  - replace ((o + d) `mod` length lst) with (o + d - length lst).
    2:{ apply (Nat.mod_unique _ _ 1); lia. }
    rewrite lookup_app_r by (rewrite length_drop; lia).
    rewrite length_drop, lookup_take_lt by lia. f_equal. lia.
Qed.

(** The same for the search over the reversed list: the stack [d] steps
    before the offset, going round, is at index [d - 1]. *)
Lemma before_lookup sts o d :
  o < length sts -> 1 <= d < length sts ->
  (reverse (take o sts) ++ reverse (drop (S o) sts)) !! (d - 1)
  = sts !! ((o + length sts - d) `mod` length sts).
Proof.
  intros Ho Hd. destruct (decide (d <= o)) as [Hle|Hgt].
  - replace ((o + length sts - d) `mod` length sts) with (o - d).
    2:{ apply (Nat.mod_unique _ _ 1); lia. }
    rewrite lookup_app_l by (rewrite length_reverse, length_take; lia).
    rewrite reverse_lookup by (rewrite length_take; lia).
    rewrite length_take, lookup_take_lt by lia. f_equal. lia.
  - rewrite Nat.mod_small by lia.
    rewrite lookup_app_r by (rewrite length_reverse, length_take; lia).
    rewrite length_reverse, length_take.
    rewrite reverse_lookup by (rewrite length_drop; lia).
    rewrite length_drop, lookup_drop. f_equal. lia.
Qed.

Lemma find_first_at (cands : list _WinStack) i s :
  cands !! i = Some s -> clients s <> [] ->
  (forall j t, j < i -> cands !! j = Some t -> clients t = []) ->
  snd <$> list_find (fun n => ClientList.truthy n = true) cands = Some s.
Proof.
  intros Hi Hs Hfst.
  rewrite (proj2 (list_find_Some (fun n => ClientList.truthy n = true) cands i s)); [done|].
  split_and!; [done | by apply truthy_true |].
  intros j t Ht Hj Htr. apply truthy_true in Htr. by apply Htr, (Hfst j t).
Qed.

End cyclic_order_facts.

(** X15. [next_stack] goes round the stacks forwards and [previous_stack]
    backwards: with [k] stacks and the current stack at offset [off],
    [next_stack] asks the group to focus the current client of the stack
    [(off + d) mod k] for the smallest [d] from 1 to [k - 1] whose stack
    has a member, and [previous_stack] that of the stack
    [(off - d) mod k]. *)
Theorem next_previous_cyclic_order w l d :
  let off := StackLayout.current_stack_offset w l in
  let k := length (stacks l) in
  1 <= d < k ->
  (forall s, stacks l !! ((off + d) `mod` k) = Some s -> clients s <> [] ->
     (forall d' t, 1 <= d' < d -> stacks l !! ((off + d') `mod` k) = Some t -> clients t = []) ->
     StackLayout.next_stack w l = [Focus (cw s) true]) /\
  (forall s, stacks l !! ((off + k - d) `mod` k) = Some s -> clients s <> [] ->
     (forall d' t, 1 <= d' < d -> stacks l !! ((off + k - d') `mod` k) = Some t ->
                   clients t = []) ->
     StackLayout.previous_stack w l = [Focus (cw s) true]).
Proof.
  intros off k Hd.
  assert (stacks l <> []) as Hne by (intros E; unfold k in Hd; rewrite E in Hd; simpl in Hd; lia).
  assert (off < k) as Hoff by (by apply current_stack_offset_lt).
  split.
  - intros s Hs Hne_s Hfst.
    rewrite next_stack_events, find_next_nat. fold off.
    rewrite (find_first_at _ (d - 1) s); [done | | done |].
    + by rewrite after_lookup.
    + intros j t Hj Ht. apply (Hfst (S j) t); [lia|].
      rewrite <- Ht. replace j with (S j - 1) at 2 by lia.
      symmetry. apply after_lookup; [done | fold k; lia].
  - intros s Hs Hne_s Hfst.
    rewrite previous_stack_events. fold off.
    rewrite (find_next_reverse _ _ Hoff).
    rewrite (find_first_at _ (d - 1) s); [done | | done |].
    + by rewrite before_lookup.
    + intros j t Hj Ht. apply (Hfst (S j) t); [lia|].
      rewrite <- Ht. replace j with (S j - 1) at 2 by lia.
      symmetry. apply before_lookup; [done | fold k; lia].
Qed.

Lemma next_previous_cyclic_order_witness :
  StackLayout.next_stack (Some 2)
    (sample_layout 4 false [stack_of [1] 0; stack_of [2] 0; stack_of [] 0; stack_of [3] 0])
  = [Focus (Some 3) true] /\
  StackLayout.previous_stack (Some 1)
    (sample_layout 4 false [stack_of [1] 0; stack_of [2] 0; stack_of [] 0; stack_of [3] 0])
  = [Focus (Some 3) true].
Proof.
  split.
  - refine (proj1 (next_previous_cyclic_order (Some 2)
              (sample_layout 4 false [stack_of [1] 0; stack_of [2] 0; stack_of [] 0; stack_of [3] 0])
              2 _) (stack_of [3] 0) eq_refl _ _).
    + simpl. lia.
    + discriminate.
    + intros d' t Hd Ht. assert (d' = 1) as -> by lia. by injection Ht as <-.
  - refine (proj2 (next_previous_cyclic_order (Some 1)
              (sample_layout 4 false [stack_of [1] 0; stack_of [2] 0; stack_of [] 0; stack_of [3] 0])
              1 _) (stack_of [3] 0) eq_refl _ _).
    + simpl. lia.
    + discriminate.
    + intros d' t Hd Ht. lia.
Defined.

Section remove_facts.
Implicit Types (sts lst : list _WinStack) (s t : _WinStack) (c d : client) (l : Stack).

Lemma find_next_elem lst (offset : Z) n :
  StackLayout._find_next lst offset = Some n -> n ∈ lst.
Proof.
  unfold StackLayout._find_next, slice_from, slice_to.
  destruct (list_find _ (drop _ lst)) as [[i m]|] eqn:E1.
  - intros [= <-]. apply list_find_Some in E1 as (Hi & _).
    eapply elem_of_sublist; [by eapply list_elem_of_lookup_2 | apply sublist_drop].
  - destruct (list_find _ (take _ lst)) as [[i m]|] eqn:E2; [|done].
    intros [= <-]. apply list_find_Some in E2 as (Hi & _).
    eapply elem_of_sublist; [by eapply list_elem_of_lookup_2 | apply sublist_take].
Qed.

Lemma cw_members sts s d : s ∈ sts -> cw s = Some d -> d ∈ members sts.
Proof.
  intros Hs Hd. apply list_elem_of_lookup in Hs as [i Hi].
  apply elem_of_members. exists i, s. split; [done | by apply cw_elem].
Qed.

(** In a layout without duplicates [remove] leaves no copy of the
    client. *)
Lemma remove_gone w c l l' r :
  StackLayout.remove w c l = Ok (l', r) ->
  NoDup (members (stacks l)) -> c ∉ members (stacks l').
Proof.
  intros Hrun Hnd. apply remove_stacks in Hrun as ->.
  destruct (list_find (ClientList.contains c) (stacks l)) as [[k t]|] eqn:E.
  - apply list_find_Some in E as (Hk & Hc & _). unfold ClientList.contains in Hc.
    rewrite (members_delete_perm _ _ _ Hk) in Hnd.
    rewrite (clients_remove_perm c t Hc) in Hnd. simpl in Hnd.
    apply NoDup_cons in Hnd as [Hnotin _].
    by rewrite (alter_insert _ _ _ _ Hk), (members_insert_perm _ _ _ _ Hk).
  - apply list_find_None in E. intros Hin.
    apply elem_of_members in Hin as (j & u & Hu & Hcu).
    eapply Forall_lookup in E; [|exact Hu]. done.
Qed.

End remove_facts.

(** X16. The client [remove] returns is a client of the layout as the
    removal leaves it, and was one before; in a layout without duplicates
    it is never the removed client, of which the layout has no copy
    left. *)
Theorem remove_returns_live w c l l' d :
  StackLayout.remove w c l = Ok (l', Some d) ->
  d ∈ StackLayout.clients l' /\
  d ∈ StackLayout.clients l /\
  (NoDup (StackLayout.clients l) -> d <> c /\ c ∉ StackLayout.clients l').
Proof.
  intros Hrun. rewrite !clients_members.
  assert (d ∈ members (stacks l')) as Hd.
  { pose proof (remove_stacks _ _ _ _ _ Hrun) as Hst.
    unfold StackLayout.remove in Hrun. rewrite <- Hst in Hrun.
    destruct (stacks l' !! _) as [s|] eqn:Hs; [|done].
    destruct (cw s) as [d'|] eqn:Hcw.
    - injection Hrun as _ ->. eapply cw_members; [|done]. by eapply list_elem_of_lookup_2.
    - destruct (StackLayout._find_next _ _) as [n|] eqn:E; [|done].
      rewrite (find_next_truthy _ _ _ E) in Hrun. injection Hrun as _ Hn.
      apply find_next_elem in E. rewrite elem_of_reverse in E.
      exact (cw_members _ _ _ E Hn). }
  split; [done|]. split.
  - apply remove_stacks in Hrun as Hst. rewrite Hst in Hd.
    destruct (list_find _ _) as [[k t]|]; [|done].
    eapply elem_of_sublist; [exact Hd|].
    apply members_alter_sublist. intros u. apply clients_remove_sublist.
  - intros Hnd. pose proof (remove_gone _ _ _ _ _ Hrun Hnd) as Hgone.
    split; [|done]. by intros ->.
Qed.

Lemma remove_returns_live_witness :
  1 ∈ StackLayout.clients
        (sample_layout 3 false [stack_of [1] 0; stack_of [] 0; stack_of [3] 0]) /\
  1 <> 2.
Proof.
  destruct (remove_returns_live (Some 2) 2
              (sample_layout 3 false [stack_of [1] 0; stack_of [2] 0; stack_of [3] 0])
              (sample_layout 3 false [stack_of [1] 0; stack_of [] 0; stack_of [3] 0])
              1 eq_refl) as (H1 & _ & H3).
  split; [exact H1|]. apply H3. by apply (bool_decide_unpack _).
Defined.

Section client_to_stack_facts.
Implicit Types (sts : list _WinStack) (s t : _WinStack) (c : client) (l : Stack)
  (w : option client).

(** [client_to_stack] on a current stack with a current client. *)
Lemma client_to_stack_run w n l cs win :
  stacks l !! StackLayout.current_stack_offset w l = Some cs ->
  cw cs = Some win ->
  let off := StackLayout.current_stack_offset w l in
  let next := Z.to_nat (n `mod` Z.of_nat (length (stacks l))) in
  exists t,
    next < length (stacks l) /\
    <[off := ClientList.remove win cs]> (stacks l) !! next = Some t /\
    StackLayout.client_to_stack w n l
    = Ok (set_stacks l (<[next := ClientList.focus win (ClientList.add_client win t)]>
                          (<[off := ClientList.remove win cs]> (stacks l))),
          [LayoutAll]).
Proof.
  intros Hcs Hcw off next.
  assert (off < length (stacks l)) as Hoff by (by eapply lookup_lt_Some).
  assert (next < length (stacks l)) as Hnext.
  { unfold next. pose proof (Z.mod_pos_bound n (Z.of_nat (length (stacks l)))). lia. }
  destruct (lookup_lt_is_Some_2 (<[off := ClientList.remove win cs]> (stacks l)) next)
    as [t Ht]; [by rewrite length_insert|].
  exists t. split_and!; [done | done |].
  unfold StackLayout.client_to_stack, StackLayout.current_stack.
  rewrite Hcs. simpl.
  assert (clients cs <> []) as Hne by (intros E; apply cw_None in E; congruence).
  rewrite (proj2 (truthy_true cs) Hne). simpl. rewrite Hcw.
  rewrite (alter_insert _ _ _ _ Hcs). fold off next. by rewrite Ht.
Qed.

(** In a layout without duplicates the current stack is the stack of the
    group's current window. *)
Lemma current_stack_offset_unique l i s c :
  NoDup (members (stacks l)) -> stacks l !! i = Some s -> c ∈ clients s ->
  StackLayout.current_stack_offset (Some c) l = i.
Proof.
  intros Hnd Hi Hc. unfold StackLayout.current_stack_offset.
  destruct (list_find (ClientList.contains c) (stacks l)) as [[j t]|] eqn:E.
  - apply list_find_Some in E as (Hj & Hct & _).
    by eapply (NoDup_members_unique _ j i t s c).
  - apply list_find_None in E. eapply Forall_lookup in E; [|exact Hi]. done.
Qed.

Lemma next_previous_index (i k : nat) :
  i < k ->
  Z.to_nat ((Z.of_nat i + 1) `mod` Z.of_nat k) = (i + 1) `mod` k /\
  Z.to_nat ((Z.of_nat ((i + 1) `mod` k) - 1) `mod` Z.of_nat k) = i.
Proof.
  intros Hi. destruct (decide (i + 1 < k)) as [Hlt|Hge].
  - rewrite (Nat.mod_small (i + 1)) by done.
    rewrite Z.mod_small by lia.
    split; [lia|]. rewrite Z.mod_small by lia. lia.
  - assert (i + 1 = k) as E by lia. rewrite E, Nat.Div0.mod_same.
    replace (Z.of_nat i + 1)%Z with (Z.of_nat k) by lia.
    rewrite Z.mod_same by lia. split; [done|].
    rewrite <- (Z.mod_unique (Z.of_nat 0 - 1) (Z.of_nat k) (-1) (Z.of_nat i)); lia.
Qed.

Lemma clients_remove_focus_add c s :
  c ∉ clients s ->
  clients (ClientList.remove c (ClientList.focus c (ClientList.add_client c s))) = clients s.
Proof.
  intros Hc. rewrite clients_remove, clients_focus.
  rewrite <- clients_remove. by apply clients_remove_add.
Qed.

Lemma remove_not_elem c s :
  NoDup (clients s) -> c ∉ clients (ClientList.remove c s).
Proof.
  intros Hnd Hin.
  assert (c ∈ clients s) as Hc.
  { eapply elem_of_sublist; [exact Hin | apply clients_remove_sublist]. }
  rewrite (clients_remove_perm c s Hc) in Hnd. by apply NoDup_cons in Hnd as [? _].
Qed.

End client_to_stack_facts.

(** X17. In a layout without duplicates, with the current client of a
    stack as the group's current window, [client_to_next] sends that
    client to the next stack, going round from the last stack to stack 0,
    where it is the current client; [client_to_previous] right after
    brings it back: every other stack has its members in their order
    again, the stack of the client has the same members, the split flags
    are as before and the client is the current client of its stack. *)
Theorem client_to_next_previous_round_trip l i cs win :
  NoDup (StackLayout.clients l) ->
  stacks l !! i = Some cs -> cw cs = Some win ->
  exists l1 l2,
    StackLayout.client_to_next (Some win) l = Ok (l1, [LayoutAll]) /\
    (exists t1, stacks l1 !! ((i + 1) `mod` length (stacks l)) = Some t1 /\
                cw t1 = Some win) /\
    StackLayout.client_to_previous (Some win) l1 = Ok (l2, [LayoutAll]) /\
    length (stacks l2) = length (stacks l) /\
    (forall j s, stacks l !! j = Some s ->
       exists s2, stacks l2 !! j = Some s2 /\
                  clients s2 ≡ₚ clients s /\ split s2 = split s /\
                  (j <> i -> clients s2 = clients s)) /\
    (exists s2, stacks l2 !! i = Some s2 /\ cw s2 = Some win).
Proof.
  intros Hnd Hi Hcw. rewrite clients_members in Hnd.
  pose proof (cw_elem _ _ Hcw) as Hwin.
  pose proof (lookup_lt_Some _ _ _ Hi) as Hik.
  destruct (next_previous_index i (length (stacks l)) Hik) as [Enx Eback].
  set (k := length (stacks l)) in *. set (nx := (i + 1) `mod` k) in *.
  (* the first move *)
  pose proof (current_stack_offset_unique l i cs win Hnd Hi Hwin) as Hoff.
  assert (stacks l !! StackLayout.current_stack_offset (Some win) l = Some cs) as Hcs
    by (by rewrite Hoff).
  destruct (client_to_stack_run (Some win) (Z.of_nat i + 1) l cs win Hcs Hcw)
    as (t & Hnxk & Ht & Hrun1).
  rewrite Hoff in Ht, Hrun1. fold k in Ht, Hrun1, Hnxk. rewrite Enx in Ht, Hrun1, Hnxk.
  set (sts1 := <[i := ClientList.remove win cs]> (stacks l)) in *.
  set (t1 := ClientList.focus win (ClientList.add_client win t)) in *.
  set (l1 := set_stacks l (<[nx := t1]> sts1)) in *.
  assert (length sts1 = k) as Hlen1 by apply length_insert.
  assert (stacks l1 !! nx = Some t1) as Ht1.
  { simpl. apply list_lookup_insert_eq. lia. }
  assert (cw t1 = Some win) as Hcw1.
  { unfold t1. apply cw_focus. rewrite clients_add_client_perm. left. }
  assert (StackLayout.client_to_next (Some win) l = Ok (l1, [LayoutAll])) as Hnext.
  { unfold StackLayout.client_to_next. by rewrite Hoff. }
  assert (NoDup (members (stacks l1))) as Hnd1.
  { by rewrite (client_to_stack_perm _ _ _ _ _ Hrun1). }
  (* the move back *)
  pose proof (current_stack_offset_unique l1 nx t1 win Hnd1 Ht1 (cw_elem _ _ Hcw1)) as Hoff1.
  assert (stacks l1 !! StackLayout.current_stack_offset (Some win) l1 = Some t1) as Hcs1
    by (by rewrite Hoff1).
  destruct (client_to_stack_run (Some win) (Z.of_nat nx - 1) l1 t1 win Hcs1 Hcw1)
    as (u & _ & Hu & Hrun2).
  rewrite Hoff1 in Hu, Hrun2.
  assert (length (stacks l1) = k) as Hlenl1.
  { simpl. by rewrite length_insert. }
  rewrite Hlenl1, Eback in Hu, Hrun2.
  set (sts2 := <[nx := ClientList.remove win t1]> (stacks l1)) in *.
  set (u1 := ClientList.focus win (ClientList.add_client win u)) in *.
  assert (length sts2 = k) as Hlen2 by (unfold sts2; by rewrite length_insert).
  assert (StackLayout.client_to_previous (Some win) l1
          = Ok (set_stacks l1 (<[i := u1]> sts2), [LayoutAll])) as Hprev.
  { unfold StackLayout.client_to_previous. by rewrite Hoff1. }
  (* the stacks at the end *)
  assert (NoDup (clients cs)) as Hndcs.
  { apply NoDup_members_each in Hnd. eapply Forall_lookup in Hnd; [|exact Hi]. done. }
  assert (clients u = clients (ClientList.remove win cs) /\
          split u = split cs) as [Hucl Husp].
  { unfold sts2 in Hu. destruct (decide (nx = i)) as [E|Hne].
    - rewrite E in *. rewrite list_lookup_insert_eq in Hu by lia. injection Hu as <-.
      unfold sts1 in Ht. rewrite list_lookup_insert_eq in Ht by lia. injection Ht as <-.
      unfold t1. split.
      + apply clients_remove_focus_add. by apply remove_not_elem.
      + by rewrite split_remove, split_focus, split_add_client, split_remove.
    - rewrite list_lookup_insert_ne in Hu by done. simpl in Hu.
      rewrite list_lookup_insert_ne in Hu by done.
      unfold sts1 in Hu. rewrite list_lookup_insert_eq in Hu by lia. injection Hu as <-.
      split; [done | apply split_remove]. }
  exists l1, (set_stacks l1 (<[i := u1]> sts2)).
  split_and!; [done | by exists t1 | done | | |].
  - simpl. by rewrite length_insert.
  - intros j s Hj. simpl. destruct (decide (j = i)) as [->|Hji].
    + rewrite Hi in Hj. injection Hj as <-. exists u1.
      rewrite list_lookup_insert_eq by lia. split_and!; [done | | | done].
      * unfold u1. rewrite clients_focus, clients_add_client_perm, Hucl.
        symmetry. by apply clients_remove_perm.
      * unfold u1. by rewrite split_focus, split_add_client.
    + rewrite list_lookup_insert_ne by done. unfold sts2.
      destruct (decide (j = nx)) as [->|Hjn].
      * rewrite list_lookup_insert_eq by lia.
        unfold sts1 in Ht. rewrite list_lookup_insert_ne in Ht by done.
        rewrite Hj in Ht. injection Ht as <-.
        exists (ClientList.remove win t1).
        assert (win ∉ clients s) as Hns.
        { intros Hin. apply Hji.
          by apply (NoDup_members_unique _ nx i s cs win Hnd). }
        assert (clients (ClientList.remove win t1) = clients s) as Hcl
          by (by apply clients_remove_focus_add).
        split_and!; [done | by rewrite Hcl | | done].
        unfold t1. by rewrite split_remove, split_focus, split_add_client.
      * rewrite list_lookup_insert_ne by done. simpl.
        rewrite list_lookup_insert_ne by done.
        unfold sts1. rewrite list_lookup_insert_ne by done.
        exists s. by rewrite Hj.
  - exists u1. simpl. rewrite list_lookup_insert_eq by lia. split; [done|].
    unfold u1. apply cw_focus. rewrite clients_add_client_perm. left.
Qed.

Lemma client_to_next_previous_round_trip_witness :
  exists l1 l2,
    StackLayout.client_to_next (Some 2)
      (sample_layout 2 true [stack_of [1; 3] 1; stack_of [2] 0]) = Ok (l1, [LayoutAll]) /\
    StackLayout.client_to_previous (Some 2) l1 = Ok (l2, [LayoutAll]) /\
    exists s2, stacks l2 !! 1 = Some s2 /\ cw s2 = Some 2.
Proof.
  destruct (client_to_next_previous_round_trip
              (sample_layout 2 true [stack_of [1; 3] 1; stack_of [2] 0])
              1 (stack_of [2] 0) 2)
    as (l1 & l2 & H1 & _ & H2 & _ & _ & H3).
  - by apply (bool_decide_unpack _).
  - reflexivity.
  - reflexivity.
  - exists l1, l2. split_and!; [exact H1 | exact H2 | exact H3].
Defined.
